(** * cheer-reader: a shallow embedding of the extraction engine

    The development follows the TypeScript sources: [regexes.ts],
    [textUtils.ts], [ancestors.ts], [dom.ts], [utils.ts] and the
    [Readability] class.  JavaScript strings are sequences of UTF-16 code
    units, numbers that come out of a division are binary64 floats, counts
    and lengths are integers. *)

From Stdlib Require Import ZArith NArith List Bool String Ascii Lia Floats Sorted.
Import ListNotations.

Set Implicit Arguments.
Set Warnings "-register-all,-inexact-float".

(** ** JavaScript strings *)

Module JsString.

(** A string is the list of its UTF-16 code units. *)
Definition str := list N.

(** ASCII literals of the sources. *)
Definition lit (s : string) : str := map N_of_ascii (list_ascii_of_string s).

Fixpoint eqb (a b : str) : bool :=
  match a, b with
  | [], [] => true
  | x :: a', y :: b' => N.eqb x y && eqb a' b'
  | _, _ => false
  end.

(** [s.length] *)
Definition len (s : str) : Z := Z.of_nat (List.length s).

(** A string is truthy when it is not empty. *)
Definition truthy (s : str) : bool :=
  match s with [] => false | _ => true end.

(** [a.includes(b)] on strings: [b] occurs in [a]. *)
Fixpoint prefixb (p s : str) : bool :=
  match p, s with
  | [], _ => true
  | x :: p', y :: s' => N.eqb x y && prefixb p' s'
  | _ :: _, [] => false
  end.

Fixpoint includes (s sub : str) : bool :=
  prefixb sub s || match s with [] => false | _ :: s' => includes s' sub end.

(** [xs.includes(t)] on arrays of strings. *)
Definition mem (t : str) (xs : list str) : bool := existsb (eqb t) xs.

(** [xs.join(sep)] *)
Fixpoint join (sep : str) (xs : list str) : str :=
  match xs with
  | [] => []
  | [x] => x
  | x :: rest => x ++ sep ++ join sep rest
  end.

(** White space of [\s] and of [String.prototype.trim]: the WhiteSpace and
    LineTerminator productions of ECMAScript. *)
Definition is_space (c : N) : bool :=
  ((9 <=? c) && (c <=? 13) || (c =? 32) || (c =? 160) || (c =? 0x1680)
   || ((0x2000 <=? c) && (c <=? 0x200A)) || (c =? 0x2028) || (c =? 0x2029)
   || (c =? 0x202F) || (c =? 0x205F) || (c =? 0x3000) || (c =? 0xFEFF))%N.

(** [.] of a regular expression without the [s] flag: anything but a line
    terminator. *)
Definition is_line_terminator (c : N) : bool :=
  ((c =? 10) || (c =? 13) || (c =? 0x2028) || (c =? 0x2029))%N.

Definition is_digit (c : N) : bool := ((48 <=? c) && (c <=? 57))%N.
Definition is_upper (c : N) : bool := ((65 <=? c) && (c <=? 90))%N.
Definition is_lower (c : N) : bool := ((97 <=? c) && (c <=? 122))%N.

(** [\w] is [A-Za-z0-9_]; [\W] is its complement. *)
Definition is_word (c : N) : bool :=
  is_digit c || is_upper c || is_lower c || (c =? 95)%N.

Fixpoint trimStart (s : str) : str :=
  match s with
  | c :: s' => if is_space c then trimStart s' else s
  | [] => []
  end.

Definition trimEnd (s : str) : str := rev (trimStart (rev s)).

Definition trim (s : str) : str := trimEnd (trimStart s).

(** [s.toLowerCase()].  On ASCII it maps [A-Z] to [a-z].  Outside ASCII the
    only code units whose lower case reaches ASCII are U+212A (Kelvin sign,
    to [k]) and U+0130 (to [i] followed by U+0307); the remaining non-ASCII
    code units are mapped to non-ASCII ones, which the tokenizer of
    [textSimilarity] treats as separators either way, and are left as they
    are here. *)
Definition lower1 (c : N) : list N :=
  if is_upper c then [(c + 32)%N]
  else if (c =? 0x212A)%N then [107%N]
  else if (c =? 0x130)%N then [105%N; 0x307%N]
  else [c].

Definition toLowerCase (s : str) : str := flat_map lower1 s.

(** Canonical form of a code unit under the [i] flag (no [u] flag): the
    upper case, never taking a non-ASCII unit to an ASCII one.  For the
    ASCII patterns of this library only ASCII units matter. *)
Definition upper_ascii (c : N) : N := if is_lower c then (c - 32)%N else c.

(** Simple case folding, used under the [iu] flags, on the blocks that hold
    a preimage of a letter of [adWords] or [loadingWords]: ASCII, Latin-1,
    U+017F (long s), U+212A (Kelvin), basic Cyrillic and the Cyrillic
    Extended-C letters that fold into basic Cyrillic. *)
Definition scf (c : N) : N :=
  (if is_upper c then c + 32
   else if (0xC0 <=? c) && (c <=? 0xDE) && negb (c =? 0xD7) then c + 32
   else if c =? 0x17F then 115
   else if c =? 0x212A then 107
   else if (0x410 <=? c) && (c <=? 0x42F) then c + 32
   else if (0x400 <=? c) && (c <=? 0x40F) then c + 80
   else if c =? 0x1C80 then 0x432
   else if c =? 0x1C81 then 0x434
   else if c =? 0x1C82 then 0x43E
   else if c =? 0x1C83 then 0x441
   else if (c =? 0x1C84) || (c =? 0x1C85) then 0x442
   else if c =? 0x1C86 then 0x44A
   else c)%N.

(** Decimal digits of a non-negative integer, as [String(n)] prints it. *)
Fixpoint digits_fuel (fuel : nat) (n : N) (acc : str) : str :=
  match fuel with
  | O => acc
  | S fuel' =>
      let acc' := (48 + n mod 10)%N :: acc in
      if (n <? 10)%N then acc' else digits_fuel fuel' (n / 10)%N acc'
  end.

Definition decimal (n : N) : str := digits_fuel (S (N.to_nat (N.log2 n))) n [].

(** [parseInt(s, 10)]: leading white space, a sign, then the longest run of
    digits; [None] is NaN.  The value is kept as an integer (a JavaScript
    number holds it exactly below 2^53). *)
Fixpoint digitsValue (acc : Z) (s : str) : Z :=
  match s with
  | c :: s' =>
      if is_digit c then digitsValue (10 * acc + (Z.of_N c - 48)) s' else acc
  | [] => acc
  end.

Definition parseInt10 (s : str) : option Z :=
  let body (s : str) : option Z :=
    match s with
    | c :: _ => if is_digit c then Some (digitsValue 0 s) else None
    | [] => None
    end in
  match trimStart s with
  | 45%N :: s' => option_map Z.opp (body s')
  | 43%N :: s' => body s'
  | s' => body s'
  end.

End JsString.

Import JsString.

(** ** Regular expressions

    A backtracking matcher with the priorities of ECMAScript: alternatives
    are tried left to right, repetition is greedy, and an iteration of a
    star that consumes nothing is rejected. *)

Module Regex.

Inductive re :=
| Eps
| Chr (p : N -> bool)
| Seq (a b : re)
| Alt (a b : re)
| Star (a : re)
| Bol
| Eol.

Section Matcher.
(** Length of the whole subject string: [^] holds where nothing has been
    consumed yet. *)
Variable total : nat.

(** The iterations of a star: [body] matches one more iteration, which
    must consume something; failing that the continuation runs. *)
Fixpoint star_loop (body : str -> (str -> option str) -> option str)
  (k : str -> option str) (n : nat) (s : str) {struct n} : option str :=
  match n with
  | O => k s
  | S n' =>
      match body s (fun s' =>
                      if (List.length s' <? List.length s)%nat
                      then star_loop body k n' s' else None) with
      | Some x => Some x
      | None => k s
      end
  end.

Fixpoint bt (r : re) (s : str) (k : str -> option str) {struct r}
  : option str :=
  match r with
  | Eps => k s
  | Chr p =>
      match s with
      | c :: s' => if p c then k s' else None
      | [] => None
      end
  | Seq a b => bt a s (fun s' => bt b s' k)
  | Alt a b =>
      match bt a s k with
      | Some x => Some x
      | None => bt b s k
      end
  | Star a => star_loop (bt a) k (List.length s) s
  | Bol => if (List.length s =? total)%nat then k s else None
  | Eol => match s with [] => k s | _ :: _ => None end
  end.

(** One attempt at the current position; the answer is what is left of
    the subject after the match. *)
Definition match_here (r : re) (s : str) : option str := bt r s Some.

(** Leftmost match: the skipped prefix, the match, the rest. *)
Fixpoint exec_from (r : re) (skipped : str) (s : str)
  : option (str * str * str) :=
  match match_here r s with
  | Some rest =>
      Some (rev skipped, firstn (List.length s - List.length rest) s, rest)
  | None =>
      match s with
      | [] => None
      | c :: s' => exec_from r (c :: skipped) s'
      end
  end.
End Matcher.

(** [r.exec(s)] for a regular expression without the [g] and [y] flags. *)
Definition exec (r : re) (s : str) : option (str * str * str) :=
  exec_from (List.length s) r [] s.

(** [r.test(s)] *)
Definition test (r : re) (s : str) : bool :=
  match exec r s with Some _ => true | None => false end.

(** [s.replace(r, f)] for a regular expression with the [g] flag. *)
Fixpoint replace_fuel (fuel total : nat) (r : re) (f : str -> str) (s : str)
  : str :=
  match fuel with
  | O => s
  | S fuel' =>
      match match_here total r s with
      | Some rest =>
          let m := firstn (List.length s - List.length rest) s in
          match m, s with
          | [], c :: s' => f m ++ c :: replace_fuel fuel' total r f s'
          | [], [] => f m
          | _ :: _, _ => f m ++ replace_fuel fuel' total r f rest
          end
      | None =>
          match s with
          | [] => []
          | c :: s' => c :: replace_fuel fuel' total r f s'
          end
      end
  end.

Definition replaceAll (r : re) (f : str -> str) (s : str) : str :=
  replace_fuel (S (List.length s)) (List.length s) r f s.

(** [s.split(r)], after the steps of [RegExp.prototype[@@split]]: [piece]
    holds, reversed, the units between the end of the last separator and
    the current position. *)
Fixpoint split_fuel (fuel total : nat) (r : re) (piece : str) (s : str)
  : list str :=
  match fuel with
  | O => [rev piece ++ s]
  | S fuel' =>
      match s with
      | [] => [rev piece]
      | c :: s' =>
          match match_here total r s with
          | Some rest =>
              if (List.length rest =? List.length s)%nat && negb (truthy piece)
              then split_fuel fuel' total r (c :: piece) s'
              else rev piece :: split_fuel fuel' total r [] rest
          | None => split_fuel fuel' total r (c :: piece) s'
          end
      end
  end.

Definition split (r : re) (s : str) : list str :=
  match s with
  | [] => match match_here 0 r [] with Some _ => [] | None => [[]] end
  | _ => split_fuel (2 * List.length s + 2) (List.length s) r [] s
  end.

(** Building blocks for the literals of [regexes.ts]. *)
Definition chr (c : N) : re := Chr (N.eqb c).
Definition chr_i (c : N) : re := Chr (fun x => N.eqb (upper_ascii x) (upper_ascii c)).
Definition chr_iu (c : N) : re := Chr (fun x => N.eqb (scf x) (scf c)).
Definition plus (a : re) : re := Seq a (Star a).
Definition opt (a : re) : re := Alt a Eps.

Fixpoint seqs (rs : list re) : re :=
  match rs with
  | [] => Eps
  | [r] => r
  | r :: rest => Seq r (seqs rest)
  end.

Fixpoint alts (rs : list re) : re :=
  match rs with
  | [] => Chr (fun _ => false)
  | [r] => r
  | r :: rest => Alt r (alts rest)
  end.

Definition word (s : str) : re := seqs (map chr s).
Definition word_i (s : str) : re := seqs (map chr_i s).
Definition word_iu (s : str) : re := seqs (map chr_iu s).

Definition any_s : re := Chr is_space.
Definition dot : re := Chr (fun c => negb (is_line_terminator c)).

End Regex.

Import Regex.

(** ** The document tree

    The nodes cheerio hands over (domhandler): elements with a tag name, an
    attribute object and children; text; comments; directives (doctype and
    processing instructions); CDATA sections; the root document.
    [_readabilityDataTable] is the mark that [markDataTables] leaves on a
    table element: undefined, false or true. *)

Module Dom.

(** The [type] field of an element: domhandler gives script and style
    elements a type of their own when it creates them. *)
Inductive elementType := TagType | ScriptType | StyleType.

Inductive node :=
| Element (type : elementType) (tagName : str) (attribs : list (str * str))
          (readabilityDataTable : option bool) (children : list node)
| Text (data : str)
| Comment (data : str)
| Directive (data : str)
| CDATA (children : list node)
| Root (children : list node).

(** [new Element(name, attribs, children)], as the parser and
    [$('<div></div>')] build elements; no mark yet. *)
Definition mkElement (name : str) (attribs : list (str * str))
  (children : list node) : node :=
  Element (if JsString.eqb name (lit "script") then ScriptType
           else if JsString.eqb name (lit "style") then StyleType
           else TagType)
    name attribs None children.

(** domhandler's [isTag]: an element of any of the three types. *)
Definition isTag (n : node) : bool :=
  match n with Element _ _ _ _ _ => true | _ => false end.

(** [node.type === 'tag'] *)
Definition typeIsTag (n : node) : bool :=
  match n with Element TagType _ _ _ _ => true | _ => false end.

Definition tagName (n : node) : option str :=
  match n with Element _ t _ _ _ => Some t | _ => None end.

Definition tagIs (t : str) (n : node) : bool :=
  match n with Element _ t' _ _ _ => JsString.eqb t' t | _ => false end.

Definition tagIn (ts : list str) (n : node) : bool :=
  existsb (fun t => tagIs t n) ts.

Definition attributes (n : node) : list (str * str) :=
  match n with Element _ _ a _ _ => a | _ => [] end.

Definition childNodes (n : node) : list node :=
  match n with
  | Element _ _ _ _ cs | CDATA cs | Root cs => cs
  | _ => []
  end.

Fixpoint lookup (name : str) (a : list (str * str)) : option str :=
  match a with
  | [] => None
  | (k, v) :: a' => if JsString.eqb k name then Some v else lookup name a'
  end.

(** [$el.attr(name)] for the attribute names this library reads (none of
    them is one of cheerio's boolean attributes). *)
Definition attr (n : node) (name : str) : option str :=
  lookup name (attributes n).

(** [$el.attr(name, value)]: overwrite in place or add at the end. *)
Fixpoint setAttr (name value : str) (a : list (str * str))
  : list (str * str) :=
  match a with
  | [] => [(name, value)]
  | (k, v) :: a' =>
      if JsString.eqb k name then (k, value) :: a'
      else (k, v) :: setAttr name value a'
  end.

(** [$el.removeAttr(name)] *)
Definition removeAttr (name : str) (a : list (str * str))
  : list (str * str) :=
  filter (fun kv => negb (JsString.eqb (fst kv) name)) a.

(** [$el.children()]: the element children. *)
Definition elementChildren (n : node) : list node :=
  filter isTag (childNodes n).

(** The elements below a node in document order, as a selector search
    visits them: only elements are entered. *)
Fixpoint descendants (n : node) : list node :=
  match n with
  | Element _ _ _ _ cs | Root cs =>
      flat_map (fun c => match c with
                         | Element _ _ _ _ _ => c :: descendants c
                         | _ => []
                         end) cs
  | _ => []
  end.

(** An element child and what is below it, as the search meets them. *)
Definition withDescendants (c : node) : list node :=
  match c with
  | Element _ _ _ _ _ => c :: descendants c
  | _ => []
  end.

(** [$el.find('t')] and [$el.find('t1, t2, ...')] *)
Definition find (ts : list str) (n : node) : list node :=
  filter (tagIn ts) (descendants n).

(** [coll.length > 0] *)
Definition nonEmpty (A : Type) (coll : list A) : bool :=
  match coll with [] => false | _ :: _ => true end.

(** [$el.text()]: domutils's [textContent], which enters elements, CDATA
    sections and the root, and skips comments and directives. *)
Fixpoint textContent (n : node) : str :=
  match n with
  | Element _ _ _ _ cs | CDATA cs | Root cs => flat_map textContent cs
  | Text d => d
  | Comment _ | Directive _ => []
  end.

End Dom.

Import Dom.


(** ** Traversals of a list of child nodes that can fail *)

Section Traversals.
Variables A B : Type.
Variable f : A -> option B.
Variable g : A -> option (list B).

(** [cs.map(f)], failing as soon as [f] fails. *)
Fixpoint mapOpt (cs : list A) : option (list B) :=
  match cs with
  | [] => Some []
  | c :: cs' =>
      match f c, mapOpt cs' with
      | Some c', Some rest => Some (c' :: rest)
      | _, _ => None
      end
  end.

(** [cs.flatMap(g)], failing as soon as [g] fails. *)
Fixpoint flatMapOpt (cs : list A) : option (list B) :=
  match cs with
  | [] => Some []
  | c :: cs' =>
      match g c, flatMapOpt cs' with
      | Some c', Some rest => Some (c' ++ rest)
      | _, _ => None
      end
  end.
End Traversals.

(** ** regexes.ts (the patterns of the text utilities) *)

Module Regexes.

(** [/\s{2,}/g] *)
Definition normalize : re := Seq any_s (Seq any_s (Star any_s)).

(** [/\W+/g] *)
Definition tokenize : re := plus (Chr (fun c => negb (is_word c))).

(** [/^#.+/] *)
Definition hashUrl : re := seqs [Bol; chr 35; plus dot].

(** The strings [hashUrl] accepts: [#] and then at least one code unit,
    the first of which is not a line terminator. *)
Definition isHashFragment (href : str) : bool :=
  match href with
  | 35%N :: c :: _ => negb (is_line_terminator c)
  | _ => false
  end.


(** [/article|body|content|entry|hentry|h-entry|main|page|pagination|post|text|blog|story/i] *)
Definition positive : re :=
  alts (map (fun w => word_i (lit w))
          ["article"; "body"; "content"; "entry"; "hentry"; "h-entry"; "main";
           "page"; "pagination"; "post"; "text"; "blog"; "story"]%string).

(** [/-ad-|hidden|^hid$| hid$| hid |^hid |banner|combx|comment|com-|contact|foot|footer|footnote|gdpr|masthead|media|meta|outbrain|promo|related|scroll|share|shoutbox|sidebar|skyscraper|sponsor|shopping|tags|tool|widget/i] *)
Definition negative : re :=
  alts ([word_i (lit "-ad-"); word_i (lit "hidden");
         seqs [Bol; word_i (lit "hid"); Eol];
         seqs [word_i (lit " hid"); Eol];
         word_i (lit " hid ");
         seqs [Bol; word_i (lit "hid ")]]
        ++ map (fun w => word_i (lit w))
          ["banner"; "combx"; "comment"; "com-"; "contact"; "foot"; "footer";
           "footnote"; "gdpr"; "masthead"; "media"; "meta"; "outbrain";
           "promo"; "related"; "scroll"; "share"; "shoutbox"; "sidebar";
           "skyscraper"; "sponsor"; "shopping"; "tags"; "tool";
           "widget"]%string).

(** [/^(ad(vertising|vertisement)?|pub(licité)?|werb(ung)?|广告|Реклама|Anuncio)$/iu];
    the non-ASCII words are U+5E7F U+544A and
    U+0420 U+0435 U+043A U+043B U+0430 U+043C U+0430, and [é] is U+00E9. *)
Definition adWords : re :=
  seqs [Bol;
        alts [Seq (word_iu (lit "ad"))
                (opt (alts [word_iu (lit "vertising");
                            word_iu (lit "vertisement")]));
              Seq (word_iu (lit "pub"))
                (opt (word_iu (lit "licit" ++ [0xE9%N])));
              Seq (word_iu (lit "werb")) (opt (word_iu (lit "ung")));
              word_iu [0x5E7F; 0x544A]%N;
              word_iu [0x420; 0x435; 0x43A; 0x43B; 0x430; 0x43C; 0x430]%N;
              word_iu (lit "Anuncio")];
        Eol].

(** [/^((loading|正在加载|Загрузка|chargement|cargando)(…|\.\.\.)?)$/iu];
    the non-ASCII words are U+6B63 U+5728 U+52A0 U+8F7D and
    U+0417 U+0430 U+0433 U+0440 U+0443 U+0437 U+043A U+0430, and the
    ellipsis is U+2026. *)
Definition loadingWords : re :=
  seqs [Bol;
        Seq (alts [word_iu (lit "loading");
                   word_iu [0x6B63; 0x5728; 0x52A0; 0x8F7D]%N;
                   word_iu [0x417; 0x430; 0x433; 0x440; 0x443; 0x437; 0x43A;
                            0x430]%N;
                   word_iu (lit "chargement");
                   word_iu (lit "cargando")])
          (opt (alts [chr 0x2026; word (lit "...")]));
        Eol].

(** [/\/\/(www\.)?((dailymotion|youtube|youtube-nocookie|player\.vimeo|v\.qq)\.com|(archive|upload\.wikimedia)\.org|player\.twitch\.tv)/i] *)
Definition videos : re :=
  seqs [word_i (lit "//");
        opt (word_i (lit "www."));
        alts [Seq (alts (map (fun w => word_i (lit w))
                           ["dailymotion"; "youtube"; "youtube-nocookie";
                            "player.vimeo"; "v.qq"]%string))
                (word_i (lit ".com"));
              Seq (alts [word_i (lit "archive");
                         word_i (lit "upload.wikimedia")])
                (word_i (lit ".org"));
              word_i (lit "player.twitch.tv")]].

(** [/\S$/] *)
Definition hasContent : re := seqs [Chr (fun c => negb (is_space c)); Eol].

End Regexes.

(** ** Numbers *)

(** An integer count or length as a JavaScript number (exact below 2^53). *)
Definition num (z : Z) : float := PrimFloat.of_uint63 (Uint63.of_Z z).

(** The binary64 values of the decimal literals of the sources. *)
Definition f0_3 : float := 0x1.3333333333333p-2%float.

(** ** textUtils.ts *)

Module TextUtils.

(** [getInnerText($element, normalizeSpaces = true)] *)
Definition getInnerText (n : node) (normalizeSpaces : bool) : str :=
  let textContent := trim (Dom.textContent n) in
  if normalizeSpaces
  then replaceAll Regexes.normalize (fun _ => lit " ") textContent
  else textContent.

(** [href && hashUrl.test(href) ? 0.3 : 1] *)
Definition coefficient (linkNode : node) : float :=
  match attr linkNode (lit "href") with
  | Some href =>
      if truthy href && test Regexes.hashUrl href then f0_3 else 1%float
  | None => 1%float
  end.

(** [getLinkDensity($, $element)] *)
Definition getLinkDensity (element : node) : float :=
  let textLength := len (getInnerText element true) in
  if (textLength =? 0)%Z then 0%float
  else
    let linkLength :=
      fold_left
        (fun linkLength linkNode =>
           (linkLength + num (len (getInnerText linkNode true))
                         * coefficient linkNode)%float)
        (find [lit "a"] element) 0%float in
    (linkLength / num textLength)%float.

(** [s.split(tokenize).filter(Boolean)] *)
Definition tokens (s : str) : list str :=
  filter truthy (split Regexes.tokenize (toLowerCase s)).

(** [textSimilarity(textA, textB)] *)
Definition textSimilarity (textA textB : str) : float :=
  let tokensA := tokens textA in
  let tokensB := tokens textB in
  match tokensA, tokensB with
  | [], _ | _, [] => 0%float
  | _, _ =>
      let uniqTokensB := filter (fun token => negb (mem token tokensA)) tokensB in
      let distanceB :=
        (num (len (join (lit " ") uniqTokensB))
         / num (len (join (lit " ") tokensB)))%float in
      (1 - distanceB)%float
  end.

End TextUtils.

(** ** The text utilities as the specification words them *)

Module Spec.

Import TextUtils.

(** "w = 0.3 if the anchor's href starts with #, else 1" *)
Definition spec_coefficient (linkNode : node) : float :=
  match attr linkNode (lit "href") with
  | Some (35%N :: _) => f0_3
  | _ => 1%float
  end.

(** "link-density = sum of length(text(a)) * w over length(text(el));
    if el has no text, density is 0" *)
Definition spec_linkDensity (element : node) : float :=
  let textLength := len (getInnerText element true) in
  if (textLength =? 0)%Z then 0%float
  else
    (fold_left
       (fun sum a =>
          (sum + num (len (getInnerText a true)) * spec_coefficient a)%float)
       (find [lit "a"] element) 0%float
     / num textLength)%float.

End Spec.

(** ** ancestors.ts

    A node is handed over together with its chain of ancestors, nearest
    first: [node.parentNode], then its parent, up to the root. *)

Module Ancestors.

Definition alwaysTrue (_ : node) : bool := true.

(** [hasAncestorTag(node, tagName, maxDepth = 3, filterFn = alwaysTrue)];
    [depth] is the loop counter. *)
Fixpoint hasAncestorTagFrom (depth : Z) (ancestors : list node) (tagName : str)
  (maxDepth : Z) (filterFn : node -> bool) : bool :=
  match ancestors with
  | [] => false
  | parentNode :: rest =>
      if (0 <? maxDepth)%Z && (maxDepth <? depth)%Z then false
      else if typeIsTag parentNode && tagIs tagName parentNode
              && filterFn parentNode then true
      else hasAncestorTagFrom (depth + 1) rest tagName maxDepth filterFn
  end.

Definition hasAncestorTag := hasAncestorTagFrom 0.

End Ancestors.

Import Ancestors.

(** ** dom.ts *)

Module DomUtils.

Section Prune.
Variable clean : node -> node.
Variable remove : node -> bool.

(** Children from the last to the first: each is cleaned below, then kept
    or removed. *)
Fixpoint prune (cs : list node) : list node :=
  match cs with
  | [] => []
  | c :: cs' =>
      let rest := prune cs' in
      let c' := clean c in
      if remove c' then rest else c' :: rest
  end.
End Prune.

(** [removeNodes($coll, fn)] for a collection [$coll = $el.find(...)]
    described by [sel]: the collection is walked from its last element to
    its first, so an element is examined after everything below it and
    after its later siblings, on the subtree those removals left; [fn]
    sees the element and its ancestors. *)
Fixpoint removeNodesBelow (sel : node -> bool)
  (fn : list node -> node -> bool) (ancestors : list node) (n : node)
  {struct n} : node :=
  let up := n :: ancestors in
  match n with
  | Element ty t a d cs =>
      Element ty t a d
        (prune (removeNodesBelow sel fn up) (fun c => sel c && fn up c) cs)
  | Root cs =>
      Root (prune (removeNodesBelow sel fn up) (fun c => sel c && fn up c) cs)
  | _ => n
  end.

(** [removeComments(node)] on a node of the tree: the recursion enters the
    root and the elements of type [tag]; comments, directives and CDATA
    sections met there go away. *)
Fixpoint removeCommentsBelow (n : node) : node :=
  let go :=
    fix go (cs : list node) {struct cs} : list node :=
      match cs with
      | [] => []
      | c :: cs' =>
          match c with
          | Comment _ | Directive _ | CDATA _ => go cs'
          | _ => removeCommentsBelow c :: go cs'
          end
      end in
  match n with
  | Element TagType t a d cs => Element TagType t a d (go cs)
  | Root cs => Root (go cs)
  | _ => n
  end.

(** [replaceNodeTags(elements, tag)] for [elements = $el.find(from)]. *)
Fixpoint renameBelow (from : list str) (to : str) (n : node) : node :=
  let rename c :=
    match renameBelow from to c with
    | Element ty t a d cs =>
        if tagIn from c then Element ty to a d cs else Element ty t a d cs
    | c' => c'
    end in
  match n with
  | Element ty t a d cs => Element ty t a d (map rename cs)
  | Root cs => Root (map rename cs)
  | _ => n
  end.

End DomUtils.

Import DomUtils.

(** ** utils.ts *)

Module Utils.

(** [isDataTable(t)]: the mark, read as a truth value. *)
Definition isDataTable (t : node) : bool :=
  match t with
  | Element _ _ _ (Some true) _ => true
  | _ => false
  end.

Definition DIV_TO_P_ELEMS : list str :=
  map lit ["blockquote"; "dl"; "div"; "img"; "ol"; "p"; "pre"; "table";
           "ul"]%string.

End Utils.

Import Utils.

(** ** The [Readability] class: flags, options and the cleaning passes *)

Module Readability.

Import TextUtils.

Definition FLAG_STRIP_UNLIKELYS : Z := 0x1.
Definition FLAG_WEIGHT_CLASSES : Z := 0x2.
Definition FLAG_CLEAN_CONDITIONALLY : Z := 0x4.

(** The initial value of [this.flags]. *)
Definition ALL_FLAGS : Z :=
  Z.lor (Z.lor FLAG_STRIP_UNLIKELYS FLAG_WEIGHT_CLASSES)
    FLAG_CLEAN_CONDITIONALLY.

Definition DEFAULT_CHAR_THRESHOLD : Z := 500.
Definition CLASSES_TO_PRESERVE : list str := [lit "page"].

(** [flagIsActive(flag)]: [(this.flags & flag) > 0] *)
Definition flagIsActive (flags flag : Z) : bool := (0 <? Z.land flags flag)%Z.

(** [removeFlag(flag)]: [this.flags & ~flag] *)
Definition removeFlag (flags flag : Z) : Z := Z.land flags (Z.lnot flag).

(** The options after [{ ...DEFAULT_OPTIONS, ...options }].  A regular
    expression option is kept as its [test] function; [debug] only drives
    logging. *)
Record Options := {
  debug : bool;
  maxElemsToParse : Z;
  nbTopCandidates : Z;
  charThreshold : Z;
  keepClasses : bool;
  classesToPreserve : list str;
  serializer : option node -> option str;
  disableJSONLD : bool;
  allowedVideoRegex : str -> bool;
  linkDensityModifier : float;
  extraction : bool;
  baseURI : option str
}.

(** [DEFAULT_OPTIONS]; [html] is cheerio's [$el.html()]. *)
Definition DEFAULT_OPTIONS (html : node -> option str) : Options := {|
  debug := false;
  maxElemsToParse := 0;
  nbTopCandidates := 5;
  charThreshold := DEFAULT_CHAR_THRESHOLD;
  keepClasses := false;
  classesToPreserve := CLASSES_TO_PRESERVE;
  serializer := fun el =>
    match el with
    | Some e => match html e with
                | Some h => if truthy h then Some h else None
                | None => None
                end
    | None => None
    end;
  disableJSONLD := false;
  allowedVideoRegex := test Regexes.videos;
  linkDensityModifier := 0%float;
  extraction := true;
  baseURI := None
|}.

(** [getClassWeight(el)] *)
Definition getClassWeight (flags : Z) (el : node) : Z :=
  if negb (flagIsActive flags FLAG_WEIGHT_CLASSES) then 0%Z
  else
    let weigh (value : option str) : Z :=
      match value with
      | Some v =>
          if truthy v
          then ((if test Regexes.negative v then -25 else 0)
                + (if test Regexes.positive v then 25 else 0))%Z
          else 0%Z
      | None => 0%Z
      end in
    (weigh (attr el (lit "class")) + weigh (attr el (lit "id")))%Z.

(** [span = $x.attr(name) || 0], parsed when it is a string, then
    [span || 1]: what a row or a cell adds to the count. *)
Definition spanOf (n : node) (name : str) : Z :=
  match attr n name with
  | Some v =>
      if truthy v
      then match parseInt10 v with
           | Some k => if (k =? 0)%Z then 1%Z else k
           | None => 1%Z
           end
      else 1%Z
  | None => 1%Z
  end.

(** [getRowAndColumnCount($table)] *)
Definition getRowAndColumnCount (table : node) : Z * Z :=
  fold_left
    (fun (acc : Z * Z) tr =>
       let '(rows, columns) := acc in
       let columnsInThisRow :=
         fold_left (fun c cell => (c + spanOf cell (lit "colspan"))%Z)
           (find [lit "td"] tr) 0%Z in
       ((rows + spanOf tr (lit "rowspan"))%Z, Z.max columns columnsInThisRow))
    (find [lit "tr"] table) (0%Z, 0%Z).

(** [$table.find('caption *')]: the elements below a caption of the table
    (only whether there is one is used). *)
Definition findCaptionStar (table : node) : list node :=
  flat_map descendants (find [lit "caption"] table).

(** The tests of [markDataTables], in the order it makes them. *)
Definition rolePresentation (table : node) : bool :=
  match attr table (lit "role") with
  | Some role => JsString.eqb role (lit "presentation")
  | None => false
  end.

Definition datatableZero (table : node) : bool :=
  match attr table (lit "datatable") with
  | Some datatable => JsString.eqb datatable (lit "0")
  | None => false
  end.

Definition hasSummary (table : node) : bool :=
  match attr table (lit "summary") with
  | Some summary => truthy summary
  | None => false
  end.

Definition hasCaptionContent (table : node) : bool :=
  nonEmpty (findCaptionStar table).

Definition hasDataDescendant (table : node) : bool :=
  nonEmpty (find (map lit ["col"; "colgroup"; "tfoot"; "thead"; "th"]%string)
              table).

Definition hasNestedTable (table : node) : bool :=
  nonEmpty (find [lit "table"] table).

(** The value [markDataTables] stores in [table._readabilityDataTable]. *)
Definition dataTableVerdict (table : node) : bool :=
  if rolePresentation table then false
  else if datatableZero table then false
  else if hasSummary table then true
  else if hasCaptionContent table then true
  else if hasDataDescendant table then true
  else if hasNestedTable table then false
  else
    let '(rows, columns) := getRowAndColumnCount table in
    if (columns =? 1)%Z || (rows =? 1)%Z then false
    else if (10 <=? rows)%Z || (4 <? columns)%Z then true
    else (10 <? rows * columns)%Z.

(** [markDataTables($el)]: every table below [$el] gets its mark. *)
Fixpoint markBelow (n : node) : node :=
  let mark c :=
    match markBelow c with
    | Element ty t a d cs =>
        if JsString.eqb t (lit "table")
        then Element ty t a (Some (dataTableVerdict c)) cs
        else Element ty t a d cs
    | c' => c'
    end in
  match n with
  | Element ty t a d cs => Element ty t a d (map mark cs)
  | Root cs => Root (map mark cs)
  | _ => n
  end.

Definition markDataTables (el : node) : node := markBelow el.

(** [getTextDensity($el, tags)] *)
Definition getTextDensity (el : node) (tags : list str) : float :=
  let textLength := len (getInnerText el true) in
  if (textLength =? 0)%Z then 0%float
  else
    let childrenLength :=
      fold_left (fun acc child => (acc + len (getInnerText child true))%Z)
        (find tags el) 0%Z in
    (num childrenLength / num textLength)%float.

(** [s.split(',').length - 1] *)
Definition countCommas (s : str) : Z :=
  Z.of_nat (List.length (filter (N.eqb 44) s)).

Definition count (ts : list str) (n : node) : Z :=
  Z.of_nat (List.length (find ts n)).

Section CleanConditionally.
(** [$el.html()], cheerio's serializer of the inside of an element. *)
Variable html : node -> option str.
Variable options : Options.
Variable flags : Z.

(** An embed let through: one of its attribute values, or for an
    [object] its inner HTML, matches [allowedVideoRegex]. *)
Definition isAllowedVideo (embed : node) : bool :=
  existsb (fun a => allowedVideoRegex options (snd a)) (attributes embed)
  || (tagIs (lit "object") embed
      && allowedVideoRegex options
           (match html embed with Some h => h | None => [] end)).

(** The callback [cleanConditionally] passes to [removeNodes]: [true]
    removes the node. *)
Definition cleanConditionallyFilter (tag : str) (ancestors : list node)
  (node : node) : bool :=
  if JsString.eqb tag (lit "table") && isDataTable node then false
  else if hasAncestorTag ancestors (lit "table") (-1) isDataTable then false
  else if hasAncestorTag ancestors (lit "code") 3 alwaysTrue then false
  else if existsb isDataTable (find [lit "table"] node) then false
  else
    let isList :=
      if JsString.eqb tag (lit "ul") || JsString.eqb tag (lit "ol") then true
      else
        let listLength :=
          fold_left (fun acc list => (acc + len (getInnerText list true))%Z)
            (find [lit "ul"; lit "ol"] node) 0%Z in
        (0.9 <? num listLength / num (len (getInnerText node true)))%float in
    let weight := getClassWeight flags node in
    let contentScore := 0%Z in
    if (weight + contentScore <? 0)%Z then true
    else
      let charCount := countCommas (getInnerText node true) in
      if (10 <? charCount)%Z then false
      else
        (* [Math.floor(p / 3)] below is the integer quotient [p / 3]. *)
        let p := count [lit "p"] node in
        let img := count [lit "img"] node in
        let li := (count [lit "li"] node - 100)%Z in
        let input := count [lit "input"] node in
        let headingDensity :=
          getTextDensity node
            (map lit ["h1"; "h2"; "h3"; "h4"; "h5"; "h6"]%string) in
        let embeds := find (map lit ["object"; "embed"; "iframe"]%string) node in
        if existsb isAllowedVideo embeds then false
        else
          let embedCount := Z.of_nat (List.length embeds) in
          let innerText := getInnerText node true in
          if test Regexes.adWords innerText
             || test Regexes.loadingWords innerText then true
          else
            let contentLength := len innerText in
            let linkDensity := getLinkDensity node in
            let textishTags :=
              map lit ["span"; "li"; "td"]%string ++ DIV_TO_P_ELEMS in
            let textDensity := getTextDensity node textishTags in
            let isFigureChild :=
              hasAncestorTag ancestors (lit "figure") 3 alwaysTrue in
            let modifier := linkDensityModifier options in
            let haveToRemove :=
              (negb isFigureChild && (1 <? img)%Z
               && (num p / num img <? 0.5)%float)
              || (negb isList && (p <? li)%Z)
              || (p / 3 <? input)%Z
              || (negb isList && negb isFigureChild
                  && (headingDensity <? 0.9)%float
                  && (contentLength <? 25)%Z
                  && ((img =? 0)%Z || (2 <? img)%Z)
                  && (0 <? linkDensity)%float)
              || (negb isList && (weight <? 25)%Z
                  && (0.2 + modifier <? linkDensity)%float)
              || ((25 <=? weight)%Z
                  && (0.5 + modifier <? linkDensity)%float)
              || (((embedCount =? 1)%Z && (contentLength <? 75)%Z)
                  || (1 <? embedCount)%Z)
              || ((img =? 0)%Z && (textDensity =? 0)%float) in
            if isList && haveToRemove
            then
              if existsb (fun child =>
                            (1 <? Z.of_nat (List.length (elementChildren child)))%Z)
                   (elementChildren node)
              then haveToRemove
              else if (img =? count [lit "li"] node)%Z then false
              else haveToRemove
            else haveToRemove.

(** [cleanConditionally($el, tag)] *)
Definition cleanConditionally (ancestors : list node) (el : node)
  (tag : str) : node :=
  if negb (flagIsActive flags FLAG_CLEAN_CONDITIONALLY) then el
  else removeNodesBelow (tagIs tag) (cleanConditionallyFilter tag)
         ancestors el.
End CleanConditionally.

End Readability.

(** ** unescapeHtmlEntities.ts *)

Module Unescape.

(** [/&(quot|amp|apos|lt|gt);/g] *)
Definition namedEntity : re :=
  seqs [chr 38;
        alts (map (fun w => word (lit w))
                ["quot"; "amp"; "apos"; "lt"; "gt"]%string);
        chr 59].

Definition HTML_ESCAPE_MAP (tag : str) : str :=
  if JsString.eqb tag (lit "lt") then lit "<"
  else if JsString.eqb tag (lit "gt") then lit ">"
  else if JsString.eqb tag (lit "amp") then lit "&"
  else if JsString.eqb tag (lit "quot") then [34%N]
  else lit "'".

Definition upTo4 (x : re) : re := Seq x (opt (Seq x (opt (Seq x (opt x))))).

Definition is_alnum_i (c : N) : bool := is_digit c || is_upper c || is_lower c.

(** [/&#(?:x([0-9a-z]{1,4})|([0-9]{1,4}));/gi] *)
Definition numericEntity : re :=
  seqs [chr 38; chr 35;
        Alt (Seq (chr_i 120) (upTo4 (Chr is_alnum_i))) (upTo4 (Chr is_digit));
        chr 59].

Definition hexDigit (c : N) : option Z :=
  if is_digit c then Some (Z.of_N c - 48)%Z
  else if ((97 <=? c) && (c <=? 102))%N then Some (Z.of_N c - 87)%Z
  else if ((65 <=? c) && (c <=? 70))%N then Some (Z.of_N c - 55)%Z
  else None.

Fixpoint hexValue (acc : Z) (s : str) : Z :=
  match s with
  | c :: s' =>
      match hexDigit c with
      | Some d => hexValue (16 * acc + d) s'
      | None => acc
      end
  | [] => acc
  end.

(** [parseInt(s, 16)] on a run of letters and digits: an optional [0x],
    then the longest run of hexadecimal digits; [None] is NaN. *)
Definition parseInt16 (s : str) : option Z :=
  let body :=
    match s with
    | 48%N :: x :: s' => if (N.eqb x 120 || N.eqb x 88) then s' else s
    | _ => s
    end in
  match body with
  | c :: _ => match hexDigit c with
              | Some _ => Some (hexValue 0 body)
              | None => None
              end
  | [] => None
  end.

(** [String.fromCharCode(num)]: NaN gives the code unit 0. *)
Definition fromCharCode (num : option Z) : str :=
  match num with
  | Some k => [Z.to_N (k mod 65536)]
  | None => [0%N]
  end.

Definition drop (n : nat) (s : str) : str := skipn n s.
Definition dropLast (s : str) : str := removelast s.

(** [unescapeHtmlEntities(str)] *)
Definition unescapeHtmlEntities (value : option str) : option str :=
  match value with
  | Some s =>
      if negb (truthy s) then value
      else
        let s1 :=
          replaceAll namedEntity
            (fun m => HTML_ESCAPE_MAP (dropLast (drop 1 m))) s in
        Some (replaceAll numericEntity
                (fun m =>
                   match dropLast (drop 2 m) with
                   | x :: hex =>
                       if N.eqb x 120 || N.eqb x 88
                       then fromCharCode (parseInt16 hex)
                       else fromCharCode (parseInt10 (x :: hex))
                   | [] => fromCharCode None
                   end) s1)
  | None => None
  end.

End Unescape.

(** ** Metadata from [<meta>] elements *)

Module Metadata.

Import Unescape.

(** The [Metadata] object; an absent key and [null] are both [None]. *)
Record Metadata := {
  title : option str;
  byline : option str;
  excerpt : option str;
  siteName : option str;
  publishedTime : option str;
  datePublished : option str
}.

Definition emptyMetadata : Metadata :=
  Build_Metadata None None None None None None.

(** [a || b] on values that are strings, undefined or null. *)
Definition orElse (a b : option str) : option str :=
  match a with
  | Some s => if truthy s then a else b
  | None => b
  end.

Definition someTruthy (a : option str) : bool :=
  match a with Some s => truthy s | None => false end.

Definition ows : re := Star any_s.

(** [/\s*(article|dc|dcterm|og|twitter)\s*:\s*(author|creator|description|published_time|title|site_name)\s*/gi] *)
Definition propertyPattern : re :=
  seqs [ows;
        alts (map (fun w => word_i (lit w))
                ["article"; "dc"; "dcterm"; "og"; "twitter"]%string);
        ows; chr 58; ows;
        alts (map (fun w => word_i (lit w))
                ["author"; "creator"; "description"; "published_time";
                 "title"; "site_name"]%string);
        ows].

(** The pattern for [name], with the [i] flag: [^], white space, an optional
    prefix, one of [author|creator|pub-date|description|title|site_name],
    white space, [$]; the prefix is one of
    [dc|dcterm|og|twitter|parsely|weibo:(article|webpage)], white space, one
    of [-.:] and white space. *)
Definition namePattern : re :=
  seqs [Bol; ows;
        opt (seqs [alts [word_i (lit "dc"); word_i (lit "dcterm");
                         word_i (lit "og"); word_i (lit "twitter");
                         word_i (lit "parsely");
                         Seq (word_i (lit "weibo:"))
                           (alts [word_i (lit "article");
                                  word_i (lit "webpage")])];
                   ows;
                   Chr (fun c => N.eqb c 45 || N.eqb c 46 || N.eqb c 58);
                   ows]);
        alts (map (fun w => word_i (lit w))
                ["author"; "creator"; "pub-date"; "description"; "title";
                 "site_name"]%string);
        ows; Eol].

(** [s.replace(/\s/g, '')] and [s.replace(/\./g, ':')] *)
Definition stripSpaces (s : str) : str :=
  filter (fun c => negb (is_space c)) s.
Definition dotsToColons (s : str) : str :=
  map (fun c => if N.eqb c 46 then 58%N else c) s.

(** One step of [$metaElements.each]: what a [<meta>] element adds to
    [values]. *)
Definition scanMeta (values : list (str * str)) (el : node)
  : list (str * str) :=
  let elementName := attr el (lit "name") in
  let elementProperty := attr el (lit "property") in
  match attr el (lit "content") with
  | Some content =>
      if negb (truthy content) then values
      else
        let matches :=
          if someTruthy elementProperty
          then match elementProperty with
               | Some property =>
                   match exec propertyPattern property with
                   | Some (_, m, _) => Some m
                   | None => None
                   end
               | None => None
               end
          else None in
        match matches with
        | Some m =>
            setAttr (stripSpaces (toLowerCase m)) (trim content) values
        | None =>
            match elementName with
            | Some name =>
                if truthy name && test namePattern name
                then setAttr
                       (dotsToColons (stripSpaces (toLowerCase name)))
                       (trim content) values
                else values
            | None => values
            end
        end
  | None => values
  end.

Section GetArticleMetadata.
Local Open Scope string_scope.
(** [getArticleTitle()], the title heuristic over the document. *)
Variable getArticleTitle : node -> str.

(** [getArticleMetadata(jsonld)] *)
Definition getArticleMetadata (doc : node) (jsonld : Metadata) : Metadata :=
  let values := fold_left scanMeta (find [lit "meta"] doc) [] in
  let value (key : string) := lookup (lit key) values in
  let title0 :=
    orElse (title jsonld)
      (orElse (value "dc:title")
         (orElse (value "dcterm:title")
            (orElse (value "og:title")
               (orElse (value "weibo:article:title")
                  (orElse (value "weibo:webpage:title")
                     (orElse (value "title")
                        (orElse (value "twitter:title")
                           (value "parsely-title")))))))) in
  let title1 :=
    if someTruthy title0 then title0 else Some (getArticleTitle doc) in
  let byline0 :=
    orElse (byline jsonld)
      (orElse (value "dc:creator")
         (orElse (value "dcterm:creator")
            (orElse (value "author") (value "parsely-author")))) in
  let excerpt0 :=
    orElse (excerpt jsonld)
      (orElse (value "dc:description")
         (orElse (value "dcterm:description")
            (orElse (value "og:description")
               (orElse (value "weibo:article:description")
                  (orElse (value "weibo:webpage:description")
                     (orElse (value "description")
                        (value "twitter:description"))))))) in
  let siteName0 := orElse (siteName jsonld) (value "og:site_name") in
  let publishedTime0 :=
    orElse (datePublished jsonld)
      (orElse (value "article:published_time")
         (orElse (value "parsely-pub-date") None)) in
  {| title := unescapeHtmlEntities title1;
     byline := unescapeHtmlEntities byline0;
     excerpt := unescapeHtmlEntities excerpt0;
     siteName := unescapeHtmlEntities siteName0;
     publishedTime := unescapeHtmlEntities publishedTime0;
     datePublished := None |}.
End GetArticleMetadata.

End Metadata.

(** ** Post-processing of the article: [fixRelativeUris],
    [simplifyNestedElements], [cleanClasses] *)

Module PostProcess.

Import Readability.

(** [isElementWithoutContent($element)] (textUtils.ts) *)
Definition isElementWithoutContent (element : node) : bool :=
  let hasNoText := (len (trim (Dom.textContent element)) =? 0)%Z in
  let children := Z.of_nat (List.length (elementChildren element)) in
  let brCount := count [lit "br"] element in
  let hrCount := count [lit "hr"] element in
  let hasOnlyBrOrHr := (children =? brCount + hrCount)%Z in
  hasNoText && ((children =? 0)%Z || hasOnlyBrOrHr).

(** [hasSingleTagInsideElement(element, tag)] (utils.ts) *)
Definition hasSingleTagInsideElement (element : node) (tag : str) : bool :=
  match filter typeIsTag (childNodes element) with
  | [child] =>
      tagIs tag child
      && negb (existsb (fun n => match n with
                                 | Text data => test Regexes.hasContent data
                                 | _ => false
                                 end) (childNodes element))
  | _ => false
  end.

Definition TAGS_TO_SIMPLIFY : list str := [lit "div"; lit "section"].

(** [id && id.startsWith('readability')] *)
Definition idStartsWithReadability (attribs : list (str * str)) : bool :=
  match lookup (lit "id") attribs with
  | Some id => truthy id && prefixb (lit "readability") id
  | None => false
  end.

(** [Object.entries(node.attribs).forEach(([key, value]) => $child.attr(key, value))] *)
Definition copyAttribs (from to : list (str * str)) : list (str * str) :=
  fold_left (fun acc kv => setAttr (fst kv) (snd kv) acc) from to.

(** The walk of [simplifyNestedElements] at one element: [attribs] are the
    attributes the element has when the walk reaches it (its own, or the
    ones copied onto it when it replaced its parent) and [parentIsTag]
    says whether [node.parentNode.type === 'tag'].  The answer is what
    stands in the element's place afterwards: nothing when it is removed. *)
Fixpoint simplifyAt (parentIsTag : bool) (attribs : list (str * str))
  (n : node) {struct n} : list node :=
  match n with
  | Element ty t _ d cs =>
      let self := Element ty t attribs d cs in
      let below :=
        flat_map (fun c => match c with
                           | Element _ _ a _ _ =>
                               simplifyAt (typeIsTag self) a c
                           | _ => [c]
                           end) cs in
      let replaceWithChild :=
        (fix first (cs : list node) {struct cs} : list node :=
           match cs with
           | [] => []
           | c :: cs' =>
               match c with
               | Element _ _ a _ _ =>
                   simplifyAt parentIsTag (copyAttribs attribs a) c
               | _ => first cs'
               end
           end) in
      if parentIsTag && tagIn TAGS_TO_SIMPLIFY self
         && negb (idStartsWithReadability attribs)
      then
        if isElementWithoutContent self then []
        else if hasSingleTagInsideElement self (lit "div")
                || hasSingleTagInsideElement self (lit "section")
        then replaceWithChild cs
        else [Element ty t attribs d below]
      else [Element ty t attribs d below]
  | _ => [n]
  end.

(** [simplifyNestedElements($articleContent)]; the article content hangs
    under no element. *)
Definition simplifyNestedElements (articleContent : node) : node :=
  match simplifyAt false (attributes articleContent) articleContent with
  | [n] => n
  | _ => articleContent
  end.

(** [cleanClasses($el)] *)
Fixpoint cleanClasses (classesToPreserve : list str) (n : node) : node :=
  match n with
  | Element ty t a d cs =>
      let current :=
        match lookup (lit "class") a with
        | Some c => c
        | None => []
        end in
      let className :=
        join (lit " ")
          (filter (fun cls => mem cls classesToPreserve)
             (split (plus any_s) current)) in
      Element ty t
        (if truthy className then setAttr (lit "class") className a
         else removeAttr (lit "class") a)
        d (map (cleanClasses classesToPreserve) cs)
  | _ => n
  end.

Section FixRelativeUris.
(** The host's [new URL(url, base).href]; [None] when it throws. *)
Variable newURL : str -> str -> option str.
(** The HTML parser, as [replaceWith(string)] calls it. *)
Variable parseHTML : str -> list node.
(** The [baseURI] cheerio was loaded with. *)
Variable loadBaseURI : option str.
(** [srcset.replace(srcsetUrl, ...)] against the [baseURI] option. *)
Variable rewriteSrcset : str -> str -> option str.
Variable options : Options.

(** [$el.prop(name)] for [href] or [src] on the tags cheerio resolves. *)
Definition resolvedProp (n : node) (name : str) : option (option str) :=
  match attr n name, loadBaseURI with
  | Some v, Some base =>
      if truthy base then option_map Some (newURL v base) else Some (Some v)
  | v, _ => Some v
  end.

(** The first loop, over [$articleContent.find('a')]: what stands in a
    node's place afterwards; [None] when [new URL] throws. *)
Fixpoint fixLinksAt (n : node) {struct n} : option (list node) :=
  match n with
  | Element ty t a d cs =>
      let below := flatMapOpt fixLinksAt cs in
      if JsString.eqb t (lit "a")
      then
        match resolvedProp n (lit "href") with
        | None => None
        | Some href =>
            if negb (Metadata.someTruthy href)
            then option_map (fun cs' => [Element ty t a d cs']) below
            else
              let h := match href with Some h => h | None => [] end in
              if negb (includes h (lit "javascript:"))
              then option_map
                     (fun cs' =>
                        [Element ty t (setAttr (lit "href") h a) d cs'])
                     below
              else
                match cs with
                | [Text data] => Some (parseHTML data)
                | _ =>
                    option_map
                      (fun cs' => [mkElement (lit "span") [] cs'])
                      below
                end
        end
      else option_map (fun cs' => [Element ty t a d cs']) below
  | _ => Some [n]
  end.

Definition MEDIA : list str :=
  map lit ["img"; "picture"; "figure"; "video"; "audio"; "source"]%string.
Definition SRC_RESOLVED : list str :=
  map lit ["img"; "iframe"; "audio"; "video"; "source"]%string.

(** The body of the second loop on one media element. *)
Definition fixMedia (n : node) : option (list (str * str)) :=
  let a := attributes n in
  match (if tagIn SRC_RESOLVED n then resolvedProp n (lit "src")
         else Some (attr n (lit "src"))) with
  | None => None
  | Some src =>
      let a1 :=
        match src with
        | Some s => if truthy s then setAttr (lit "src") s a else a
        | None => a
        end in
      let a2 :=
        match attr n (lit "poster") with
        | Some p => if truthy p then setAttr (lit "poster") p a1 else a1
        | None => a1
        end in
      match baseURI options, attr n (lit "srcset") with
      | Some base, Some srcset =>
          if truthy base && truthy srcset
          then option_map (fun s => setAttr (lit "srcset") s a2)
                 (rewriteSrcset base srcset)
          else Some a2
      | _, _ => Some a2
      end
  end.

(** The second loop at one node: a media element gets its attributes
    rewritten, and the loop goes on below every element. *)
Fixpoint fixMediaAt (n : node) {struct n} : option node :=
  match n with
  | Element ty t a d cs =>
      match (if tagIn MEDIA n then fixMedia n else Some a),
            mapOpt fixMediaAt cs with
      | Some a', Some cs' => Some (Element ty t a' d cs')
      | _, _ => None
      end
  | _ => Some n
  end.

(** [fixRelativeUris($articleContent)]: both loops run over what is below
    [$articleContent]. *)
Definition fixRelativeUris (articleContent : node) : option node :=
  match articleContent with
  | Element ty t a d cs =>
      match flatMapOpt fixLinksAt cs with
      | Some cs1 =>
          option_map (fun cs2 => Element ty t a d cs2)
            (mapOpt fixMediaAt cs1)
      | None => None
      end
  | _ => Some articleContent
  end.

(** [postProcessContent($articleContent)]; [None] when [new URL] throws. *)
Definition postProcessContent (articleContent : option node)
  : option (option node) :=
  match articleContent with
  | None => Some None
  | Some content =>
      match fixRelativeUris content with
      | None => None
      | Some fixed =>
          let simplified := simplifyNestedElements fixed in
          Some (Some (if negb (keepClasses options)
                      then cleanClasses (classesToPreserve options)
                             simplified
                      else simplified))
      end
  end.
End FixRelativeUris.

End PostProcess.

(** ** [grabArticle]: the retry loop *)

Module Grab.

Import Readability TextUtils.

(** An entry of [this.attempts]. *)
Record Attempt := {
  articleContent : node;
  textLength : Z
}.

(** The fields of the instance that [grabArticle] reads and writes.
    [passes] is not a field of the class: it records the value of
    [this.flags] and the document at each "Starting grabArticle loop". *)
Record State := {
  flags : Z;
  attempts : list Attempt;
  articleByline : option str;
  articleDir : option str;
  articleLang : option str;
  passes : list (Z * node)
}.

(** The state of a new instance. *)
Definition initialState : State := {|
  flags := ALL_FLAGS;
  attempts := [];
  articleByline := None;
  articleDir := None;
  articleLang := None;
  passes := []
|}.

(** What one turn of the loop has when [prepArticle] returns: the document
    as the turn leaves it, [$articleContent], whether a top candidate had
    to be created, where that candidate sits below [$articleContent] (a
    path of child positions; [None] when it is not below it), the nodes
    [parentOfTopCandidate, topCandidate, ...ancestors] scanned for the
    text direction, and the byline and language the turn recorded. *)
Record Built := {
  document : node;
  content : node;
  neededToCreateTopCandidate : bool;
  topCandidate : option (list nat);
  dirChain : list node;
  byline : option str;
  lang : option str
}.

Definition PAGE_ID : str := lit "readability-page-1".
Definition PAGE_CLASS : str := lit "page".

(** [$(x).attr('id', 'readability-page-1')] then [.attr('class', 'page')] *)
Definition pageAttribs (a : list (str * str)) : list (str * str) :=
  setAttr (lit "class") PAGE_CLASS (setAttr (lit "id") PAGE_ID a).

(** A [div] of type [tag] without a data-table mark, as [$('<div></div>')]
    creates it. *)
Definition pageDiv (attribs : list (str * str)) (cs : list node) : node :=
  Element TagType (lit "div") attribs None cs.

(** Apply [f] to the node at a path of child positions. *)
Fixpoint updateAt (f : node -> node) (path : list nat) (n : node) : node :=
  match path with
  | [] => f n
  | i :: path' =>
      let each :=
        (fix each (i : nat) (cs : list node) {struct cs} : list node :=
           match cs, i with
           | [], _ => []
           | c :: cs', O => updateAt f path' c :: cs'
           | c :: cs', S i' => c :: each i' cs'
           end) in
      match n with
      | Element ty t a d cs => Element ty t a d (each i cs)
      | _ => n
      end
  end.

Definition markAsPage (n : node) : node :=
  match n with
  | Element ty t a d cs => Element ty t (pageAttribs a) d cs
  | _ => n
  end.

(** The paging step: the created top candidate gets the id and the class
    where it is; otherwise a new [div] with them takes over the children
    of [$articleContent] and becomes its only child. *)
Definition paging (b : Built) : node :=
  if neededToCreateTopCandidate b
  then match topCandidate b with
       | Some path => updateAt markAsPage path (content b)
       | None => content b
       end
  else match content b with
       | Element ty t a d cs =>
           Element ty t a d [pageDiv (pageAttribs []) cs]
       | n => n
       end.

(** [this.attempts.sort((a, b) => b.textLength - a.textLength)]: a stable
    sort, longest first. *)
Fixpoint insertAttempt (a : Attempt) (sorted : list Attempt) : list Attempt :=
  match sorted with
  | [] => [a]
  | b :: rest =>
      if (textLength b <=? textLength a)%Z then a :: sorted
      else b :: insertAttempt a rest
  end.

Definition sortAttempts (l : list Attempt) : list Attempt :=
  fold_right insertAttempt [] l.


(** How many more turns the flags allow after a failed one: the position
    of the first flag still set in the order in which they are cleared. *)
Definition rank (f : Z) : nat :=
  if flagIsActive f FLAG_STRIP_UNLIKELYS then 3
  else if flagIsActive f FLAG_WEIGHT_CLASSES then 2
  else if flagIsActive f FLAG_CLEAN_CONDITIONALLY then 1
  else 0.

(** The scan for the text direction: the first node of type [tag] with a
    non-empty [dir]. *)
Fixpoint findDir (chain : list node) : option str :=
  match chain with
  | [] => None
  | ancestor :: rest =>
      if typeIsTag ancestor
      then match attr ancestor (lit "dir") with
           | Some d => if truthy d then Some d else findDir rest
           | None => findDir rest
           end
      else findDir rest
  end.

Section Loop.
(** One turn of the loop up to the end of [prepArticle], from the flags,
    the article title, the byline recorded so far and the document. *)
Variable build : Z -> option str -> option str -> node -> Built.
(** [$page.html()] and [$page.html(pageCacheHtml)] on the body. *)
Variable bodyHtml : node -> option str.
Variable setBodyHtml : option str -> node -> node.
Variable options : Options.
Variable articleTitle : option str.
Variable pageCacheHtml : option str.

Definition succeed (st : State) (b : Built) (article : node)
  : option (State * node * option node) :=
  Some
  ({| flags := flags st;
      attempts := attempts st;
      articleByline := byline b;
      articleDir := match findDir (dirChain b) with
                    | Some d => Some d
                    | None => articleDir st
                    end;
      articleLang := lang b;
      passes := passes st |},
   document b, Some article).

(** One turn of the [while (true)] of [grabArticle]; [again] stands for
    going round the loop once more. *)
Definition turn (again : State -> node -> option (State * node * option node))
  (st : State) (doc : node) : option (State * node * option node) :=
  let st := {| flags := flags st; attempts := attempts st;
               articleByline := articleByline st;
               articleDir := articleDir st;
               articleLang := articleLang st;
               passes := passes st ++ [(flags st, doc)] |} in
  let b := build (flags st) articleTitle (articleByline st) doc in
  let article := paging b in
  let articleLength := len (getInnerText article true) in
  if (articleLength <? charThreshold options)%Z
  then
    let doc' := setBodyHtml pageCacheHtml (document b) in
    let attempt := {| articleContent := article;
                      textLength := articleLength |} in
    let retry (flag : Z) :=
      again
        {| flags := removeFlag (flags st) flag;
           attempts := attempts st ++ [attempt];
           articleByline := byline b;
           articleDir := articleDir st;
           articleLang := lang b;
           passes := passes st |} doc' in
    if flagIsActive (flags st) FLAG_STRIP_UNLIKELYS
    then retry FLAG_STRIP_UNLIKELYS
    else if flagIsActive (flags st) FLAG_WEIGHT_CLASSES
    then retry FLAG_WEIGHT_CLASSES
    else if flagIsActive (flags st) FLAG_CLEAN_CONDITIONALLY
    then retry FLAG_CLEAN_CONDITIONALLY
    else
      let sorted := sortAttempts (attempts st ++ [attempt]) in
      let st' := {| flags := flags st; attempts := sorted;
                    articleByline := byline b;
                    articleDir := articleDir st;
                    articleLang := lang b;
                    passes := passes st |} in
      match sorted with
      | best :: _ =>
          if (textLength best =? 0)%Z then Some (st', doc', None)
          else succeed st' {| document := doc';
                              content := content b;
                              neededToCreateTopCandidate :=
                                neededToCreateTopCandidate b;
                              topCandidate := topCandidate b;
                              dirChain := dirChain b;
                              byline := byline b;
                              lang := lang b |}
                 (articleContent best)
      | [] => Some (st', doc', None)
      end
  else succeed st b article.

(** The loop of [grabArticle]; [None] when [fuel] turns were not enough. *)
Fixpoint grabLoop (fuel : nat) (st : State) (doc : node)
  : option (State * node * option node) :=
  match fuel with
  | O => None
  | S fuel' => turn (grabLoop fuel') st doc
  end.
End Loop.

Section GrabArticle.
Variable build : Z -> option str -> option str -> node -> Built.
Variable bodyHtml : node -> option str.
Variable setBodyHtml : option str -> node -> node.
Variable options : Options.
Variable articleTitle : option str.

(** [grabArticle()] with a bound on the turns of its loop. *)
Definition grabArticle (fuel : nat) (st : State) (doc : node)
  : option (State * node * option node) :=
  grabLoop build setBodyHtml options articleTitle (bodyHtml doc) fuel st doc.
End GrabArticle.

End Grab.

(** ** [parse] *)

Module Parse.

Import Readability TextUtils Metadata PostProcess Grab.

(** The object [parse] returns. *)
Record ReadabilityResult := {
  r_title : option str;
  r_byline : option str;
  r_dir : option str;
  r_lang : option str;
  r_content : option str;
  r_textContent : option str;
  r_length : option Z;
  r_excerpt : option str;
  r_siteName : option str;
  r_publishedTime : option str
}.

Inductive error :=
| Aborting (message : str)
| InvalidURL.

(** How a call of [parse] ends; [OutOfFuel] stands for a retry loop that
    has not finished within the turns it was given. *)
Inductive outcome :=
| Returned (result : ReadabilityResult)
| Thrown (e : error)
| OutOfFuel.

(** What a call site binds to the only parameter of [removeComments]:
    the root of the document, [$.root()[0]], or the cheerio function [$]
    itself, an object without a [type] property. *)
Inductive removeCommentsArgument :=
| TheRoot
| TheCheerioAPI.

(** [removeComments(node)] (dom.ts) by the [type] of what it is given: on
    a root or an element of type [tag] the comments, directives and CDATA
    sections below go away; [$] has no [type], neither branch is taken
    and the document is left as it is. *)
Definition removeComments (argument : removeCommentsArgument) (doc : node)
  : node :=
  match argument with
  | TheRoot => removeCommentsBelow doc
  | TheCheerioAPI => doc
  end.

Definition always (_ : list node) (_ : node) : bool := true.

Section Prepass.
(** The body of [$('br').each(...)] in [replaceBrs], run on the current
    document for the [i]-th [br] of the collection. *)
Variable replaceBr : node -> nat -> node.

(** [replaceBrs($)] *)
Definition replaceBrs (doc : node) : node :=
  fold_left replaceBr (seq 0 (List.length (find [lit "br"] doc))) doc.

(** The statements of [parse] between [if (this.options.extraction)] and
    the call of [grabArticle].  [removeComments(this.$, this.$.root()[0])]
    binds [$] to the only parameter; the root is the surplus argument. *)
Definition removals (doc : node) : node :=
  let doc := removeComments TheCheerioAPI doc in
  let doc := removeNodesBelow (tagIn [lit "script"; lit "noscript"])
               always [] doc in
  removeNodesBelow (tagIn [lit "style"]) always [] doc.

Definition prepass (doc : node) : node :=
  renameBelow [lit "font"] (lit "span") (replaceBrs (removals doc)).
End Prepass.

(** Is there a comment, a directive or a CDATA section in the tree? *)
Fixpoint hasCommentLike (n : node) : bool :=
  match n with
  | Element _ _ _ _ cs | Root cs => existsb hasCommentLike cs
  | Comment _ | Directive _ | CDATA _ => true
  | Text _ => false
  end.

Section ParseMethod.
Variable getJSONLD : node -> Metadata.
Variable getArticleTitle : node -> str.
Variable replaceBr : node -> nat -> node.
Variable build : Z -> option str -> option str -> node -> Built.
Variable bodyHtml : node -> option str.
Variable setBodyHtml : option str -> node -> node.
Variable newURL : str -> str -> option str.
Variable parseHTML : str -> list node.
Variable loadBaseURI : option str.
Variable rewriteSrcset : str -> str -> option str.
Variable options : Options.

(** ['Aborting parsing document; ' + numTags + ' elements found'] *)
Definition abortMessage (numTags : Z) : str :=
  lit "Aborting parsing document; " ++ decimal (Z.to_N numTags)
  ++ lit " elements found".

(** [this.$('*').length] *)
Definition numTags (doc : node) : Z :=
  Z.of_nat (List.length (descendants doc)).

(** The part of [parse] after the size check, on a new instance. *)
Definition parseBody (doc : node) : outcome :=
  let jsonLd := if disableJSONLD options then emptyMetadata
                else getJSONLD doc in
  let metadata := getArticleMetadata getArticleTitle doc jsonLd in
  let articleTitle := orElse (Metadata.title metadata) None in
  let extracted : option (State * option (option node)) :=
    if extraction options
    then
      match grabArticle build bodyHtml setBodyHtml options articleTitle 4
              initialState (prepass replaceBr doc) with
      | Some (st, _, articleContent) =>
          Some (st, postProcessContent newURL parseHTML loadBaseURI
                      rewriteSrcset options articleContent)
      | None => None
      end
    else Some (initialState, Some None) in
  match extracted with
  | None => OutOfFuel
  | Some (_, None) => Thrown InvalidURL
  | Some (st, Some articleContent) =>
      let excerpt1 :=
        if negb (someTruthy (Metadata.excerpt metadata))
        then match articleContent with
             | Some content =>
                 match find [lit "p"] content with
                 | first :: _ => Some (trim (Dom.textContent first))
                 | [] => Metadata.excerpt metadata
                 end
             | None => Metadata.excerpt metadata
             end
        else Metadata.excerpt metadata in
      let textContent :=
        match articleContent with
        | Some content =>
            if truthy (Dom.textContent content)
            then Some (Dom.textContent content) else None
        | None => None
        end in
      Returned
        {| r_title := articleTitle;
           r_byline := orElse (Metadata.byline metadata) (articleByline st);
           r_dir := articleDir st;
           r_lang := articleLang st;
           r_content := serializer options articleContent;
           r_textContent := textContent;
           r_length := option_map len textContent;
           r_excerpt := orElse excerpt1 None;
           r_siteName := orElse (Metadata.siteName metadata) None;
           r_publishedTime := orElse (Metadata.publishedTime metadata) None |}
  end.

(** [parse()] *)
Definition parse (doc : node) : outcome :=
  if (0 <? maxElemsToParse options)%Z
     && (maxElemsToParse options <? numTags doc)%Z
  then Thrown (Aborting (abortMessage (numTags doc)))
  else parseBody doc.
End ParseMethod.

End Parse.

(** ** ancestors.ts: [getNodeAncestors] *)

Module NodeAncestors.

(** [getNodeAncestors(node, maxDepth = 0)] over the chain of ancestors of
    [node], nearest first ([null] has no chain and gives the empty
    array); [i] is the loop counter, which [++i] moves only when
    [maxDepth] is not zero. *)
Fixpoint getNodeAncestorsFrom (i : Z) (chain : list node) (maxDepth : Z)
  : list node :=
  match chain with
  | [] => []
  | parentNode :: rest =>
      parentNode
        :: (if (maxDepth =? 0)%Z then getNodeAncestorsFrom i rest maxDepth
            else if (i + 1 =? maxDepth)%Z then []
            else getNodeAncestorsFrom (i + 1) rest maxDepth)
  end.

Definition getNodeAncestors := getNodeAncestorsFrom 0.

End NodeAncestors.

(** ** utils.ts: [hasChildBlockElement] *)

Module BlockElements.

(** [hasChildBlockElement(element)] on an element: only children of type
    [tag] count and are entered. *)
Fixpoint hasChildBlockElement (element : node) : bool :=
  match element with
  | Element _ _ _ _ cs =>
      existsb (fun n =>
                 match n with
                 | Element TagType _ _ _ _ =>
                     tagIn DIV_TO_P_ELEMS n || hasChildBlockElement n
                 | _ => false
                 end) cs
  | _ => false
  end.

End BlockElements.

(** ** cleanStyles.ts *)

Module Styles.

Definition PRESENTATIONAL_ATTRIBUTES : list str :=
  map lit ["align"; "background"; "bgcolor"; "border"; "cellpadding";
           "cellspacing"; "frame"; "hspace"; "rules"; "style"; "valign";
           "vspace"]%string.

Definition DEPRECATED_SIZE_ATTRIBUTE_ELEMS : list str :=
  map lit ["table"; "th"; "td"; "hr"; "pre"]%string.

(** The [delete el.attribs[...]] statements on an element named [t]. *)
Definition stripPresentation (t : str) (a : list (str * str))
  : list (str * str) :=
  let a1 :=
    fold_left (fun acc name => removeAttr name acc)
      PRESENTATIONAL_ATTRIBUTES a in
  if mem t DEPRECATED_SIZE_ATTRIBUTE_ELEMS then a1
  else removeAttr (lit "height") (removeAttr (lit "width") a1).

(** [cleanStyles(el)]: nothing happens at an [svg] element; below, the
    loop runs on the children of type [tag]. *)
Fixpoint cleanStyles (el : node) : node :=
  match el with
  | Element ty t a d cs =>
      if JsString.eqb t (lit "svg") then el
      else
        Element ty t (stripPresentation t a) d
          (map (fun cur => if typeIsTag cur then cleanStyles cur else cur) cs)
  | _ => el
  end.

End Styles.

(** ** The [Readability] class: scores and the unconditional cleaning *)

Module Scoring.

Import Readability.

(** The [switch] of [addContentScore] on the tag name. *)
Definition tagScore (t : str) : Z :=
  if mem t [lit "div"] then 5
  else if mem t (map lit ["pre"; "td"; "blockquote"]%string) then 3
  else if mem t (map lit ["address"; "ol"; "ul"; "dl"; "dd"; "dt"; "li";
                          "form"]%string) then -3
  else if mem t (map lit ["h1"; "h2"; "h3"; "h4"; "h5"; "h6";
                          "th"]%string) then -5
  else 0.

(** [addContentScore(element)]: [contentScore] is the score the element
    carries already, if any; the answer is the score it carries
    afterwards. *)
Definition addContentScore (flags : Z) (contentScore : option Z)
  (element : node) : Z :=
  match contentScore with
  | Some score => score
  | None =>
      (match tagName element with
       | Some t => tagScore t
       | None => 0
       end + getClassWeight flags element)%Z
  end.

Section Clean.
(** [$node.html()], cheerio's serializer of the inside of an element; the
    options and the flags of the instance. *)
Variable html : node -> option str.
Variable options : Options.
Variable flags : Z.

(** [clean($el, tag)] *)
Definition clean (ancestors : list node) (el : node) (tag : str) : node :=
  let isEmbed := mem tag (map lit ["object"; "embed"; "iframe"]%string) in
  removeNodesBelow (tagIs tag)
    (fun _ node => if isEmbed then negb (isAllowedVideo html options node)
                   else true)
    ancestors el.

(** [cleanHeaders($el)] *)
Definition cleanHeaders (ancestors : list node) (el : node) : node :=
  removeNodesBelow (tagIn [lit "h1"; lit "h2"])
    (fun _ node => (getClassWeight flags node <? 0)%Z)
    ancestors el.
End Clean.

End Scoring.

(** ** regexes.ts and textUtils.ts: white space and words *)

Module Words.

Import TextUtils.

(** [/^\s*$/] *)
Definition whitespace : re := seqs [Bol; Star any_s; Eol].

(** [wordCount(str)]: [str.split(/\s+/).length] *)
Definition wordCount (s : str) : Z :=
  Z.of_nat (List.length (split (plus any_s) s)).

(** [isWhitespace($element)] *)
Definition isWhitespace (element : node) : bool :=
  (len (getInnerText element true) =? 0)%Z || tagIs (lit "br") element.

(** [isValidByline(byline)] *)
Definition isValidByline (byline : str) : bool :=
  let length := len (trim byline) in
  (0 <? length)%Z && (length <? 100)%Z.

(** [nextNode(node)] (dom.ts).  A node is given as the list of itself and
    its next siblings, [null] as the empty list; the answer is given the
    same way. *)
Fixpoint nextNode (siblings : list node) : list node :=
  match siblings with
  | Text data :: rest =>
      if test whitespace data then nextNode rest else siblings
  | _ => siblings
  end.

End Words.

(** ** Shapes of strings, used to state what the text utilities return *)

Module Shapes.

(** What is left of a string after its longest prefix in a class. *)
Fixpoint dropWhile (p : N -> bool) (s : str) : str :=
  match s with
  | c :: s' => if p c then dropWhile p s' else s
  | [] => []
  end.

(** The first code unit, if there is one, is not white space. *)
Definition headNotSpace (s : str) : bool :=
  match s with
  | c :: _ => negb (is_space c)
  | [] => true
  end.

(** No two white-space code units side by side. *)
Fixpoint noAdjacentSpaces (s : str) : bool :=
  match s with
  | a :: t =>
      match t with
      | b :: _ => negb (is_space a && is_space b) && noAdjacentSpaces t
      | [] => true
      end
  | [] => true
  end.

(** The number of maximal runs of white space; [inRun] says that the code
    unit before was white space. *)
Fixpoint spaceRuns (inRun : bool) (s : str) : nat :=
  match s with
  | c :: s' =>
      if is_space c
      then (if inRun then 0 else 1) + spaceRuns true s'
      else spaceRuns false s'
  | [] => 0
  end.

(** A comment, a directive or a CDATA section in the part of a tree that
    [removeComments] goes through: below the root and below elements of
    type [tag]. *)
Fixpoint commentLeft (n : node) : bool :=
  match n with
  | Element TagType _ _ _ cs | Root cs => existsb commentLeft cs
  | Element _ _ _ _ _ | Text _ => false
  | Comment _ | Directive _ | CDATA _ => true
  end.

End Shapes.

(** ** isPhrasingContent.ts *)

Module Phrasing.

Definition PHRASING_ELEMS : list str :=
  map lit ["abbr"; "audio"; "b"; "bdo"; "br"; "button"; "cite"; "code";
           "data"; "datalist"; "dfn"; "em"; "embed"; "i"; "img"; "input";
           "kbd"; "label"; "mark"; "math"; "meter"; "noscript"; "object";
           "output"; "progress"; "q"; "ruby"; "samp"; "script"; "select";
           "small"; "span"; "strong"; "sub"; "sup"; "textarea"; "time";
           "var"; "wbr"]%string.

Definition PARENT_PHRASING_ELEMS : list str :=
  map lit ["a"; "del"; "ins"]%string.

(** [isPhrasingContent(node)] *)
Fixpoint isPhrasingContent (n : node) : bool :=
  match n with
  | Text _ => true
  | Element TagType t _ _ cs =>
      mem t PHRASING_ELEMS
      || (mem t PARENT_PHRASING_ELEMS && forallb isPhrasingContent cs)
  | _ => false
  end.

End Phrasing.

(** ** utils/simplifyDivs.ts *)

Module SimplifyDivs.

Import Words Phrasing.

(** [$('<p></p>')] with the nodes appended to it so far. *)
Definition paragraph (kids : list node) : node :=
  mkElement (lit "p") [] kids.

(** The loop of [simplifyDivs] over the children that are left, from
    [childNode] on; [p] holds the children of [$p] while [$p] is not
    [null].  The answer is what stands in the place of these children
    afterwards, the open paragraph first.  [None]: the inner loop does not
    end.  Its condition is about [$p.last()], which is [$p] itself, and
    [$lastChild.remove()] changes neither the length of [$lastChild] nor
    its text, so once the condition holds it holds for ever. *)
Fixpoint simplifyLoop (p : option (list node)) (cs : list node)
  : option (list node) :=
  match cs with
  | [] =>
      match p with
      | Some kids => Some [paragraph kids]
      | None => Some []
      end
  | childNode :: rest =>
      if isPhrasingContent childNode
      then
        match p with
        | Some kids => simplifyLoop (Some (kids ++ [childNode])) rest
        | None =>
            if negb (isWhitespace childNode)
            then simplifyLoop (Some [childNode]) rest
            else option_map (cons childNode) (simplifyLoop None rest)
        end
      else
        match p with
        | Some kids =>
            if isWhitespace (paragraph kids) then None
            else option_map (fun after => paragraph kids :: childNode :: after)
                   (simplifyLoop None rest)
        | None => option_map (cons childNode) (simplifyLoop None rest)
        end
  end.

(** [simplifyDivs($, node)] *)
Definition simplifyDivs (element : node) : option node :=
  match element with
  | Element ty t a d cs =>
      option_map (Element ty t a d) (simplifyLoop None cs)
  | _ => Some element
  end.

End SimplifyDivs.

(** ** Segments: how to say what [simplifyDivs] makes of a list of
    children *)

Module Segments.

Import Words Phrasing SimplifyDivs.

(** A child left where it was, or a run of children wrapped in a new
    paragraph. *)
Definition segment : Type := (node + list node)%type.

Definition nodesOf (i : segment) : list node :=
  match i with inl n => [n] | inr kids => kids end.

Definition rendered (i : segment) : node :=
  match i with inl n => n | inr kids => paragraph kids end.

(** A child is left alone when it is not phrasing content or is white
    space; a paragraph starts with phrasing content that is not white
    space and holds phrasing content only. *)
Definition wellShaped (i : segment) : Prop :=
  match i with
  | inl n => isPhrasingContent n = false \/ isWhitespace n = true
  | inr kids =>
      exists c more,
        kids = c :: more /\ isPhrasingContent c = true
        /\ isWhitespace c = false /\ forallb isPhrasingContent more = true
  end.

(** Nothing, or a child that is not phrasing content, comes first. *)
Definition stopsAtBlock (items : list segment) : Prop :=
  match items with
  | [] => True
  | inl n :: _ => isPhrasingContent n = false
  | inr _ :: _ => False
  end.

(** Every paragraph runs up to the next child that is not phrasing
    content, or to the end. *)
Fixpoint paragraphsAreMaximal (items : list segment) : Prop :=
  match items with
  | [] => True
  | inl _ :: rest => paragraphsAreMaximal rest
  | inr _ :: rest => stopsAtBlock rest /\ paragraphsAreMaximal rest
  end.

End Segments.

(** ** dom.ts: [getNextNode]

    An element of a document is named by its position: its index among
    the element children of its parent, then the parent's index, and so on
    up to an element that hangs under the root of the document.  cheerio's
    [children()], [next()] and [parent()] see elements only, and
    [parent()] is empty for an element under the root. *)

Module Walk.

Definition position : Type := list nat.

(** The element reached from [top] by the indices of [path], outermost
    first. *)
Fixpoint subAt (top : node) (path : list nat) : option node :=
  match path with
  | [] => Some top
  | i :: path' =>
      match nth_error (elementChildren top) i with
      | Some c => subAt c path'
      | None => None
      end
  end.

Definition nodeAt (doc : node) (pos : position) : option node :=
  subAt doc (rev pos).

(** [$node.children().first()] *)
Definition firstChild (doc : node) (pos : position) : option position :=
  match nodeAt doc pos with
  | Some n =>
      match elementChildren n with
      | _ :: _ => Some (0%nat :: pos)
      | [] => None
      end
  | None => None
  end.

(** [$node.next()] *)
Definition next (doc : node) (pos : position) : option position :=
  match pos with
  | i :: up =>
      match nodeAt doc (S i :: up) with
      | Some _ => Some (S i :: up)
      | None => None
      end
  | [] => None
  end.

(** The loop over [$parent], which starts at the position given; the
    empty position stands for the empty collection that [parent()] gives
    for an element under the root. *)
Fixpoint climb (doc : node) (parent : position) : option position :=
  match parent with
  | [] => None
  | _ :: up =>
      match next doc parent with
      | Some q => Some q
      | None => climb doc up
      end
  end.

(** [getNextNode($node, ignoreSelfAndKids = false)]; [None] is [null]. *)
Definition getNextNode (doc : node) (pos : position)
  (ignoreSelfAndKids : bool) : option position :=
  match (if ignoreSelfAndKids then None else firstChild doc pos) with
  | Some q => Some q
  | None =>
      match next doc pos with
      | Some q => Some q
      | None => climb doc (tl pos)
      end
  end.

(** The positions of the elements below a node in document order. *)
Section WalkChildren.
Variable walk : node -> position -> list position.
Variable base : position.

Fixpoint walkChildren (cs : list node) (i : nat) : list position :=
  match cs with
  | [] => []
  | c :: cs' =>
      match c with
      | Element _ _ _ _ _ =>
          ((i :: base) :: walk c (i :: base)) ++ walkChildren cs' (S i)
      | _ => walkChildren cs' i
      end
  end.
End WalkChildren.

Fixpoint walk (n : node) (pos : position) : list position :=
  match n with
  | Element _ _ _ _ cs | Root cs => walkChildren walk pos cs 0
  | _ => []
  end.

End Walk.

(** ** byline.ts and [checkByline] *)

Module Byline.

Import TextUtils Words.

(** [/byline|author|dateline|writtenby|p-author/i], which [regexes.ts]
    exports as [byline] and [byline.ts] repeats as [MATCH_ID_AND_CLASS]. *)
Definition byline : re :=
  alts (map (fun w => word_i (lit w))
          ["byline"; "author"; "dateline"; "writtenby"; "p-author"]%string).

Definition MATCH_ID_AND_CLASS : re := byline.

(** [$node.attr('rel') === 'author'] *)
Definition isAuthor (n : node) : bool :=
  match attr n (lit "rel") with
  | Some rel => JsString.eqb rel (lit "author")
  | None => false
  end.

(** [$node.attr('itemprop')?.includes('author')] as a truth value *)
Definition hasAuthorItemprop (n : node) : bool :=
  match attr n (lit "itemprop") with
  | Some itemprop => includes itemprop (lit "author")
  | None => false
  end.

(** [extractByline($node, matchString)]; [None] is [undefined]. *)
Definition extractByline (n : node) (matchString : str) : option str :=
  let text := getInnerText n true in
  if negb (isValidByline (textContent n)) then None
  else if isAuthor n then Some text
  else if hasAuthorItemprop n then Some text
  else if test MATCH_ID_AND_CLASS matchString then Some text
  else None.

(** [checkByline($node, matchString)] of the [Readability] class:
    [articleByline] is the field before the call; the answer is the
    value returned and the field afterwards. *)
Definition checkByline (articleByline : option str) (n : node)
  (matchString : str) : bool * option str :=
  if Metadata.someTruthy articleByline then (false, articleByline)
  else if (isAuthor n || hasAuthorItemprop n || test byline matchString)
          && isValidByline (textContent n)
  then (true, Some (getInnerText n true))
  else (false, articleByline).

End Byline.

(** ** The [Readability] class: [headerDuplicatesTitle] *)

Module Headers.

Import TextUtils.

(** [headerDuplicatesTitle($el)]; [articleTitle] is the field of the
    instance. *)
Definition headerDuplicatesTitle (articleTitle : option str) (el : node)
  : bool :=
  if negb (tagIn [lit "h1"; lit "h2"] el) then false
  else
    let heading := getInnerText el false in
    match articleTitle with
    | Some title =>
        if truthy title
        then (0.75 <? textSimilarity title heading)%float
        else false
    | None => false
    end.

End Headers.
(** ** Concrete documents used below *)

Module Examples.

Import Readability.

Definition el (name : string) (attribs : list (string * string))
  (children : list node) : node :=
  mkElement (lit name) (map (fun kv => (lit (fst kv), lit (snd kv))) attribs)
    children.

Definition txt (s : string) : node := Text (lit s).

(** A serializer for inputs on which [$el.html()] is never reached. *)
Definition htmlUnused (_ : node) : option str := None.

(** [<div><a href="#">x</a>y</div>] *)
Definition bareHashLink : node :=
  el "div" [] [el "a" [("href", "#")] [txt "x"]; txt "y"]%string.

(** [<div><a href="#top">x</a>y</div>] *)
Definition fragmentLink : node :=
  el "div" [] [el "a" [("href", "#top")] [txt "x"]; txt "y"]%string.

Definition row (cells : nat) : node :=
  el "tr" [] (repeat (el "td" [] [txt "x"]) cells).

(** A table of 12 rows and 2 columns with [role="presentation"]. *)
Definition presentationTable : node :=
  el "table" [("role", "presentation")]%string
    [el "tbody" [] (repeat (row 2) 12)].

(** A table of 12 rows and 1 column. *)
Definition twelveByOne : node :=
  el "table" [] [el "tbody" [] (repeat (row 1) 12)].

(** [<table><caption><span>t</span></caption>...</table>], one row, one
    column. *)
Definition captionTable : node :=
  el "table" []
    [el "caption" [] [el "span" [] [txt "t"]]; el "tbody" [] [row 1]].



(** [<div><table summary="s"><tbody><tr><td>ad</td></tr></tbody></table></div>]
    after [markDataTables]: the summary makes the table a data table. *)
Definition adInDataTable : node :=
  markDataTables
    (el "div" []
       [el "table" [("summary", "s")]%string
          [el "tbody" [] [el "tr" [] [el "td" [] [txt "ad"]]]]]).

(** [<div> Werbung </div>] *)
Definition werbung : node := el "div" [] [txt " Werbung "].

(** What cheerio's [load] makes of [<html><div>yo</div></html>]. *)
Definition yoDocument : node :=
  Root [el "html" [] [el "head" [] []; el "body" [] [el "div" [] [txt "yo"]]]].

(** [DEFAULT_OPTIONS] with [maxElemsToParse] set. *)
Definition optionsWithLimit (limit : Z) : Options := {|
  debug := false;
  maxElemsToParse := limit;
  nbTopCandidates := 5;
  charThreshold := DEFAULT_CHAR_THRESHOLD;
  keepClasses := false;
  classesToPreserve := CLASSES_TO_PRESERVE;
  serializer := serializer (DEFAULT_OPTIONS htmlUnused);
  disableJSONLD := false;
  allowedVideoRegex := test Regexes.videos;
  linkDensityModifier := 0%float;
  extraction := true;
  baseURI := None
|}.

(** [{ extraction: false, disableJSONLD: true }] over the defaults. *)
Definition metadataOnlyOptions : Options := {|
  debug := false;
  maxElemsToParse := 0;
  nbTopCandidates := 5;
  charThreshold := DEFAULT_CHAR_THRESHOLD;
  keepClasses := false;
  classesToPreserve := CLASSES_TO_PRESERVE;
  serializer := serializer (DEFAULT_OPTIONS htmlUnused);
  disableJSONLD := true;
  allowedVideoRegex := test Regexes.videos;
  linkDensityModifier := 0%float;
  extraction := false;
  baseURI := None
|}.


(** [<html><head><meta name="description" content="Hello"></head><body></body></html>] *)
Definition describedDocument : node :=
  Root [el "html" []
          [el "head" []
             [el "meta" [("name", "description"); ("content", "Hello")]%string
                []];
           el "body" [] []]].

(** [<!doctype html><html><head><script>x</script></head><body><!-- c --><p>x</p></body></html>] *)
Definition commentedDocument : node :=
  Root [Directive (lit "!doctype html");
        el "html" []
          [el "head" [] [el "script" [] [txt "x"]];
           el "body" [] [Comment (lit " c "); el "p" [] [txt "x"]]]].

(** A turn of the loop that found a real top candidate and collected
    [<p>Hello</p>]. *)
Definition helloBuilt : Grab.Built := {|
  Grab.document := yoDocument;
  Grab.content := el "div" [] [el "p" [] [txt "Hello"]];
  Grab.neededToCreateTopCandidate := false;
  Grab.topCandidate := None;
  Grab.dirChain := [];
  Grab.byline := None;
  Grab.lang := None
|}.

(** Hosts for inputs without links, media or markup in link texts. *)
Definition urlUnused (_ _ : str) : option str := None.
Definition parseUnused (_ : str) : list node := [].

(** Stand-ins for the parts of a run that the inputs above do not reach:
    no JSON-LD, an empty [<title>], no [<br>], a serializer and a parser
    for the body snapshot that give nothing back. *)
Definition noJSONLD (_ : node) : Metadata.Metadata := Metadata.emptyMetadata.
Definition emptyTitle (_ : node) : str := [].
Definition brUnused (doc : node) (_ : nat) : node := doc.
Definition buildHello (_ : Z) (_ _ : option str) (_ : node) : Grab.Built :=
  helloBuilt.
Definition bodyHtmlUnused (_ : node) : option str := None.
Definition setBodyHtmlUnused (_ : option str) (doc : node) : node := doc.

End Examples.

(** ** The documents of the repository's test of [simplifyDivs] *)

Module MoreExamples.

(** [<div id="content">Some text<span>Inline text</span>More text<div>Block content</div>Even more text</div>] *)
Definition mixedContent : node :=
  Examples.el "div" [("id", "content")]%string
    [Examples.txt "Some text";
     Examples.el "span" [] [Examples.txt "Inline text"];
     Examples.txt "More text";
     Examples.el "div" [] [Examples.txt "Block content"];
     Examples.txt "Even more text"].

(** [<div id="content"><span>Inline text</span><span>  </span><span>More text</span></div>] *)
Definition inlineOnly : node :=
  Examples.el "div" [("id", "content")]%string
    [Examples.el "span" [] [Examples.txt "Inline text"];
     Examples.el "span" [] [Examples.txt "  "];
     Examples.el "span" [] [Examples.txt "More text"]].

End MoreExamples.

(** * Properties *)

Import TextUtils Readability.

(** ** Strings and the matcher *)

Lemma str_eqb_eq (a b : str) : JsString.eqb a b = true <-> a = b.
Proof.
  revert b; induction a as [|x a IH]; destruct b as [|y b]; simpl;
    try (split; congruence).
  rewrite andb_true_iff, N.eqb_eq, IH. split.
  - intros [-> ->]; reflexivity.
  - intros E; injection E; auto.
Qed.

Lemma str_eqb_refl (a : str) : JsString.eqb a a = true.
Proof. apply str_eqb_eq; reflexivity. Qed.

(** A star whose continuation cannot fail cannot fail. *)
Lemma star_loop_total body k n s :
  (forall s', k s' <> None) -> star_loop body k n s <> None.
Proof.
  intros Hk. destruct n as [|n]; simpl.
  - apply Hk.
  - destruct (body s _); [discriminate | apply Hk].
Qed.

(** A pattern that starts with [^] matches nowhere past the start. *)
Lemma exec_from_bol_later total r skipped s :
  (List.length s < total)%nat ->
  exec_from total (Seq Bol r) skipped s = None.
Proof.
  revert skipped. induction s as [|c s IH]; intros skipped Hlt.
  - assert (E : (List.length (@nil N) =? total)%nat = false)
      by (apply Nat.eqb_neq; lia).
    cbn [exec_from]. unfold match_here. cbn [bt]. rewrite E. reflexivity.
  - assert (E : (List.length (c :: s) =? total)%nat = false)
      by (apply Nat.eqb_neq; lia).
    cbn [exec_from]. unfold match_here. cbn [bt]. rewrite E.
    apply IH. simpl in Hlt. lia.
Qed.

(** [hashUrl] holds of the strings that start with [#] and go on with a
    code unit that is not a line terminator. *)
Lemma hashUrl_here (s : str) :
  match match_here (List.length s) Regexes.hashUrl s with
  | Some _ => true
  | None => false
  end = Regexes.isHashFragment s.
Proof.
  unfold match_here, Regexes.hashUrl, chr, dot. cbn [seqs plus bt].
  rewrite Nat.eqb_refl.
  destruct s as [|c0 s1]; [reflexivity|].
  unfold Regexes.isHashFragment.
  destruct (N.eqb_spec 35 c0) as [<-|Hne].
  - destruct s1 as [|c1 s2]; [reflexivity|].
    destruct (is_line_terminator c1); cbn [negb]; [reflexivity|].
    match goal with
    | |- match ?x with _ => _ end = _ => destruct x eqn:E
    end; [reflexivity|].
    exfalso. revert E. apply star_loop_total. discriminate.
  - destruct c0 as [|p]; [reflexivity|].
    do 6 (destruct p as [p|p|]; try reflexivity).
    congruence.
Qed.

(** [hashUrl] matches exactly the strings that are [#] followed by a
    character other than a line terminator. *)
Lemma hashUrl_test (s : str) :
  test Regexes.hashUrl s = Regexes.isHashFragment s.
Proof.
  rewrite <- hashUrl_here. unfold test, exec.
  destruct s as [|c s]; cbn [exec_from].
  - destruct (match_here _ _ _); reflexivity.
  - destruct (match_here _ _ _); [reflexivity|].
    unfold Regexes.hashUrl. cbn [seqs].
    rewrite exec_from_bol_later by (simpl; lia). reflexivity.
Qed.

(** ** textSimilarity *)

(** C9, as stated: the similarity of "Breaking News: Foo Wins" and
    "Foo Wins" is not near 0.57.  Both tokens of the second text occur in
    the first, so the result is 1, more than 0.4 away from 0.57. *)
Lemma textSimilarity_breaking_news_is_not_0_57 :
  textSimilarity (lit "Breaking News: Foo Wins") (lit "Foo Wins") = 1%float
  /\ (PrimFloat.abs
        (textSimilarity (lit "Breaking News: Foo Wins") (lit "Foo Wins")
         - 0.57) <? 0.4)%float = false.
Proof. split; vm_compute; reflexivity. Qed.

(** C9, amended: both texts are cut into lower-case tokens at [\W+]; the
    tokens of "Foo Wins" are "foo" and "wins", none of them is missing from
    the tokens of "Breaking News: Foo Wins", and the similarity, one minus
    the joined length of the missing tokens over the joined length of all of
    the second text's tokens, is exactly 1. *)
Theorem textSimilarity_breaking_news :
  tokens (lit "Breaking News: Foo Wins")
    = map lit ["breaking"; "news"; "foo"; "wins"]%string
  /\ tokens (lit "Foo Wins") = map lit ["foo"; "wins"]%string
  /\ filter (fun token =>
               negb (mem token (tokens (lit "Breaking News: Foo Wins"))))
       (tokens (lit "Foo Wins")) = []
  /\ textSimilarity (lit "Breaking News: Foo Wins") (lit "Foo Wins")
     = (1 - num 0 / num (len (join (lit " ") (tokens (lit "Foo Wins")))))%float
  /\ textSimilarity (lit "Breaking News: Foo Wins") (lit "Foo Wins") = 1%float.
Proof. repeat split; vm_compute; reflexivity. Qed.

(** ** getLinkDensity *)

Lemma coefficient_hash (a : node) :
  coefficient a =
    match attr a (lit "href") with
    | Some href => if Regexes.isHashFragment href then f0_3 else 1%float
    | None => 1%float
    end.
Proof.
  unfold coefficient. destruct (attr a (lit "href")) as [href|]; [|reflexivity].
  rewrite hashUrl_test. destruct href as [|c href]; reflexivity.
Qed.

Lemma fold_left_ext (A B : Type) (f g : A -> B -> A) (l : list B) (a : A) :
  (forall x y, f x y = g x y) -> fold_left f l a = fold_left g l a.
Proof.
  intros E. revert a. induction l as [|y l IH]; intros a; simpl.
  - reflexivity.
  - rewrite E. apply IH.
Qed.

(** C8, as stated: an anchor whose href is exactly "#" does not get the
    weight 0.3.  In [<div><a href="#">x</a>y</div>] the code weighs the
    anchor by 1 and answers 1/2, where the stated formula gives 0.3/2. *)
Lemma linkDensity_bare_hash_weighs_one :
  attr (Examples.el "a" [("href", "#")]%string [Examples.txt "x"])
    (lit "href") = Some (lit "#")
  /\ getLinkDensity Examples.bareHashLink = 0.5%float
  /\ Spec.spec_linkDensity Examples.bareHashLink = (f0_3 / 2)%float
  /\ Spec.spec_linkDensity Examples.bareHashLink
     <> getLinkDensity Examples.bareHashLink.
Proof.
  repeat split; try (vm_compute; reflexivity).
  intros E. apply (f_equal (fun x => PrimFloat.eqb x 0.5)) in E.
  vm_compute in E. discriminate.
Qed.

(** C8, amended: the link density of an element without text is 0;
    otherwise it is the sum, over the anchors below it in document order,
    of the anchor's text length times its weight, divided by the element's
    text length, where the weight is 0.3 when the href is [#] followed by
    at least one code unit, the first of which is not a line terminator,
    and 1 otherwise: a bare "#", an empty or a missing href weigh 1. *)
Theorem getLinkDensity_weighted (element : node) :
  getLinkDensity element =
    if (len (getInnerText element true) =? 0)%Z then 0%float
    else
      (fold_left
         (fun sum a =>
            (sum
             + num (len (getInnerText a true))
               * match attr a (lit "href") with
                 | Some href =>
                     if Regexes.isHashFragment href then f0_3 else 1
                 | None => 1
                 end)%float)
         (find [lit "a"] element) 0%float
       / num (len (getInnerText element true)))%float.
Proof.
  unfold getLinkDensity.
  destruct (len (getInnerText element true) =? 0)%Z; [reflexivity|].
  f_equal. apply fold_left_ext. intros x a. now rewrite coefficient_hash.
Qed.

(** The weights on concrete hrefs. *)
Example coefficient_values :
  coefficient (Examples.el "a" [("href", "#top")]%string []) = f0_3
  /\ coefficient (Examples.el "a" [("href", "#")]%string []) = 1%float
  /\ coefficient (Examples.el "a" [("href", "")]%string []) = 1%float
  /\ coefficient (Examples.el "a" [] []) = 1%float
  /\ coefficient (Examples.el "a" [("href", "/a#b")]%string []) = 1%float
  /\ getLinkDensity Examples.fragmentLink = (f0_3 / 2)%float.
Proof. repeat split; vm_compute; reflexivity. Qed.

(** ** The data-table classifier *)

Lemma role_presentation_iff (table : node) :
  rolePresentation table = true
  <-> attr table (lit "role") = Some (lit "presentation").
Proof.
  unfold rolePresentation. destruct (attr table (lit "role")) as [r|].
  - rewrite str_eqb_eq. split; congruence.
  - split; discriminate.
Qed.

(** C7: a table whose role is "presentation" is marked as not a data
    table; a table that reaches the size rule with exactly one column is
    marked as not a data table however many rows it has, the single-column
    test coming before the test for ten rows; a table that is not
    dismissed by its role or by [datatable="0"] and has an element inside
    a caption is marked as a data table; and [markDataTables] stores these
    verdicts on the three tables of the scenario. *)
Theorem dataTable_classification :
  (forall table,
      attr table (lit "role") = Some (lit "presentation") ->
      dataTableVerdict table = false)
  /\ (forall table rows,
         rolePresentation table = false -> datatableZero table = false ->
         hasSummary table = false -> hasCaptionContent table = false ->
         hasDataDescendant table = false -> hasNestedTable table = false ->
         getRowAndColumnCount table = (rows, 1%Z) ->
         dataTableVerdict table = false)
  /\ (forall table,
         rolePresentation table = false -> datatableZero table = false ->
         hasCaptionContent table = true ->
         dataTableVerdict table = true)
  /\ getRowAndColumnCount Examples.twelveByOne = (12%Z, 1%Z)
  /\ map (fun t => match t with
                   | Element _ _ _ mark _ => mark
                   | _ => None
                   end)
       (childNodes
          (markDataTables
             (Examples.el "div" []
                [Examples.presentationTable; Examples.twelveByOne;
                 Examples.captionTable])))
     = [Some false; Some false; Some true].
Proof.
  split; [|split; [|split; [|split]]].
  - intros table H. apply role_presentation_iff in H.
    unfold dataTableVerdict. now rewrite H.
  - intros table rows H1 H2 H3 H4 H5 H6 H7. unfold dataTableVerdict.
    now rewrite H1, H2, H3, H4, H5, H6, H7.
  - intros table H1 H2 H3. unfold dataTableVerdict.
    rewrite H1, H2, H3. now destruct (hasSummary table).
  - vm_compute. reflexivity.
  - vm_compute. reflexivity.
Qed.

(** The three tables at hand. *)
Lemma dataTable_classification_witness :
  dataTableVerdict Examples.presentationTable = false
  /\ dataTableVerdict Examples.twelveByOne = false
  /\ dataTableVerdict Examples.captionTable = true.
Proof.
  destruct dataTable_classification as (Hrole & Hcolumn & Hcaption & _).
  split; [|split].
  - apply Hrole. reflexivity.
  - apply (Hcolumn _ 12%Z); reflexivity.
  - apply Hcaption; reflexivity.
Defined.

(** Without the role, the 12 by 2 table is a data table: the role decides. *)
Example presentation_role_decides :
  dataTableVerdict
    (Examples.el "table" [] [Examples.el "tbody" [] (repeat (Examples.row 2) 12)])
  = true.
Proof. vm_compute. reflexivity. Qed.

(** ** Conditional cleaning *)




(** C10, as stated: an element whose text is an advertising word can be
    kept although its weight is 0, it has no comma, no embed and no
    ancestor at all.  In
    [<div><table summary="s"><tbody><tr><td>ad</td></tr></tbody></table></div>]
    the table is marked as a data table, and the [div], whose text is
    [ad], is kept because it holds a data table. *)
Lemma adWord_around_dataTable_kept :
  existsb isDataTable (find [lit "table"] Examples.adInDataTable) = true
  /\ getInnerText Examples.adInDataTable true = lit "ad"
  /\ test Regexes.adWords (getInnerText Examples.adInDataTable true) = true
  /\ getClassWeight ALL_FLAGS Examples.adInDataTable = 0%Z
  /\ countCommas (getInnerText Examples.adInDataTable true) = 0%Z
  /\ find (map lit ["object"; "embed"; "iframe"]%string)
       Examples.adInDataTable = []
  /\ flagIsActive ALL_FLAGS FLAG_CLEAN_CONDITIONALLY = true
  /\ cleanConditionallyFilter Examples.htmlUnused
       (DEFAULT_OPTIONS Examples.htmlUnused) ALL_FLAGS (lit "div") []
       Examples.adInDataTable = false.
Proof. repeat split; vm_compute; reflexivity. Qed.

(** C10, amended: the check of [cleanConditionally] removes every element
    whose normalized inner text matches [adWords] or [loadingWords] when
    the element is not a table marked as a data table, has no data-table
    ancestor, no code ancestor within reach, no data table below it, a
    class weight that is not negative, at most 10 commas and no embed let
    through by [allowedVideoRegex]. *)
Theorem adWords_removed
  (html : node -> option str) (options : Options) (flags : Z) (tag : str)
  (ancestors : list node) (node : node) :
  JsString.eqb tag (lit "table") && isDataTable node = false ->
  hasAncestorTag ancestors (lit "table") (-1) isDataTable = false ->
  hasAncestorTag ancestors (lit "code") 3 alwaysTrue = false ->
  existsb isDataTable (find [lit "table"] node) = false ->
  (0 <= getClassWeight flags node)%Z ->
  (countCommas (getInnerText node true) <= 10)%Z ->
  existsb (isAllowedVideo html options)
    (find (map lit ["object"; "embed"; "iframe"]%string) node) = false ->
  test Regexes.adWords (getInnerText node true) = true
  \/ test Regexes.loadingWords (getInnerText node true) = true ->
  cleanConditionallyFilter html options flags tag ancestors node = true.
Proof.
  intros H1 H2 H3 H4 Hw Hc Hv Hword. unfold cleanConditionallyFilter.
  rewrite H1, H2, H3, H4.
  destruct (Z.ltb_spec (getClassWeight flags node + 0) 0); [reflexivity|].
  destruct (Z.ltb_spec 10 (countCommas (getInnerText node true))); [lia|].
  rewrite Hv.
  destruct Hword as [-> | ->]; [reflexivity|].
  now rewrite orb_true_r.
Qed.

(** [<div> Werbung </div>] is removed. *)
Lemma adWords_removed_witness :
  cleanConditionallyFilter Examples.htmlUnused
    (DEFAULT_OPTIONS Examples.htmlUnused) ALL_FLAGS (lit "div") []
    Examples.werbung = true.
Proof.
  apply adWords_removed; try (vm_compute; reflexivity).
  - vm_compute. discriminate.
  - vm_compute. discriminate.
  - left. vm_compute. reflexivity.
Defined.

(** The words the patterns accept and reject. *)
Example adWords_samples :
  map (test Regexes.adWords)
    [lit "ad"; lit "AD"; lit "advertisement"; lit "advertising"; lit "pub";
     lit "Werbung"; [0x5E7F; 0x544A]%N;
     [0x420; 0x435; 0x43A; 0x43B; 0x430; 0x43C; 0x430]%N; lit "Anuncio";
     lit "add"; lit "an ad"; lit "ad."]
  = [true; true; true; true; true; true; true; true; true;
     false; false; false]
  /\ map (test Regexes.loadingWords)
       [lit "loading"; lit "Loading..."; (lit "chargement" ++ [0x2026%N])%list;
        lit "cargando"; lit "loading.."; lit "still loading"]
     = [true; true; true; true; false; false].
Proof. split; vm_compute; reflexivity. Qed.

(** ** The retry loop of [grabArticle] *)

Section GrabProperties.
Import Grab.

Variable build : Z -> option str -> option str -> node -> Built.
Variable bodyHtml : node -> option str.
Variable setBodyHtml : option str -> node -> node.
Variable options : Options.
Variable articleTitle : option str.

Let loop := grabLoop build setBodyHtml options articleTitle.

(** A flag is inactive once removed, and removing it leaves the flags
    outside it as they were. *)
Lemma removeFlag_same (f g : Z) : flagIsActive (removeFlag f g) g = false.
Proof.
  unfold flagIsActive, removeFlag.
  rewrite <- Z.land_assoc, (Z.land_comm (Z.lnot g) g), Z.land_lnot_diag, Z.land_0_r.
  reflexivity.
Qed.

Lemma removeFlag_other (f g h : Z) :
  Z.land (Z.lnot g) h = h ->
  flagIsActive (removeFlag f g) h = flagIsActive f h.
Proof.
  intros E. unfold flagIsActive, removeFlag.
  now rewrite <- Z.land_assoc, E.
Qed.

(** The loop ends within one turn more than the number of active flags. *)
Lemma grabLoop_enough_fuel pageCacheHtml n :
  forall st doc, (rank (flags st) <= n)%nat ->
    loop pageCacheHtml (S n) st doc <> None.
Proof.
  unfold rank.
  induction n as [|n IH]; intros st doc Hr; unfold loop in *;
    cbn [grabLoop]; unfold turn at 1;
    cbn [flags attempts articleByline articleDir articleLang passes].
  - destruct (_ <? _)%Z; [|discriminate].
    destruct (flagIsActive (flags st) FLAG_STRIP_UNLIKELYS); [lia|].
    destruct (flagIsActive (flags st) FLAG_WEIGHT_CLASSES); [lia|].
    destruct (flagIsActive (flags st) FLAG_CLEAN_CONDITIONALLY); [lia|].
    destruct (sortAttempts _) as [|best rest]; [discriminate|].
    destruct (_ =? _)%Z; discriminate.
  - destruct (_ <? _)%Z; [|discriminate].
    destruct (flagIsActive (flags st) FLAG_STRIP_UNLIKELYS) eqn:E1.
    { apply IH. cbn [flags]. rewrite removeFlag_same.
      destruct (flagIsActive _ FLAG_WEIGHT_CLASSES);
        [|destruct (flagIsActive _ FLAG_CLEAN_CONDITIONALLY)]; lia. }
    destruct (flagIsActive (flags st) FLAG_WEIGHT_CLASSES) eqn:E2.
    { apply IH. cbn [flags].
      rewrite removeFlag_other, E1, removeFlag_same by reflexivity.
      destruct (flagIsActive _ FLAG_CLEAN_CONDITIONALLY); lia. }
    destruct (flagIsActive (flags st) FLAG_CLEAN_CONDITIONALLY) eqn:E3.
    { apply IH. cbn [flags].
      rewrite !removeFlag_other, E1, E2, removeFlag_same by reflexivity. lia. }
    destruct (sortAttempts _) as [|best rest]; [discriminate|].
    destruct (_ =? _)%Z; discriminate.
Qed.

Lemma rank_le_3 f : (rank f <= 3)%nat.
Proof. unfold rank. repeat destruct (flagIsActive _ _); lia. Qed.

(** Four turns are enough from any state, whatever its flags. *)
Lemma grabLoop_terminates pageCacheHtml st doc : loop pageCacheHtml 4 st doc <> None.
Proof. apply grabLoop_enough_fuel, rank_le_3. Qed.










End GrabProperties.

(** ** Paging and post-processing *)

Section PostProcessProperties.
Import Grab PostProcess.

Variable newURL : str -> str -> option str.
Variable parseHTML : str -> list node.
Variable loadBaseURI : option str.
Variable rewriteSrcset : str -> str -> option str.
Variable options : Options.






End PostProcessProperties.



(** ** Removing nodes from the tree *)

Import DomUtils Parse.

(** Induction on the tree that reaches the children. *)
Lemma node_induction (P : node -> Prop) :
  (forall ty t a d cs, Forall P cs -> P (Element ty t a d cs)) ->
  (forall data, P (Text data)) ->
  (forall data, P (Comment data)) ->
  (forall data, P (Directive data)) ->
  (forall cs, Forall P cs -> P (CDATA cs)) ->
  (forall cs, Forall P cs -> P (Root cs)) ->
  forall n, P n.
Proof.
  intros HE HT HC HD HCD HR.
  fix IH 1. intros n.
  assert (L : forall cs, Forall P cs).
  { fix IHl 1. intros [|c cs]; constructor; [apply IH | apply IHl]. }
  destruct n as [ty t a d cs|data|data|data|cs|cs];
    [apply HE, L | apply HT | apply HC | apply HD | apply HCD, L
    | apply HR, L].
Qed.

(** Facts on [descendants], [filter] and [tagIn]. *)
Lemma descendants_children n :
  descendants n =
    match n with
    | Element _ _ _ _ cs | Root cs => flat_map withDescendants cs
    | _ => []
    end.
Proof. destruct n; reflexivity. Qed.

Lemma filter_flat_map_nil (A B : Type) (p : B -> bool) (f : A -> list B) l :
  Forall (fun x => filter p (f x) = []) l -> filter p (flat_map f l) = [].
Proof.
  induction 1 as [|x l Hx _ IH]; simpl; [reflexivity|].
  rewrite filter_app, Hx, IH. reflexivity.
Qed.

Lemma tagIn_retag ts ty t a d cs ty' a' d' cs' :
  tagIn ts (Element ty t a d cs) = tagIn ts (Element ty' t a' d' cs').
Proof. reflexivity. Qed.

(** Removal keeps the tag of what it keeps. *)
Lemma removeNodesBelow_tag sel fn up ts n :
  tagIn ts (removeNodesBelow sel fn up n) = tagIn ts n.
Proof. destruct n; reflexivity. Qed.

Section Removal.
Variable ts : list str.

(** After [removeNodes($(ts))] no element with one of the tags is left
    below the node. *)
Lemma removeNodesBelow_gone n :
  forall up, find ts (removeNodesBelow (tagIn ts) always up n) = [].
Proof.
  unfold find.
  induction n as [ty t a d cs IH| | | |cs IH|cs IH] using node_induction;
    intros up; try reflexivity.
  - cbn [removeNodesBelow]. rewrite descendants_children.
    apply filter_flat_map_nil.
    set (up' := Element ty t a d cs :: up). clearbody up'.
    induction IH as [|c cs Hc _ IHcs]; cbn [prune]; [constructor|].
    cbn [always]. rewrite andb_true_r.
    destruct (tagIn ts (removeNodesBelow (tagIn ts) always up' c)) eqn:E;
      [exact IHcs|].
    constructor; [|exact IHcs].
    destruct (removeNodesBelow (tagIn ts) always up' c) eqn:Ec; try reflexivity.
    cbn [withDescendants filter]. rewrite E. rewrite <- Ec. apply Hc.
  - cbn [removeNodesBelow]. rewrite descendants_children.
    apply filter_flat_map_nil.
    set (up' := Root cs :: up). clearbody up'.
    induction IH as [|c cs Hc _ IHcs]; cbn [prune]; [constructor|].
    cbn [always]. rewrite andb_true_r.
    destruct (tagIn ts (removeNodesBelow (tagIn ts) always up' c)) eqn:E;
      [exact IHcs|].
    constructor; [|exact IHcs].
    destruct (removeNodesBelow (tagIn ts) always up' c) eqn:Ec; try reflexivity.
    cbn [withDescendants filter]. rewrite E. rewrite <- Ec. apply Hc.
Qed.
End Removal.

Lemma flat_map_filter_nil (A B : Type) (p : B -> bool) (f : A -> list B) l :
  filter p (flat_map f l) = [] -> Forall (fun x => filter p (f x) = []) l.
Proof.
  induction l as [|x l IH]; simpl; [constructor|].
  rewrite filter_app. intros E. apply app_eq_nil in E. destruct E as [E1 E2].
  constructor; auto.
Qed.

(** Removal does not bring in elements of other tags. *)
Lemma removeNodesBelow_keeps_absent ts sel fn n :
  forall up, find ts n = [] -> find ts (removeNodesBelow sel fn up n) = [].
Proof.
  unfold find.
  assert (Step : forall up' cs,
    Forall (fun n => forall up,
              filter (tagIn ts) (descendants n) = [] ->
              filter (tagIn ts)
                (descendants (removeNodesBelow sel fn up n)) = []) cs ->
    filter (tagIn ts) (flat_map withDescendants cs) = [] ->
    filter (tagIn ts)
      (flat_map withDescendants
         (prune (removeNodesBelow sel fn up')
            (fun c => sel c && fn up' c) cs)) = []).
  { intros up' cs IH H. apply flat_map_filter_nil in H.
    apply filter_flat_map_nil.
    induction IH as [|c cs Hc _ IHcs]; cbn [prune]; [constructor|].
    inversion H as [|? ? Hb Hrest]; subst.
    destruct (sel _ && fn up' _); [exact (IHcs Hrest)|].
    constructor; [|exact (IHcs Hrest)].
    destruct c as [ty t a d ccs| | | | |]; try reflexivity.
    cbn [withDescendants filter] in Hb.
    assert (Et : tagIn ts (Element ty t a d ccs) = false).
    { destruct (tagIn ts (Element ty t a d ccs)); [discriminate|reflexivity]. }
    rewrite Et in Hb.
    specialize (Hc up' Hb). cbn [removeNodesBelow] in Hc |- *.
    cbn [withDescendants filter].
    rewrite (tagIn_retag ts ty t a d _ ty a d ccs), Et. exact Hc. }
  induction n as [ty t a d cs IH| | | |cs IH|cs IH] using node_induction;
    intros up H; try reflexivity.
  - cbn [removeNodesBelow]. rewrite descendants_children in *.
    now apply Step.
  - cbn [removeNodesBelow]. rewrite descendants_children in *.
    now apply Step.
Qed.

Lemma tagIn_app l1 l2 n : tagIn (l1 ++ l2) n = tagIn l1 n || tagIn l2 n.
Proof. unfold tagIn. apply existsb_app. Qed.

Lemma filter_or_nil (A : Type) (p q : A -> bool) l :
  filter p l = [] -> filter q l = [] ->
  filter (fun x => p x || q x) l = [].
Proof.
  induction l as [|x l IH]; simpl; [reflexivity|].
  destruct (p x); [discriminate|]. destruct (q x); [discriminate|].
  exact IH.
Qed.

(** The true half of the pre-pass: once the removals are done no
    [script], [noscript] or [style] element is left in the document. *)
Lemma removals_no_scripts doc :
  find [lit "script"; lit "noscript"; lit "style"] (removals doc) = [].
Proof.
  unfold removals, removeComments.
  change [lit "script"; lit "noscript"; lit "style"]
    with ([lit "script"; lit "noscript"] ++ [lit "style"]).
  unfold find.
  rewrite (filter_ext _ _ (tagIn_app _ _)).
  apply filter_or_nil.
  - apply removeNodesBelow_keeps_absent, removeNodesBelow_gone.
  - apply removeNodesBelow_gone.
Qed.

(** ** Attributes *)

Lemma lookup_setAttr_same name value a :
  lookup name (setAttr name value a) = Some value.
Proof.
  induction a as [|[k v] a IH]; simpl.
  - now rewrite str_eqb_refl.
  - destruct (JsString.eqb k name) eqn:E; simpl; rewrite E; auto.
Qed.

Lemma lookup_setAttr_other name other value a :
  JsString.eqb name other = false ->
  lookup other (setAttr name value a) = lookup other a.
Proof.
  intros Hne. induction a as [|[k v] a IH]; simpl.
  - destruct (JsString.eqb name other); [discriminate|reflexivity].
  - destruct (JsString.eqb k name) eqn:E; simpl.
    + apply str_eqb_eq in E. subst k. now rewrite Hne.
    + destruct (JsString.eqb k other); auto.
Qed.

(** When a top candidate had to be created and it is the child of
    [$articleContent] at position 0, paging leaves the id and the class on
    it. *)
Lemma paging_marks_created_candidate (b : Grab.Built) ty t a d ty' t' a' d' cs rest :
  Grab.neededToCreateTopCandidate b = true ->
  Grab.topCandidate b = Some [0%nat] ->
  Grab.content b = Element ty t a d (Element ty' t' a' d' cs :: rest) ->
  Grab.paging b
    = Element ty t a d (Element ty' t' (Grab.pageAttribs a') d' cs :: rest)
  /\ lookup (lit "id") (Grab.pageAttribs a') = Some Grab.PAGE_ID
  /\ lookup (lit "class") (Grab.pageAttribs a') = Some Grab.PAGE_CLASS.
Proof.
  intros Hn Hp Hc. unfold Grab.paging. rewrite Hn, Hp, Hc.
  split; [reflexivity|]. unfold Grab.pageAttribs. split.
  - rewrite lookup_setAttr_other by reflexivity. apply lookup_setAttr_same.
  - apply lookup_setAttr_same.
Qed.

(** ** [parse]: the size limit, metadata-only runs and the pre-pass *)

Section ParseProperties.
Import Parse Metadata PostProcess Grab.

Variable getJSONLD : node -> Metadata.
Variable getArticleTitle : node -> str.
Variable replaceBr : node -> nat -> node.
Variable build : Z -> option str -> option str -> node -> Built.
Variable bodyHtml : node -> option str.
Variable setBodyHtml : option str -> node -> node.
Variable newURL : str -> str -> option str.
Variable parseHTML : str -> list node.
Variable loadBaseURI : option str.
Variable rewriteSrcset : str -> str -> option str.

Let run := parse getJSONLD getArticleTitle replaceBr build bodyHtml
             setBodyHtml newURL parseHTML loadBaseURI rewriteSrcset.
Let body := parseBody getJSONLD getArticleTitle replaceBr build bodyHtml
              setBodyHtml newURL parseHTML loadBaseURI rewriteSrcset.

(** Past the size check nothing throws the size error. *)
Lemma parseBody_never_aborts options doc message :
  body options doc <> Thrown (Aborting message).
Proof.
  unfold body, parseBody.
  destruct (extraction options).
  - destruct (grabArticle _ _ _ _ _ _ _ _) as [[[st doc'] content]|];
      [|discriminate].
    destruct (postProcessContent _ _ _ _ _ _); discriminate.
  - discriminate.
Qed.

(** C4: with a positive [maxElemsToParse], a document with exactly that
    many elements passes the size check ([parse] goes on with the rest
    of its work and does not throw the size error), a document with
    more elements makes [parse] throw the error whose message is
    "Aborting parsing document; N elements found" for its element count
    N, and [<html><div>yo</div></html>], four elements once parsed, with
    a limit of 1 throws "Aborting parsing document; 4 elements found". *)
Theorem parse_element_limit options doc :
  (0 < maxElemsToParse options)%Z ->
  (numTags doc = maxElemsToParse options ->
     run options doc = body options doc
     /\ forall message, run options doc <> Thrown (Aborting message))
  /\ ((maxElemsToParse options < numTags doc)%Z ->
        run options doc = Thrown (Aborting (abortMessage (numTags doc)))
        /\ includes (abortMessage (numTags doc))
             (lit "Aborting parsing document; "
              ++ decimal (Z.to_N (numTags doc))
              ++ lit " elements found") = true)
  /\ numTags Examples.yoDocument = 4%Z
  /\ run (Examples.optionsWithLimit 1) Examples.yoDocument
     = Thrown (Aborting (lit "Aborting parsing document; 4 elements found")).
Proof.
  intros Hpos. split; [|split; [|split]].
  - intros Heq.
    assert (E : run options doc = body options doc).
    { unfold run, parse. rewrite Heq, Z.ltb_irrefl, andb_false_r.
      reflexivity. }
    split; [exact E|]. intros message. rewrite E.
    apply parseBody_never_aborts.
  - intros Hgt. split.
    + unfold run, parse.
      destruct (Z.ltb_spec 0 (maxElemsToParse options)); [|lia].
      destruct (Z.ltb_spec (maxElemsToParse options) (numTags doc)); [|lia].
      reflexivity.
    + unfold abortMessage.
      generalize (lit "Aborting parsing document; "
                  ++ decimal (Z.to_N (numTags doc))
                  ++ lit " elements found").
      intros s. destruct s as [|c s]; simpl; [reflexivity|].
      rewrite N.eqb_refl. simpl.
      assert (P : forall s', prefixb s' s' = true).
      { induction s' as [|x s' IH]; simpl; [reflexivity|].
        now rewrite N.eqb_refl. }
      now rewrite P.
  - vm_compute. reflexivity.
  - vm_compute. reflexivity.
Qed.

(** What a run with [extraction = false] returns: no text content, no
    length, the serializer's answer to [null], and the excerpt of the
    metadata. *)
Lemma metadata_only_fields options doc :
  extraction options = false ->
  body options doc =
    let metadata :=
      getArticleMetadata getArticleTitle doc
        (if disableJSONLD options then emptyMetadata else getJSONLD doc) in
    Returned
      {| r_title := orElse (Metadata.title metadata) None;
         r_byline := orElse (Metadata.byline metadata) None;
         r_dir := None;
         r_lang := None;
         r_content := serializer options None;
         r_textContent := None;
         r_length := None;
         r_excerpt := orElse (Metadata.excerpt metadata) None;
         r_siteName := orElse (Metadata.siteName metadata) None;
         r_publishedTime := orElse (Metadata.publishedTime metadata) None |}.
Proof.
  intros E. unfold body, parseBody. rewrite E.
  set (metadata := getArticleMetadata _ _ _).
  cbv beta iota zeta
    delta [initialState articleByline articleDir articleLang option_map].
  destruct (someTruthy (Metadata.excerpt metadata)); reflexivity.
Qed.

(** C1, on the code: with [extraction = false] the excerpt is not null
    when the document has a description.  On
    [<meta name="description" content="Hello">] the run returns
    [content], [textContent] and [length] null and the excerpt
    "Hello". *)
Theorem metadata_only_excerpt_is_description :
  exists result,
    run Examples.metadataOnlyOptions Examples.describedDocument
      = Returned result
    /\ extraction Examples.metadataOnlyOptions = false
    /\ r_content result = None
    /\ r_textContent result = None
    /\ r_length result = None
    /\ r_excerpt result = Some (lit "Hello").
Proof.
  eexists. split.
  - unfold run, parse. cbn [Examples.metadataOnlyOptions maxElemsToParse].
    cbn [Z.ltb Z.compare andb].
    fold body. rewrite metadata_only_fields by reflexivity. reflexivity.
  - repeat split; vm_compute; reflexivity.
Qed.

(** The retry loop never runs out of its four turns, so [parse] ends by
    returning or by throwing. *)
Lemma parse_ends options doc : run options doc <> OutOfFuel.
Proof.
  unfold run, parse, parseBody.
  destruct (_ && _); [discriminate|].
  destruct (extraction options).
  - destruct (grabArticle _ _ _ _ _ _ _ _) as [[[st doc'] content]|] eqn:G.
    + destruct (postProcessContent _ _ _ _ _ _) as [[c|]|]; discriminate.
    + exfalso. revert G. unfold grabArticle. apply grabLoop_terminates.
  - discriminate.
Qed.

(** C2, on the code: the pre-pass leaves comments and directives in the
    document.  [removeComments] is called with [$] where its node
    belongs, so on
    [<!doctype html><html><head><script>x</script></head><body><!-- c --><p>x</p></body></html>]
    the script is removed while the doctype and the comment are still
    there when [grabArticle] starts; entered at the root the function
    would have removed both. *)
Theorem prepass_keeps_comments :
  prepass replaceBr Examples.commentedDocument
    = Root [Directive (lit "!doctype html");
            Examples.el "html" []
              [Examples.el "head" [] [];
               Examples.el "body" []
                 [Comment (lit " c ");
                  Examples.el "p" [] [Examples.txt "x"]]]]
  /\ hasCommentLike (prepass replaceBr Examples.commentedDocument) = true
  /\ find [lit "script"; lit "noscript"; lit "style"]
       (prepass replaceBr Examples.commentedDocument) = []
  /\ hasCommentLike
       (removeComments TheRoot
          Examples.commentedDocument) = false.
Proof. repeat split; vm_compute; reflexivity. Qed.
End ParseProperties.

(** [<html><div>yo</div></html>] with a limit of 4 is parsed. *)
Lemma parse_element_limit_witness :
  Parse.parse Examples.noJSONLD Examples.emptyTitle Examples.brUnused
    Examples.buildHello Examples.bodyHtmlUnused Examples.setBodyHtmlUnused
    Examples.urlUnused Examples.parseUnused None Examples.urlUnused
    (Examples.optionsWithLimit 4) Examples.yoDocument
  = Parse.parseBody Examples.noJSONLD Examples.emptyTitle Examples.brUnused
      Examples.buildHello Examples.bodyHtmlUnused Examples.setBodyHtmlUnused
      Examples.urlUnused Examples.parseUnused None Examples.urlUnused
      (Examples.optionsWithLimit 4) Examples.yoDocument
  /\ Parse.parse Examples.noJSONLD Examples.emptyTitle Examples.brUnused
       Examples.buildHello Examples.bodyHtmlUnused Examples.setBodyHtmlUnused
       Examples.urlUnused Examples.parseUnused None Examples.urlUnused
       (Examples.optionsWithLimit 3) Examples.yoDocument
     = Parse.Thrown
         (Parse.Aborting
            (lit "Aborting parsing document; 4 elements found")).
Proof.
  split.
  - apply (parse_element_limit Examples.noJSONLD Examples.emptyTitle
             Examples.brUnused Examples.buildHello Examples.bodyHtmlUnused
             Examples.setBodyHtmlUnused Examples.urlUnused
             Examples.parseUnused None Examples.urlUnused
             (Examples.optionsWithLimit 4) Examples.yoDocument);
      vm_compute; reflexivity.
  - apply (parse_element_limit Examples.noJSONLD Examples.emptyTitle
             Examples.brUnused Examples.buildHello Examples.bodyHtmlUnused
             Examples.setBodyHtmlUnused Examples.urlUnused
             Examples.parseUnused None Examples.urlUnused
             (Examples.optionsWithLimit 3) Examples.yoDocument);
      vm_compute; reflexivity.
Defined.

(** * Further properties of the library *)

(** ** Class weights, scores and flags *)

Lemma getClassWeight_cases (flags : Z) (el : node) :
  In (getClassWeight flags el) [-50; -25; 0; 25; 50]%Z
  /\ (flagIsActive flags FLAG_WEIGHT_CLASSES = false ->
      getClassWeight flags el = 0%Z).
Proof.
  unfold getClassWeight.
  destruct (flagIsActive flags FLAG_WEIGHT_CLASSES); cbn [negb].
  - split; [|discriminate].
    destruct (attr el (lit "class")) as [c|], (attr el (lit "id")) as [i|];
      repeat match goal with
             | |- context [if ?b then _ else _] => destruct b
             end; simpl; tauto.
  - simpl. tauto.
Qed.

(** X1: the class weight of an element is one of -50, -25, 0, 25 and 50;
    it is 0 whenever WEIGHT_CLASSES is not active, and 0 for an element
    that has neither a class nor an id. *)
Theorem getClassWeight_values (flags : Z) (el : node) :
  In (getClassWeight flags el) [-50; -25; 0; 25; 50]%Z
  /\ (flagIsActive flags FLAG_WEIGHT_CLASSES = false ->
      getClassWeight flags el = 0%Z)
  /\ (attr el (lit "class") = None -> attr el (lit "id") = None ->
      getClassWeight flags el = 0%Z).
Proof.
  destruct (getClassWeight_cases flags el) as [H1 H2].
  split; [exact H1|]. split; [exact H2|].
  unfold getClassWeight. intros -> ->.
  destruct (negb _); reflexivity.
Qed.

(** X2: clearing one of the three flags makes it inactive, leaves the two
    others as they were, and clearing it again changes nothing. *)
Theorem removeFlag_clears_one_flag (flags f g : Z) :
  In f [FLAG_STRIP_UNLIKELYS; FLAG_WEIGHT_CLASSES; FLAG_CLEAN_CONDITIONALLY] ->
  In g [FLAG_STRIP_UNLIKELYS; FLAG_WEIGHT_CLASSES; FLAG_CLEAN_CONDITIONALLY] ->
  flagIsActive (removeFlag flags f) f = false
  /\ (f <> g -> flagIsActive (removeFlag flags f) g = flagIsActive flags g)
  /\ removeFlag (removeFlag flags f) f = removeFlag flags f.
Proof.
  intros Hf Hg. split; [|split].
  - unfold flagIsActive, removeFlag.
    rewrite <- Z.land_assoc, (Z.land_comm (Z.lnot f) f), Z.land_lnot_diag,
      Z.land_0_r. reflexivity.
  - intros Hne. unfold flagIsActive, removeFlag. rewrite <- Z.land_assoc.
    replace (Z.land (Z.lnot f) g) with g; [reflexivity|].
    simpl in Hf, Hg.
    destruct Hf as [<-|[<-|[<-|[]]]], Hg as [<-|[<-|[<-|[]]]];
      try reflexivity; congruence.
  - unfold removeFlag. rewrite <- Z.land_assoc, Z.land_diag. reflexivity.
Qed.

Lemma removeFlag_clears_one_flag_witness :
  flagIsActive (removeFlag ALL_FLAGS FLAG_WEIGHT_CLASSES) FLAG_WEIGHT_CLASSES
    = false
  /\ (FLAG_WEIGHT_CLASSES <> FLAG_CLEAN_CONDITIONALLY ->
      flagIsActive (removeFlag ALL_FLAGS FLAG_WEIGHT_CLASSES)
        FLAG_CLEAN_CONDITIONALLY
      = flagIsActive ALL_FLAGS FLAG_CLEAN_CONDITIONALLY)
  /\ removeFlag (removeFlag ALL_FLAGS FLAG_WEIGHT_CLASSES) FLAG_WEIGHT_CLASSES
     = removeFlag ALL_FLAGS FLAG_WEIGHT_CLASSES.
Proof.
  apply (@removeFlag_clears_one_flag ALL_FLAGS FLAG_WEIGHT_CLASSES
           FLAG_CLEAN_CONDITIONALLY); simpl; tauto.
Defined.

(** X3: a new score lies between -55 and 55, it is the tag's score alone
    when WEIGHT_CLASSES is not active, and an element that carries a score
    keeps it. *)
Theorem addContentScore_bounds (flags : Z) (element : node) :
  (-55 <= Scoring.addContentScore flags None element <= 55)%Z
  /\ (flagIsActive flags FLAG_WEIGHT_CLASSES = false ->
      Scoring.addContentScore flags None element
      = match tagName element with
        | Some t => Scoring.tagScore t
        | None => 0%Z
        end)
  /\ (forall score,
        Scoring.addContentScore flags (Some score) element = score).
Proof.
  unfold Scoring.addContentScore.
  assert (W : (-50 <= getClassWeight flags element <= 50)%Z).
  { destruct (getClassWeight_cases flags element) as [H _].
    simpl in H. lia. }
  assert (T : forall t, (-5 <= Scoring.tagScore t <= 5)%Z).
  { intros t. unfold Scoring.tagScore.
    repeat match goal with
           | |- context [if ?b then _ else _] => destruct b
           end; lia. }
  split; [|split].
  - destruct (tagName element) as [t|]; [specialize (T t)|]; lia.
  - intros Hoff. destruct (getClassWeight_cases flags element) as (_ & H).
    rewrite (H Hoff). lia.
  - reflexivity.
Qed.

(** ** Ancestors *)

Lemma hasAncestorTagFrom_firstn tag f d anc :
  (0 < d)%Z ->
  forall depth, (0 <= depth <= d + 1)%Z ->
  hasAncestorTagFrom depth anc tag d f
  = existsb (fun p => typeIsTag p && tagIs tag p && f p)
      (firstn (Z.to_nat (d + 1 - depth)) anc).
Proof.
  intros Hd. induction anc as [|p anc IH]; intros depth Hdepth.
  - now rewrite firstn_nil.
  - cbn [hasAncestorTagFrom].
    destruct (Z.ltb_spec 0 d); [|lia]. cbn [andb].
    destruct (Z.ltb_spec d depth).
    + replace (d + 1 - depth)%Z with 0%Z by lia. reflexivity.
    + replace (Z.to_nat (d + 1 - depth)) with (S (Z.to_nat (d + 1 - (depth + 1))))
        by lia.
      cbn [firstn existsb].
      destruct (typeIsTag p && tagIs tag p && f p); [reflexivity|].
      apply IH. lia.
Qed.

Lemma hasAncestorTagFrom_unbounded tag f d anc :
  (d <= 0)%Z ->
  forall depth,
  hasAncestorTagFrom depth anc tag d f
  = existsb (fun p => typeIsTag p && tagIs tag p && f p) anc.
Proof.
  intros Hd. induction anc as [|p anc IH]; intros depth; [reflexivity|].
  cbn [hasAncestorTagFrom existsb].
  destruct (Z.ltb_spec 0 d); [lia|]. cbn [andb].
  destruct (typeIsTag p && tagIs tag p && f p); [reflexivity | apply IH].
Qed.

(** X4: [hasAncestorTag] with a positive [maxDepth] examines the nearest
    [maxDepth + 1] ancestors (four with the default of 3), with a
    [maxDepth] of zero or less all of them; it answers whether one of
    those is an element of type [tag] with the tag name that passes the
    filter. *)
Theorem hasAncestorTag_examines (ancestors : list node) (tag : str)
  (maxDepth : Z) (filterFn : node -> bool) :
  hasAncestorTag ancestors tag maxDepth filterFn
  = existsb (fun p => typeIsTag p && tagIs tag p && filterFn p)
      (if (0 <? maxDepth)%Z then firstn (Z.to_nat maxDepth + 1) ancestors
       else ancestors).
Proof.
  unfold hasAncestorTag. destruct (Z.ltb_spec 0 maxDepth).
  - rewrite hasAncestorTagFrom_firstn by lia.
    do 2 f_equal. lia.
  - now apply hasAncestorTagFrom_unbounded.
Qed.

Lemma getNodeAncestorsFrom_firstn d chain :
  (0 < d)%Z ->
  forall i, (0 <= i < d)%Z ->
  NodeAncestors.getNodeAncestorsFrom i chain d
  = firstn (Z.to_nat (d - i)) chain.
Proof.
  intros Hd. induction chain as [|p chain IH]; intros i Hi.
  - now rewrite firstn_nil.
  - cbn [NodeAncestors.getNodeAncestorsFrom].
    destruct (Z.eqb_spec d 0); [lia|].
    replace (Z.to_nat (d - i)) with (S (Z.to_nat (d - (i + 1)))) by lia.
    cbn [firstn]. f_equal.
    destruct (Z.eqb_spec (i + 1) d) as [E|E].
    + rewrite E, Z.sub_diag. reflexivity.
    + apply IH. lia.
Qed.

(** X5: [getNodeAncestors] returns the nearest [maxDepth] ancestors when
    [maxDepth] is positive, and the whole chain when it is zero or
    negative; with the same positive depth [hasAncestorTag] looks one
    ancestor further than [getNodeAncestors] returns. *)
Theorem getNodeAncestors_depth (chain : list node) (maxDepth : Z) :
  NodeAncestors.getNodeAncestors chain maxDepth
  = (if (0 <? maxDepth)%Z then firstn (Z.to_nat maxDepth) chain else chain)
  /\ forall tag filterFn,
       hasAncestorTag chain tag maxDepth filterFn
       = existsb (fun p => typeIsTag p && tagIs tag p && filterFn p)
           (NodeAncestors.getNodeAncestors chain
              (if (0 <? maxDepth)%Z then maxDepth + 1 else maxDepth)).
Proof.
  assert (All : forall d c i, (d <= 0)%Z -> (0 <= i)%Z ->
            NodeAncestors.getNodeAncestorsFrom i c d = c).
  { intros d c. induction c as [|p c IH]; intros i Hd Hi; [reflexivity|].
    cbn [NodeAncestors.getNodeAncestorsFrom]. f_equal.
    destruct (Z.eqb_spec d 0); [apply IH; lia|].
    destruct (Z.eqb_spec (i + 1) d); [lia | apply IH; lia]. }
  unfold NodeAncestors.getNodeAncestors, hasAncestorTag.
  destruct (Z.ltb_spec 0 maxDepth) as [Hpos|Hneg].
  - split.
    + rewrite getNodeAncestorsFrom_firstn by lia. now rewrite Z.sub_0_r.
    + intros tag filterFn.
      rewrite hasAncestorTagFrom_firstn, getNodeAncestorsFrom_firstn by lia.
      reflexivity.
  - split.
    + apply All; lia.
    + intros tag filterFn.
      rewrite hasAncestorTagFrom_unbounded, All by lia. reflexivity.
Qed.

(** ** Block elements below an element *)

Lemma existsb_flat_map (A B : Type) (p : B -> bool) (f : A -> list B) l :
  existsb p (flat_map f l) = existsb (fun x => existsb p (f x)) l.
Proof.
  induction l as [|x l IH]; simpl; [reflexivity|].
  now rewrite existsb_app, IH.
Qed.

Lemma forallb_flat_map (A B : Type) (p : B -> bool) (f : A -> list B) l :
  forallb p (flat_map f l) = forallb (fun x => forallb p (f x)) l.
Proof.
  induction l as [|x l IH]; simpl; [reflexivity|].
  now rewrite forallb_app, IH.
Qed.

Lemma nonEmpty_filter (A : Type) (p : A -> bool) l :
  nonEmpty (filter p l) = existsb p l.
Proof.
  induction l as [|x l IH]; simpl; [reflexivity|].
  destruct (p x); [reflexivity | exact IH].
Qed.

(** X6: an element for which [hasChildBlockElement] holds has one of the
    block tags of [DIV_TO_P_ELEMS] below it; when every element below is of
    type [tag] (no [script] or [style] element, whose types differ) the
    function says exactly whether [find] meets such a tag. *)
Theorem hasChildBlockElement_finds (ty : elementType) (t : str)
  (a : list (str * str)) (d : option bool) (cs : list node) :
  let element := Element ty t a d cs in
  (BlockElements.hasChildBlockElement element = true ->
   nonEmpty (find DIV_TO_P_ELEMS element) = true)
  /\ (forallb typeIsTag (descendants element) = true ->
      BlockElements.hasChildBlockElement element
      = nonEmpty (find DIV_TO_P_ELEMS element)).
Proof.
  cbv zeta. unfold find. rewrite nonEmpty_filter.
  assert (G : forall n, isTag n = true ->
            (BlockElements.hasChildBlockElement n = true ->
             existsb (tagIn DIV_TO_P_ELEMS) (descendants n) = true)
            /\ (forallb typeIsTag (descendants n) = true ->
                BlockElements.hasChildBlockElement n
                = existsb (tagIn DIV_TO_P_ELEMS) (descendants n)));
    [|apply G; reflexivity].
  clear. intros n.
  induction n as [ty t a d cs IH| | | |cs IH|cs IH] using node_induction;
    try discriminate.
  intros _. rewrite descendants_children.
  cbn [BlockElements.hasChildBlockElement].
  rewrite existsb_flat_map, forallb_flat_map.
  induction IH as [|c cs Hc _ IHcs]; [split; [discriminate|reflexivity]|].
  cbn [existsb forallb].
  destruct IHcs as [Ia Ib].
  split.
  - rewrite !orb_true_iff. intros [H|H]; [left | right; auto].
    destruct c as [cty ct ca cd ccs| | | | |]; try discriminate.
    destruct cty; try discriminate.
    destruct (Hc eq_refl) as [Ha _].
    cbn [withDescendants existsb].
    apply orb_true_iff in H. apply orb_true_iff.
    destruct H as [H|H]; [left; exact H | right; auto].
  - rewrite andb_true_iff. intros [H1 H2]. rewrite (Ib H2). f_equal.
    destruct c as [cty ct ca cd ccs| | | | |]; try reflexivity.
    destruct (Hc eq_refl) as [_ Hb].
    cbn [withDescendants forallb existsb] in *.
    apply andb_true_iff in H1. destruct H1 as [H0 H1].
    destruct cty; try discriminate.
    now rewrite (Hb H1).
Qed.

(** ** cleanStyles *)

Lemma filter_twice (A : Type) (p q : A -> bool) l :
  filter p (filter q l) = filter (fun x => q x && p x) l.
Proof.
  induction l as [|x l IH]; simpl; [reflexivity|].
  destruct (q x); simpl; [destruct (p x)|]; now rewrite IH.
Qed.

Lemma removeAttrs_filter names a :
  fold_left (fun acc name => removeAttr name acc) names a
  = filter (fun kv => negb (mem (fst kv) names)) a.
Proof.
  revert a. induction names as [|n names IH]; intros a; cbn [fold_left].
  - induction a as [|kv a IHa]; simpl; [reflexivity | now f_equal].
  - rewrite IH. unfold removeAttr. rewrite filter_twice.
    apply filter_ext. intros kv. unfold mem. cbn [existsb].
    now rewrite negb_orb.
Qed.

(** The names [cleanStyles] deletes on an element named [t]. *)
Lemma stripPresentation_filter t a :
  Styles.stripPresentation t a
  = filter (fun kv =>
              negb (mem (fst kv)
                      (Styles.PRESENTATIONAL_ATTRIBUTES
                       ++ (if mem t Styles.DEPRECATED_SIZE_ATTRIBUTE_ELEMS
                           then [] else [lit "width"; lit "height"])))) a.
Proof.
  unfold Styles.stripPresentation. rewrite removeAttrs_filter.
  destruct (mem t Styles.DEPRECATED_SIZE_ATTRIBUTE_ELEMS).
  - now rewrite app_nil_r.
  - unfold removeAttr. rewrite !filter_twice. apply filter_ext. intros kv.
    unfold mem. rewrite existsb_app. cbn [existsb].
    rewrite !negb_orb, andb_true_r. now rewrite andb_assoc.
Qed.

Lemma lookup_filter_out (keep : str -> bool) name a :
  keep name = false ->
  lookup name (filter (fun kv => keep (fst kv)) a) = None.
Proof.
  intros Hk. induction a as [|[k v] a IH]; simpl; [reflexivity|].
  destruct (keep k) eqn:E; [|exact IH].
  simpl. destruct (JsString.eqb k name) eqn:Ek; [|exact IH].
  apply str_eqb_eq in Ek. congruence.
Qed.

(** X7: when no [svg] element and no element of another type than [tag]
    is involved, [cleanStyles] leaves no presentational attribute on the
    element or on any element below it, and [width] and [height] only on
    [table], [th], [td], [hr] and [pre]. *)
Theorem cleanStyles_removes_presentation (el : node) :
  forallb (fun x => negb (tagIs (lit "svg") x)) (withDescendants el) = true ->
  forallb typeIsTag (descendants el) = true ->
  Forall (fun x =>
            (forall name, mem name Styles.PRESENTATIONAL_ATTRIBUTES = true ->
                          attr x name = None)
            /\ (tagIn Styles.DEPRECATED_SIZE_ATTRIBUTE_ELEMS x = false ->
                attr x (lit "width") = None /\ attr x (lit "height") = None))
    (withDescendants (Styles.cleanStyles el)).
Proof.
  induction el as [ty t a d cs IH| | | |cs IH|cs IH] using node_induction;
    try (intros; constructor).
  cbn [withDescendants forallb tagIs]. intros Hsvg Htag.
  apply andb_true_iff in Hsvg. destruct Hsvg as [Ht Hsvg].
  apply negb_true_iff in Ht. cbn [Styles.cleanStyles]. rewrite Ht.
  cbn [withDescendants]. constructor.
  - unfold attr. cbn [attributes]. rewrite stripPresentation_filter. split.
    + intros name Hn. apply (lookup_filter_out (fun k => negb (mem k _))).
      unfold mem in *. rewrite existsb_app, Hn. reflexivity.
    + unfold tagIn, tagIs, mem. intros Hd.
      assert (E : existsb (JsString.eqb t)
                    Styles.DEPRECATED_SIZE_ATTRIBUTE_ELEMS = false).
      { exact Hd. }
      rewrite E.
      split; apply (lookup_filter_out (fun k => negb (mem k _)));
        unfold mem; rewrite existsb_app; cbn [existsb];
        rewrite ?str_eqb_refl, ?orb_true_r; reflexivity.
  - rewrite descendants_children, forallb_flat_map in Hsvg, Htag.
    rewrite descendants_children. apply Forall_flat_map, Forall_map.
    induction IH as [|c cs Hc _ IHcs]; [constructor|].
    cbn [forallb] in Hsvg, Htag.
    apply andb_true_iff in Hsvg, Htag.
    destruct Hsvg as [S1 S2], Htag as [T1 T2].
    constructor; [|exact (IHcs S2 T2)].
    destruct c as [cty ct ca cd ccs| | | | |]; try constructor.
    cbn [withDescendants forallb] in T1. apply andb_true_iff in T1.
    destruct T1 as [T0 T1]. rewrite T0. apply Hc; assumption.
Qed.

Lemma cleanStyles_removes_presentation_witness :
  Forall (fun x =>
            (forall name, mem name Styles.PRESENTATIONAL_ATTRIBUTES = true ->
                          attr x name = None)
            /\ (tagIn Styles.DEPRECATED_SIZE_ATTRIBUTE_ELEMS x = false ->
                attr x (lit "width") = None /\ attr x (lit "height") = None))
    (withDescendants
       (Styles.cleanStyles
          (Examples.el "div" [("style", "color:red"); ("width", "10")]%string
             [Examples.el "td" [("align", "left"); ("width", "5")]%string
                [Examples.txt "x"]]))).
Proof.
  apply cleanStyles_removes_presentation; reflexivity.
Defined.

(** X8: [cleanStyles] changes attributes only: the text and the tag names
    below the element stay as they are, and a second run changes
    nothing. *)
Theorem cleanStyles_keeps_content (el : node) :
  textContent (Styles.cleanStyles el) = textContent el
  /\ map tagName (withDescendants (Styles.cleanStyles el))
     = map tagName (withDescendants el)
  /\ Styles.cleanStyles (Styles.cleanStyles el) = Styles.cleanStyles el.
Proof.
  induction el as [ty t a d cs IH| | | |cs IH|cs IH] using node_induction;
    try (repeat split; reflexivity).
  cbn [Styles.cleanStyles].
  destruct (JsString.eqb t (lit "svg")) eqn:Et.
  { cbn [Styles.cleanStyles]. rewrite Et. repeat split. }
  cbn [Styles.cleanStyles textContent withDescendants map tagName].
  rewrite Et, !descendants_children.
  assert (Hstrip : Styles.stripPresentation t (Styles.stripPresentation t a)
                   = Styles.stripPresentation t a).
  { rewrite !stripPresentation_filter, filter_twice.
    apply filter_ext. intros kv. now rewrite andb_diag. }
  rewrite Hstrip.
  set (g := fun cur => if typeIsTag cur then Styles.cleanStyles cur else cur).
  assert (G : Forall (fun c => textContent (g c) = textContent c
                               /\ map tagName (withDescendants (g c))
                                  = map tagName (withDescendants c)
                               /\ g (g c) = g c) cs).
  { eapply Forall_impl; [|exact IH]. intros c (H1 & H2 & H3). unfold g.
    destruct (typeIsTag c) eqn:Ec; [|rewrite Ec; repeat split].
    assert (Ec' : typeIsTag (Styles.cleanStyles c) = true).
    { destruct c as [cty ct ca cd ccs| | | | |]; try discriminate.
      cbn [Styles.cleanStyles]. destruct (JsString.eqb ct (lit "svg"));
        exact Ec. }
    rewrite Ec'. repeat split; assumption. }
  clear IH. repeat split.
  - induction G as [|c cs (H1 & _) _ IHcs]; cbn [map flat_map];
      [reflexivity|].
    now rewrite H1, IHcs.
  - f_equal.
    induction G as [|c cs (_ & H2 & _) _ IHcs]; cbn [map flat_map];
      [reflexivity|].
    now rewrite !map_app, H2, IHcs.
  - f_equal.
    induction G as [|c cs (_ & _ & H3) _ IHcs]; cbn [map]; [reflexivity|].
    now rewrite H3, IHcs.
Qed.

(** ** The patterns for white space *)

(** A greedy star over a class of code units, followed by nothing else,
    eats the longest prefix in the class. *)
Lemma star_class_greedy total p n :
  forall s, (List.length s <= n)%nat ->
  star_loop (bt total (Chr p)) Some n s = Some (Shapes.dropWhile p s).
Proof.
  induction n as [|n IH]; intros s Hn.
  - destruct s; [reflexivity | simpl in Hn; lia].
  - cbn [star_loop bt]. destruct s as [|c s']; [reflexivity|].
    cbn [Shapes.dropWhile]. destruct (p c); [|reflexivity].
    assert (E : (List.length s' <? List.length (c :: s'))%nat = true)
      by (apply Nat.ltb_lt; simpl; lia).
    rewrite E, IH by (simpl in Hn; lia). reflexivity.
Qed.

(** Followed by the end of the string, it succeeds exactly on the strings
    that lie in the class. *)
Lemma star_class_to_end total p n :
  forall s, (List.length s <= n)%nat ->
  star_loop (bt total (Chr p)) (fun s' => bt total Eol s' Some) n s
  = if forallb p s then Some [] else None.
Proof.
  induction n as [|n IH]; intros s Hn.
  - destruct s; [reflexivity | simpl in Hn; lia].
  - cbn [star_loop bt]. destruct s as [|c s']; [reflexivity|].
    cbn [forallb]. destruct (p c); [|reflexivity].
    assert (E : (List.length s' <? List.length (c :: s'))%nat = true)
      by (apply Nat.ltb_lt; simpl; lia).
    rewrite E, IH by (simpl in Hn; lia). cbn [andb].
    destruct (forallb p s'); reflexivity.
Qed.

Lemma whitespace_test_aux (s : str) :
  test Words.whitespace s = forallb is_space s.
Proof.
  unfold test, exec, Words.whitespace. cbn [seqs].
  destruct s as [|c s']; [reflexivity|].
  cbn [exec_from]. unfold match_here at 1. cbn [bt].
  rewrite Nat.eqb_refl.
  change (Chr is_space) with any_s.
  unfold any_s at 1.
  rewrite star_class_to_end by lia.
  destruct (forallb is_space (c :: s')); [reflexivity|].
  rewrite exec_from_bol_later by (simpl; lia). reflexivity.
Qed.

(** X9: [whitespace] ([/^\s*$/]) accepts exactly the strings made of white
    space only, the empty string among them; a string with any other code
    unit is refused, wherever it stands. *)
Theorem whitespace_test (s : str) :
  test Words.whitespace s = forallb is_space s
  /\ (forall pre c post,
        is_space c = false ->
        test Words.whitespace (pre ++ c :: post) = false).
Proof.
  split; [apply whitespace_test_aux|].
  intros pre c post Hc. rewrite whitespace_test_aux, forallb_app.
  cbn [forallb]. rewrite Hc. now rewrite andb_false_r.
Qed.

(** The place where an attempt starts does not matter to a pattern
    without [^]: only whether some suffix matches. *)
Lemma exec_from_skipped total r s :
  forall skipped skipped',
  match exec_from total r skipped s with Some _ => true | None => false end
  = match exec_from total r skipped' s with Some _ => true | None => false end.
Proof.
  induction s as [|c s IH]; intros sk sk'; cbn [exec_from];
    destruct (match_here total r _); try reflexivity.
  apply IH.
Qed.

Lemma hasContent_last (s : str) :
  test Regexes.hasContent s
  = match rev s with
    | c :: _ => negb (is_space c)
    | [] => false
    end.
Proof.
  unfold test, exec. generalize (List.length s) as total. intros total.
  generalize (@nil N) as skipped.
  induction s as [|c s IH]; intros skipped; [reflexivity|].
  cbn [exec_from]. unfold match_here, Regexes.hasContent. cbn [seqs bt].
  destruct s as [|c' s'].
  - cbn [rev app]. destruct (is_space c); reflexivity.
  - assert (R : match rev (c :: c' :: s') with
                | x :: _ => negb (is_space x)
                | [] => false
                end
                = match rev (c' :: s') with
                  | x :: _ => negb (is_space x)
                  | [] => false
                  end).
    { cbn [rev]. destruct (rev s' ++ [c']) eqn:E; [|reflexivity].
      destruct (rev s'); discriminate. }
    rewrite R, <- (IH (c :: skipped)).
    destruct (negb (is_space c)); reflexivity.
Qed.

(** X10: [hasContent] ([/\S$/]) accepts exactly the strings whose last code
    unit is not white space: text that ends in white space has no content
    for it, whatever comes before, and neither has the empty string. *)
Theorem hasContent_test (s : str) :
  test Regexes.hasContent s
  = match rev s with
    | c :: _ => negb (is_space c)
    | [] => false
    end
  /\ (forall c, test Regexes.hasContent (s ++ [c]) = negb (is_space c))
  /\ test Regexes.hasContent [] = false.
Proof.
  split; [apply hasContent_last|]. split; [|reflexivity].
  intros c. rewrite hasContent_last, rev_app_distr. reflexivity.
Qed.

(** X11: [nextNode] skips the text nodes made of white space only (empty
    ones among them) and stops at the first node that is not one, or at
    the end of the siblings. *)
Theorem nextNode_skips_blank_text (siblings : list node) :
  exists skipped,
    siblings = skipped ++ Words.nextNode siblings
    /\ Forall (fun n => exists data,
                   n = Text data /\ forallb is_space data = true) skipped
    /\ match Words.nextNode siblings with
       | Text data :: _ => forallb is_space data = false
       | _ => True
       end.
Proof.
  induction siblings as [|n rest IH].
  - exists []. repeat split. constructor.
  - destruct n as [ty t a d cs|data| | | |];
      try (exists []; repeat split; constructor).
    cbn [Words.nextNode].
    pose proof (whitespace_test_aux data) as W.
    destruct (test Words.whitespace data) eqn:E.
    + destruct IH as (sk & E1 & F & H).
      exists (Text data :: sk). split; [simpl; now f_equal|].
      split; [|exact H].
      constructor; [|exact F]. exists data. split; [reflexivity|].
      now rewrite <- W.
    + exists []. repeat split; [constructor|]. now rewrite <- W.
Qed.

(** ** getInnerText: normalized white space *)

Lemma dropWhile_length p s :
  (List.length (Shapes.dropWhile p s) <= List.length s)%nat.
Proof.
  induction s as [|c s IH]; simpl; [lia|]. destruct (p c); simpl; lia.
Qed.

Lemma dropWhile_head s : Shapes.headNotSpace (Shapes.dropWhile is_space s) = true.
Proof.
  induction s as [|c s IH]; [reflexivity|]. cbn [Shapes.dropWhile].
  destruct (is_space c) eqn:E; [exact IH|]. cbn. now rewrite E.
Qed.

(** [s = skipped ++ dropWhile p s], and what is skipped lies in the class. *)
Lemma dropWhile_split p s :
  exists skipped,
    s = skipped ++ Shapes.dropWhile p s /\ forallb p skipped = true.
Proof.
  induction s as [|c s (sk & E & F)]; [exists []; split; reflexivity|].
  cbn [Shapes.dropWhile]. destruct (p c) eqn:Ec.
  - exists (c :: sk). split; [simpl; now f_equal | simpl; now rewrite Ec].
  - exists []. split; reflexivity.
Qed.

(** One attempt of [normalize]: two white-space code units and all the
    white space that follows. *)
Lemma normalize_here total s :
  match_here total Regexes.normalize s
  = match s with
    | a :: b :: s' =>
        if is_space a && is_space b
        then Some (Shapes.dropWhile is_space s') else None
    | _ => None
    end.
Proof.
  unfold match_here, Regexes.normalize, any_s. cbn [bt].
  destruct s as [|a [|b s']]; try reflexivity.
  - destruct (is_space a); reflexivity.
  - destruct (is_space a); [|reflexivity].
    destruct (is_space b); [|reflexivity].
    cbn [andb]. apply (star_class_greedy total is_space). lia.
Qed.

Lemma noAdjacentSpaces_cons c out :
  Shapes.noAdjacentSpaces (c :: out)
  = (negb (is_space c) || Shapes.headNotSpace out)
    && Shapes.noAdjacentSpaces out.
Proof.
  destruct out as [|x out]; cbn [Shapes.noAdjacentSpaces Shapes.headNotSpace].
  - now rewrite orb_true_r.
  - now rewrite negb_andb.
Qed.

Lemma rev_not_nil (l : str) : l <> [] -> rev l <> [].
Proof.
  intros H E. apply (f_equal (@rev N)) in E.
  rewrite rev_involutive in E. contradiction.
Qed.

Lemma headNotSpace_app l r :
  l <> [] -> Shapes.headNotSpace (l ++ r) = Shapes.headNotSpace l.
Proof. destruct l; [congruence | reflexivity]. Qed.

Lemma all_space_last s :
  s <> [] -> forallb is_space s = true ->
  Shapes.headNotSpace (rev s) = false.
Proof.
  intros Hne H. destruct (rev s) as [|c r] eqn:E.
  - apply (f_equal (@rev N)) in E. rewrite rev_involutive in E. contradiction.
  - assert (Hin : In c s) by (apply in_rev; rewrite E; now left).
    rewrite forallb_forall in H. cbn. now rewrite (H c Hin).
Qed.

(** What the replacement of [normalize] by one space returns: nothing for
    nothing, otherwise a string without two white-space code units side by
    side that starts and ends without white space when the subject does. *)
Lemma replace_normalize total fuel :
  forall s, (List.length s < fuel)%nat ->
  let out := replace_fuel fuel total Regexes.normalize (fun _ => lit " ") s in
  Shapes.noAdjacentSpaces out = true
  /\ (s = [] <-> out = [])
  /\ (Shapes.headNotSpace s = true -> Shapes.headNotSpace out = true)
  /\ (Shapes.headNotSpace (rev s) = true ->
      Shapes.headNotSpace (rev out) = true).
Proof.
  induction fuel as [|fuel IH]; intros s Hlen; [lia|].
  cbv zeta. cbn [replace_fuel]. rewrite normalize_here.
  destruct s as [|a [|b s']].
  - repeat split; auto.
  - specialize (IH [] ltac:(simpl in *; lia)). cbv zeta in IH.
    destruct fuel; [simpl in Hlen; lia|]. cbn [replace_fuel].
    rewrite normalize_here. repeat split; auto; discriminate.
  - destruct (is_space a && is_space b) eqn:Eab.
    + pose proof (dropWhile_length is_space s') as Hr.
      assert (Hm : exists m, firstn (List.length (a :: b :: s')
                                    - List.length (Shapes.dropWhile is_space s'))
                               (a :: b :: s') = a :: m).
      { cbn [List.length].
        replace (S (S (List.length s'))
                 - List.length (Shapes.dropWhile is_space s'))%nat
          with (S (S (List.length s')
                   - List.length (Shapes.dropWhile is_space s')))%nat by lia.
        eexists. reflexivity. }
      destruct Hm as [m ->].
      specialize (IH (Shapes.dropWhile is_space s')
                    ltac:(simpl in Hlen; lia)).
      cbv zeta in IH. destruct IH as (I1 & I2 & I3 & I4).
      specialize (I3 (dropWhile_head s')).
      set (out := replace_fuel fuel total Regexes.normalize _ _) in *.
      change (lit " " ++ out) with (32%N :: out).
      apply andb_true_iff in Eab. destruct Eab as [Ea Eb].
      split; [|split; [|split]].
      * now rewrite noAdjacentSpaces_cons, I3, I1, orb_true_r.
      * split; discriminate.
      * cbn. rewrite Ea. discriminate.
      * intros Hlast.
        destruct (dropWhile_split is_space s') as (sk & Es & Fs).
        destruct (Shapes.dropWhile is_space s') as [|r0 rest] eqn:Er.
        { exfalso. rewrite app_nil_r in Es. subst sk.
          rewrite all_space_last in Hlast; [discriminate | discriminate |].
          cbn [forallb]. now rewrite Ea, Eb, Fs. }
        assert (Eo : out <> []).
        { intros E. apply I2 in E. discriminate. }
        assert (Hr0 : Shapes.headNotSpace (rev (r0 :: rest)) = true).
        { rewrite <- Hlast.
          change (a :: b :: s') with ([a; b] ++ s'). rewrite Es.
          rewrite app_assoc, rev_app_distr.
          symmetry. apply headNotSpace_app, rev_not_nil. discriminate. }
        specialize (I4 Hr0).
        cbn [rev]. rewrite headNotSpace_app; [exact I4|].
        now apply rev_not_nil.
    + specialize (IH (b :: s') ltac:(simpl in Hlen |- *; lia)).
      cbv zeta in IH. destruct IH as (I1 & I2 & I3 & I4).
      set (out := replace_fuel fuel total Regexes.normalize _ _) in *.
      assert (Eo : out <> []).
      { intros E. apply I2 in E. discriminate. }
      split; [|split; [|split]].
      * rewrite noAdjacentSpaces_cons, I1, andb_true_r.
        destruct (is_space a) eqn:Ea; [|reflexivity].
        cbn [andb] in Eab. cbn [negb orb]. apply I3.
        cbn. now rewrite Eab.
      * split; discriminate.
      * intros H. exact H.
      * intros Hlast.
        change (rev (a :: b :: s')) with (rev (b :: s') ++ [a]) in Hlast.
        rewrite headNotSpace_app in Hlast by (apply rev_not_nil; discriminate).
        cbn [rev].
        rewrite headNotSpace_app by (now apply rev_not_nil).
        apply I4. exact Hlast.
Qed.

Lemma trimStart_dropWhile s : trimStart s = Shapes.dropWhile is_space s.
Proof.
  induction s as [|c s IH]; [reflexivity|]. cbn. now rewrite IH.
Qed.

Lemma trimStart_snoc l c :
  is_space c = false -> trimStart (l ++ [c]) = trimStart l ++ [c].
Proof.
  intros Hc. induction l as [|x l IH]; cbn; [now rewrite Hc|].
  destruct (is_space x); [exact IH | reflexivity].
Qed.

(** A trimmed string neither starts nor ends with white space. *)
Lemma trim_ends s :
  Shapes.headNotSpace (trim s) = true
  /\ Shapes.headNotSpace (rev (trim s)) = true.
Proof.
  unfold trim, trimEnd. split.
  - pose proof (dropWhile_head s) as H. rewrite <- trimStart_dropWhile in H.
    destruct (trimStart s) as [|c t]; [reflexivity|].
    cbn in H. apply negb_true_iff in H.
    cbn [rev]. rewrite trimStart_snoc, rev_app_distr by exact H.
    cbn. now rewrite H.
  - rewrite rev_involutive, trimStart_dropWhile. apply dropWhile_head.
Qed.

Lemma normalize_nowhere total s :
  Shapes.noAdjacentSpaces s = true ->
  forall skipped, exec_from total Regexes.normalize skipped s = None.
Proof.
  induction s as [|a s IH]; intros H skipped; cbn [exec_from];
    rewrite normalize_here; [reflexivity|].
  rewrite noAdjacentSpaces_cons in H. apply andb_true_iff in H.
  destruct H as [H1 H2].
  destruct s as [|b s'].
  - cbn [exec_from]. now rewrite normalize_here.
  - cbn [Shapes.headNotSpace] in H1.
    assert (E : is_space a && is_space b = false).
    { destruct (is_space a), (is_space b); try reflexivity; discriminate. }
    rewrite E. now apply IH.
Qed.

(** X12: the inner text of a node with normalized spaces has no two
    white-space code units side by side ([/\s{2,}/] finds nothing in it)
    and neither starts nor ends with white space; it is empty exactly when
    the trimmed text of the node is. *)
Theorem getInnerText_normalized (n : node) :
  let text := getInnerText n true in
  test Regexes.normalize text = false
  /\ Shapes.noAdjacentSpaces text = true
  /\ Shapes.headNotSpace text = true
  /\ Shapes.headNotSpace (rev text) = true
  /\ (text = [] <-> getInnerText n false = []).
Proof.
  cbv zeta. unfold getInnerText, replaceAll.
  set (s := trim (textContent n)).
  destruct (@replace_normalize (List.length s) (S (List.length s)) s
              ltac:(lia)) as (H1 & H2 & H3 & H4).
  destruct (trim_ends (textContent n)) as [T1 T2].
  split; [|split; [exact H1|split; [auto|split; [auto|]]]].
  - unfold test, exec. now rewrite normalize_nowhere.
  - split; intros E; apply H2; exact E.
Qed.

(** ** Tokens and word counts *)

Lemma forallb_dropWhile (q p : N -> bool) s :
  forallb q s = true -> forallb q (Shapes.dropWhile p s) = true.
Proof.
  induction s as [|c s IH]; [reflexivity|]. cbn [forallb Shapes.dropWhile].
  intros H. apply andb_true_iff in H. destruct H as [H1 H2].
  destruct (p c); [auto|]. cbn [forallb]. now rewrite H1, H2.
Qed.

(** One attempt of a pattern [c+] over a class of code units. *)
Lemma plus_class_here total p s :
  match_here total (plus (Chr p)) s
  = match s with
    | c :: s' => if p c then Some (Shapes.dropWhile p s') else None
    | [] => None
    end.
Proof.
  unfold match_here, plus. cbn [bt].
  destruct s as [|c s']; [reflexivity|].
  destruct (p c); [|reflexivity].
  apply (star_class_greedy total p). lia.
Qed.

Lemma forallb_rev (A : Type) (q : A -> bool) l :
  forallb q (rev l) = forallb q l.
Proof.
  induction l as [|x l IH]; [reflexivity|].
  cbn [rev forallb]. rewrite forallb_app, IH. cbn. now rewrite andb_true_r, andb_comm.
Qed.

(** The pieces between separators [p+] hold no code unit of [p], and keep
    what holds of every code unit of the subject. *)
Lemma split_class_pieces total (p q : N -> bool) fuel :
  forall s piece, (List.length s < fuel)%nat ->
  forallb q s = true ->
  forallb (fun c => negb (p c) && q c) piece = true ->
  Forall (fun t => forallb (fun c => negb (p c) && q c) t = true)
    (split_fuel fuel total (plus (Chr p)) piece s).
Proof.
  induction fuel as [|fuel IH]; intros s piece Hlen Hq Hpiece; [lia|].
  cbn [split_fuel]. destruct s as [|c s'].
  - constructor; [|constructor]. now rewrite forallb_rev.
  - rewrite plus_class_here. cbn [forallb] in Hq.
    apply andb_true_iff in Hq. destruct Hq as [Hc Hs'].
    destruct (p c) eqn:Ep.
    + pose proof (dropWhile_length p s') as Hr.
      assert (E : (List.length (Shapes.dropWhile p s')
                   =? List.length (c :: s'))%nat = false)
        by (apply Nat.eqb_neq; simpl; lia).
      rewrite E. cbn [andb].
      constructor; [now rewrite forallb_rev|].
      apply IH; [simpl in Hlen; lia | now apply forallb_dropWhile
                | reflexivity].
    + apply IH; [simpl in Hlen; lia | exact Hs'|].
      cbn [forallb]. now rewrite Ep, Hc, Hpiece.
Qed.

Lemma toLowerCase_no_upper s :
  forallb (fun c => negb (is_upper c)) (toLowerCase s) = true.
Proof.
  unfold toLowerCase. rewrite forallb_flat_map.
  apply forallb_forall. intros c _. unfold lower1.
  destruct (is_upper c) eqn:Eu.
  - cbn [forallb]. rewrite andb_true_r. apply negb_true_iff.
    unfold is_upper in *.
    apply andb_true_iff in Eu. destruct Eu as [E1 E2].
    apply N.leb_le in E1, E2. apply andb_false_iff. right.
    apply N.leb_gt. lia.
  - destruct (c =? 0x212A)%N; [reflexivity|].
    destruct (c =? 0x130)%N; [reflexivity|].
    cbn [forallb]. now rewrite Eu.
Qed.

(** X13: every token that [textSimilarity] compares is non-empty and made
    of digits, lower-case ASCII letters and underscores only. *)
Theorem tokens_are_lower_case_words (s : str) :
  Forall (fun t =>
            t <> []
            /\ forallb (fun c => is_digit c || is_lower c || (c =? 95)%N) t
               = true)
    (tokens s).
Proof.
  unfold tokens.
  assert (P : Forall (fun t =>
                        forallb (fun c => negb (negb (is_word c))
                                          && negb (is_upper c)) t = true)
                (split Regexes.tokenize (toLowerCase s))).
  { unfold split, Regexes.tokenize.
    destruct (toLowerCase s) as [|c r] eqn:E.
    - rewrite plus_class_here. constructor; [reflexivity | constructor].
    - apply split_class_pieces; [simpl; lia | | reflexivity].
      rewrite <- E. apply toLowerCase_no_upper. }
  apply Forall_forall. intros t Ht. apply filter_In in Ht.
  destruct Ht as [Hin Htruthy]. rewrite Forall_forall in P.
  specialize (P t Hin). split.
  - destruct t; [discriminate | discriminate].
  - rewrite forallb_forall in *. intros c Hc. specialize (P c Hc).
    apply andb_true_iff in P. destruct P as [P1 P2].
    rewrite negb_involutive in P1. unfold is_word in P1.
    apply negb_true_iff in P2. rewrite P2 in P1.
    now rewrite orb_false_r in P1.
Qed.

Lemma spaceRuns_in_run s :
  Shapes.spaceRuns true s
  = Shapes.spaceRuns false (Shapes.dropWhile is_space s).
Proof.
  induction s as [|c s IH]; [reflexivity|].
  cbn [Shapes.spaceRuns Shapes.dropWhile].
  destruct (is_space c) eqn:E; [exact IH|].
  cbn [Shapes.spaceRuns]. now rewrite E.
Qed.

Lemma split_spaces_length total fuel :
  forall s piece, (List.length s < fuel)%nat ->
  List.length (split_fuel fuel total (plus any_s) piece s)
  = S (Shapes.spaceRuns false s).
Proof.
  induction fuel as [|fuel IH]; intros s piece Hlen; [lia|].
  cbn [split_fuel]. destruct s as [|c s']; [reflexivity|].
  unfold any_s. rewrite plus_class_here. cbn [Shapes.spaceRuns].
  destruct (is_space c) eqn:Ec.
  - pose proof (dropWhile_length is_space s') as Hr.
    assert (E : (List.length (Shapes.dropWhile is_space s')
                 =? List.length (c :: s'))%nat = false)
      by (apply Nat.eqb_neq; simpl; lia).
    rewrite E. cbn [andb List.length].
    fold any_s. rewrite IH by (simpl in Hlen; lia).
    now rewrite spaceRuns_in_run.
  - fold any_s. apply IH. simpl in Hlen. lia.
Qed.

(** X14: [wordCount] is one more than the number of runs of white space
    in the string, so it is never less than 1: the empty string counts one
    word, and white space at either end counts a word more. *)
Theorem wordCount_counts_runs (s : str) :
  Words.wordCount s = Z.of_nat (S (Shapes.spaceRuns false s))
  /\ (1 <= Words.wordCount s)%Z
  /\ Words.wordCount [] = 1%Z
  /\ (forall c, is_space c = true ->
        Words.wordCount (c :: s) = (Words.wordCount (trimStart s) + 1)%Z).
Proof.
  assert (W : forall u,
            Words.wordCount u = Z.of_nat (S (Shapes.spaceRuns false u))).
  { intros u. unfold Words.wordCount, split. destruct u as [|c r].
    - unfold any_s. rewrite plus_class_here. reflexivity.
    - now rewrite split_spaces_length by (simpl; lia). }
  split; [apply W|]. split; [rewrite W; lia|]. split; [reflexivity|].
  intros c Hc. rewrite !W. cbn [Shapes.spaceRuns]. rewrite Hc.
  rewrite spaceRuns_in_run, trimStart_dropWhile. lia.
Qed.

(** ** unescapeHtmlEntities *)

(** A pattern that starts with a given code unit leaves a string without
    that code unit as it is. *)
Lemma replace_without_first total (first : N) (r : re) f fuel :
  forall s,
  existsb (N.eqb first) s = false ->
  replace_fuel fuel total (Seq (chr first) r) f s = s.
Proof.
  induction fuel as [|fuel IH]; intros s Hs; [reflexivity|].
  cbn [replace_fuel]. unfold match_here, chr. cbn [bt].
  destruct s as [|c s']; [reflexivity|].
  cbn [existsb] in Hs. apply orb_false_iff in Hs. destruct Hs as [Hc Hs'].
  rewrite Hc. now rewrite IH.
Qed.

(** X15: a string without [&] comes back from [unescapeHtmlEntities] as it
    is, and so do [null] and the empty string. *)
Theorem unescapeHtmlEntities_without_ampersand (s : str) :
  existsb (N.eqb 38) s = false ->
  Unescape.unescapeHtmlEntities (Some s) = Some s
  /\ Unescape.unescapeHtmlEntities None = None
  /\ Unescape.unescapeHtmlEntities (Some []) = Some [].
Proof.
  intros Hs. split; [|split; reflexivity].
  unfold Unescape.unescapeHtmlEntities.
  destruct (truthy s); cbn [negb]; [|reflexivity].
  assert (E1 : replaceAll Unescape.namedEntity
                 (fun m => Unescape.HTML_ESCAPE_MAP
                             (Unescape.dropLast (Unescape.drop 1 m))) s = s).
  { unfold replaceAll, Unescape.namedEntity. cbn [seqs map].
    now apply replace_without_first. }
  rewrite E1. f_equal.
  unfold replaceAll, Unescape.numericEntity. cbn [seqs].
  now apply replace_without_first.
Qed.

Lemma unescapeHtmlEntities_without_ampersand_witness :
  Unescape.unescapeHtmlEntities (Some (lit "Tom <and> Jerry; #38"))
  = Some (lit "Tom <and> Jerry; #38")
  /\ Unescape.unescapeHtmlEntities None = None
  /\ Unescape.unescapeHtmlEntities (Some []) = Some [].
Proof.
  apply unescapeHtmlEntities_without_ampersand. reflexivity.
Defined.

(** ** simplifyDivs *)

Lemma trimStart_nil s : trimStart s = [] <-> forallb is_space s = true.
Proof.
  induction s as [|c s IH]; cbn; [tauto|].
  destruct (is_space c); [exact IH|]. split; discriminate.
Qed.

Lemma trim_nil s : trim s = [] <-> forallb is_space s = true.
Proof.
  rewrite <- trimStart_nil. unfold trim, trimEnd. split.
  - intros E. apply (f_equal (@rev N)) in E.
    rewrite rev_involutive in E. cbn [rev] in E.
    apply trimStart_nil in E. rewrite forallb_rev in E.
    pose proof (dropWhile_head s) as H.
    rewrite <- trimStart_dropWhile in H.
    destruct (trimStart s) as [|c t]; [reflexivity|].
    cbn in E, H. apply andb_true_iff in E. destruct E as [E _].
    rewrite E in H. discriminate.
  - intros ->. reflexivity.
Qed.

(** The normalized inner text is empty exactly when the text of the node
    is white space only. *)
Lemma innerText_empty n :
  getInnerText n true = [] <-> forallb is_space (textContent n) = true.
Proof.
  rewrite <- trim_nil. unfold getInnerText, replaceAll.
  set (s := trim (textContent n)).
  destruct (@replace_normalize (List.length s) (S (List.length s)) s
              ltac:(lia)) as (_ & H & _).
  split; intros E; apply H; exact E.
Qed.

Lemma isWhitespace_false n :
  Words.isWhitespace n = false <->
  forallb is_space (textContent n) = false /\ tagIs (lit "br") n = false.
Proof.
  unfold Words.isWhitespace. rewrite orb_false_iff.
  assert (E : (len (getInnerText n true) =? 0)%Z = false
              <-> forallb is_space (textContent n) = false).
  { rewrite <- not_true_iff_false, <- (not_true_iff_false (forallb _ _)).
    rewrite <- innerText_empty. unfold len.
    destruct (getInnerText n true); simpl; split; intros H; congruence. }
  now rewrite E.
Qed.

(** A paragraph that starts with a node that is not white space is not
    white space: the inner loop of [simplifyDivs] is never entered. *)
Lemma paragraph_not_whitespace c more :
  Words.isWhitespace c = false ->
  Words.isWhitespace (SimplifyDivs.paragraph (c :: more)) = false.
Proof.
  rewrite !isWhitespace_false. intros [H _]. split; [|reflexivity].
  unfold SimplifyDivs.paragraph, mkElement.
  cbn [JsString.eqb lit]. cbn [textContent flat_map].
  rewrite forallb_app, H. reflexivity.
Qed.

Lemma simplifyLoop_segments cs :
  (exists items,
      SimplifyDivs.simplifyLoop None cs = Some (map Segments.rendered items)
      /\ flat_map Segments.nodesOf items = cs
      /\ Forall Segments.wellShaped items
      /\ Segments.paragraphsAreMaximal items)
  /\ (forall c more,
        Phrasing.isPhrasingContent c = true ->
        Words.isWhitespace c = false ->
        forallb Phrasing.isPhrasingContent more = true ->
        exists taken items,
          SimplifyDivs.simplifyLoop (Some (c :: more)) cs
          = Some (SimplifyDivs.paragraph (c :: more ++ taken)
                  :: map Segments.rendered items)
          /\ taken ++ flat_map Segments.nodesOf items = cs
          /\ forallb Phrasing.isPhrasingContent taken = true
          /\ Forall Segments.wellShaped items
          /\ Segments.stopsAtBlock items
          /\ Segments.paragraphsAreMaximal items).
Proof.
  induction cs as [|c0 cs [IH1 IH2]].
  - split.
    + exists []. repeat split. constructor.
    + intros c more _ _ _. exists [], []. rewrite app_nil_r.
      repeat split. constructor.
  - split.
    + cbn [SimplifyDivs.simplifyLoop].
      destruct (Phrasing.isPhrasingContent c0) eqn:Ep.
      * destruct (Words.isWhitespace c0) eqn:Ew; cbn [negb].
        -- destruct IH1 as (items & E & F & S & M).
           exists (inl c0 :: items). rewrite E. repeat split.
           ++ cbn. now rewrite F.
           ++ constructor; [right; exact Ew | exact S].
           ++ exact M.
        -- destruct (IH2 c0 [] Ep Ew eq_refl) as (taken & items & E & F & P & S & B & M).
           exists (inr (c0 :: taken) :: items). rewrite E. repeat split.
           ++ cbn. now rewrite <- F.
           ++ constructor; [|exact S]. exists c0, taken. repeat split; assumption.
           ++ exact B.
           ++ exact M.
      * destruct IH1 as (items & E & F & S & M).
        exists (inl c0 :: items). rewrite E. repeat split.
        -- cbn. now rewrite F.
        -- constructor; [left; exact Ep | exact S].
        -- exact M.
    + intros c more Hc Hw Hmore. cbn [SimplifyDivs.simplifyLoop].
      destruct (Phrasing.isPhrasingContent c0) eqn:Ep.
      * change ((c :: more) ++ [c0]) with (c :: (more ++ [c0])).
        destruct (IH2 c (more ++ [c0]) Hc Hw) as (taken & items & E & F & P & S & B & M).
        { rewrite forallb_app, Hmore. cbn. now rewrite Ep. }
        exists (c0 :: taken), items. rewrite E, <- app_assoc. repeat split;
          try assumption.
        -- cbn. now rewrite F.
        -- cbn. now rewrite Ep, P.
      * rewrite (@paragraph_not_whitespace c more Hw).
        destruct IH1 as (items & E & F & S & M).
        exists [], (inl c0 :: items). rewrite E, app_nil_r. repeat split.
        -- cbn. now rewrite F.
        -- constructor; [left; exact Ep | exact S].
        -- exact Ep.
        -- exact M.
Qed.

(** X16: [simplifyDivs] always comes to an end (its inner loop is never
    entered) and only wraps: the children stay in their order, each run of
    phrasing content that starts with a node that is not white space and
    ends before the next node that is not phrasing content, or at the end,
    goes into a new [<p>], and every other child stays where it was. *)
Theorem simplifyDivs_wraps_phrasing_runs (ty : elementType) (t : str)
  (a : list (str * str)) (d : option bool) (cs : list node) :
  exists items,
    SimplifyDivs.simplifyDivs (Element ty t a d cs)
    = Some (Element ty t a d (map Segments.rendered items))
    /\ flat_map Segments.nodesOf items = cs
    /\ Forall Segments.wellShaped items
    /\ Segments.paragraphsAreMaximal items.
Proof.
  destruct (simplifyLoop_segments cs) as [(items & E & F & S & M) _].
  exists items. unfold SimplifyDivs.simplifyDivs. rewrite E.
  repeat split; assumption.
Qed.

(** ** getNextNode: the walk through the document *)

Lemma subAt_snoc l i :
  forall top,
  Walk.subAt top (l ++ [i])
  = match Walk.subAt top l with
    | Some m => nth_error (elementChildren m) i
    | None => None
    end.
Proof.
  induction l as [|j l IH]; intros top; cbn [app Walk.subAt].
  - destruct (nth_error (elementChildren top) i); reflexivity.
  - destruct (nth_error (elementChildren top) j); [apply IH | reflexivity].
Qed.

Lemma nodeAt_child doc base m i :
  Walk.nodeAt doc base = Some m ->
  Walk.nodeAt doc (i :: base) = nth_error (elementChildren m) i.
Proof.
  unfold Walk.nodeAt. intros H. cbn [rev]. now rewrite subAt_snoc, H.
Qed.

Lemma nth_error_skipn (A : Type) (l : list A) i :
  nth_error l i = hd_error (skipn i l).
Proof.
  revert l. induction i as [|i IH]; intros [|x l]; cbn; auto.
Qed.

Lemma skipn_step (A : Type) (l : list A) i x rest :
  skipn i l = x :: rest -> skipn (S i) l = rest.
Proof.
  revert l. induction i as [|i IH]; intros [|y l]; cbn; try discriminate.
  - intros E. now injection E.
  - apply IH.
Qed.

(** The walk below a list of children starts at the first element child. *)
Lemma walkChildren_head base cs i :
  match filter isTag cs with
  | [] => Walk.walkChildren Walk.walk base cs i = []
  | _ :: _ =>
      exists t, Walk.walkChildren Walk.walk base cs i = (i :: base) :: t
  end.
Proof.
  induction cs as [|c cs IH]; [reflexivity|].
  destruct c; cbn [filter isTag Walk.walkChildren]; try exact IH.
  eexists. reflexivity.
Qed.

Section WalkProperties.
Variable doc : node.

Let firstOr (l : list Walk.position) (fallback : option Walk.position) :=
  match l with q :: _ => Some q | [] => fallback end.

(** In the walk [order], which goes on at [fallback] when it is over, the
    element at [p] is followed by what is below it and then by [rest], and
    [getNextNode] gives the next position of the walk, or with
    [ignoreSelfAndKids] the first one after what is below [p]. *)
Let Good (order : list Walk.position) (fallback : option Walk.position)
  (p : Walk.position) : Prop :=
  exists pre n rest,
    Walk.nodeAt doc p = Some n
    /\ order = pre ++ p :: Walk.walk n p ++ rest
    /\ Walk.getNextNode doc p true = firstOr rest fallback
    /\ Walk.getNextNode doc p false = firstOr (Walk.walk n p ++ rest) fallback.

Lemma firstOr_app l more fallback :
  firstOr (l ++ more) fallback = firstOr l (firstOr more fallback).
Proof. destruct l; reflexivity. Qed.

Lemma Good_prepend before order fallback p :
  Good order fallback p -> Good (before ++ order) fallback p.
Proof.
  intros (pre & n & rest & H1 & H2 & H3 & H4).
  exists (before ++ pre), n, rest. rewrite H2, <- app_assoc. auto.
Qed.

Lemma Good_append order more fallback p :
  Good order (firstOr more fallback) p -> Good (order ++ more) fallback p.
Proof.
  intros (pre & n & rest & H1 & H2 & H3 & H4).
  exists pre, n, (rest ++ more). rewrite H2. repeat split.
  - exact H1.
  - rewrite <- !app_assoc. cbn [app]. now rewrite <- !app_assoc.
  - now rewrite firstOr_app.
  - now rewrite app_assoc, firstOr_app.
Qed.

Lemma walkChildren_good base m :
  Walk.nodeAt doc base = Some m ->
  forall cs,
  Forall (fun c => forall base', Walk.nodeAt doc base' = Some c ->
                   forall p, In p (Walk.walk c base') ->
                   Good (Walk.walk c base') (Walk.climb doc base') p) cs ->
  forall i, filter isTag cs = skipn i (elementChildren m) ->
  forall p, In p (Walk.walkChildren Walk.walk base cs i) ->
  Good (Walk.walkChildren Walk.walk base cs i) (Walk.climb doc base) p.
Proof.
  intros Hm cs IH. induction IH as [|c cs Hc _ IHcs]; intros i Hsuf p Hin;
    [destruct Hin|].
  destruct c as [ty t a d ccs| | | | |];
    try (cbn [filter isTag Walk.walkChildren] in *; now apply IHcs).
  cbn [filter isTag] in Hsuf. cbn [Walk.walkChildren] in Hin |- *.
  set (c := Element ty t a d ccs) in *.
  set (W' := Walk.walkChildren Walk.walk base cs (S i)) in *.
  assert (Hc_at : Walk.nodeAt doc (i :: base) = Some c).
  { rewrite (@nodeAt_child doc base m i Hm), nth_error_skipn, <- Hsuf. reflexivity. }
  assert (Hsuf' : filter isTag cs = skipn (S i) (elementChildren m)).
  { symmetry. eapply skipn_step. symmetry. exact Hsuf. }
  assert (K : match Walk.next doc (i :: base) with
              | Some q => Some q
              | None => Walk.climb doc base
              end = firstOr W' (Walk.climb doc base)).
  { unfold Walk.next.
    rewrite (@nodeAt_child doc base m (S i) Hm), nth_error_skipn, <- Hsuf'.
    pose proof (walkChildren_head base cs (S i)) as H. fold W' in H.
    destruct (filter isTag cs) as [|c' r].
    - rewrite H. reflexivity.
    - destruct H as [t' ->]. reflexivity. }
  assert (K' : Walk.climb doc (i :: base) = firstOr W' (Walk.climb doc base)).
  { exact K. }
  destruct Hin as [<-|Hin].
  - exists [], c, W'. split; [|split; [|split]].
    + exact Hc_at.
    + reflexivity.
    + unfold Walk.getNextNode. cbn [tl]. exact K.
    + unfold Walk.getNextNode, Walk.firstChild. rewrite Hc_at.
      pose proof (walkChildren_head (i :: base) ccs 0) as H.
      change (Walk.walkChildren Walk.walk (i :: base) ccs 0)
        with (Walk.walk c (i :: base)) in H.
      change (elementChildren c) with (filter isTag ccs).
      destruct (filter isTag ccs) as [|c' r].
      * rewrite H. cbn [tl app]. exact K.
      * destruct H as [t' ->]. reflexivity.
  - apply in_app_or in Hin. destruct Hin as [Hin|Hin].
    + apply (Good_prepend [i :: base]).
      apply Good_append. rewrite <- K'. now apply Hc.
    + apply (Good_prepend ((i :: base) :: Walk.walk c (i :: base))).
      now apply IHcs.
Qed.

Lemma walk_good n :
  forall base, Walk.nodeAt doc base = Some n ->
  forall p, In p (Walk.walk n base) ->
  Good (Walk.walk n base) (Walk.climb doc base) p.
Proof.
  induction n as [ty t a d cs IH| | | |cs IH|cs IH] using node_induction;
    intros base Hn p Hin; try destruct Hin;
    cbn [Walk.walk]; eapply walkChildren_good; eauto.
Qed.

(** The walk meets the elements that a search below the node finds, in
    the same order. *)
Lemma walk_descendants n :
  forall base, Walk.nodeAt doc base = Some n ->
  map (Walk.nodeAt doc) (Walk.walk n base) = map Some (descendants n).
Proof.
  assert (Step : forall base m cs,
            Walk.nodeAt doc base = Some m ->
            Forall (fun c => forall base', Walk.nodeAt doc base' = Some c ->
                             map (Walk.nodeAt doc) (Walk.walk c base')
                             = map Some (descendants c)) cs ->
            forall i, filter isTag cs = skipn i (elementChildren m) ->
            map (Walk.nodeAt doc) (Walk.walkChildren Walk.walk base cs i)
            = map Some (flat_map withDescendants cs)).
  { intros base m cs Hm IH.
    induction IH as [|c cs Hc _ IHcs]; intros i Hsuf; [reflexivity|].
    destruct c as [ty t a d ccs| | | | |];
      try (cbn [filter isTag Walk.walkChildren flat_map withDescendants app]
             in *; now apply IHcs).
    cbn [filter isTag] in Hsuf.
    cbn [Walk.walkChildren flat_map withDescendants].
    set (c := Element ty t a d ccs) in *.
    assert (Hc_at : Walk.nodeAt doc (i :: base) = Some c).
    { rewrite (@nodeAt_child doc base m i Hm), nth_error_skipn, <- Hsuf.
      reflexivity. }
    rewrite !map_app. cbn [map app]. rewrite Hc_at. f_equal. f_equal.
    - exact (Hc _ Hc_at).
    - apply (IHcs (S i)).
      symmetry. eapply skipn_step. symmetry. exact Hsuf. }
  induction n as [ty t a d cs IH| | | |cs IH|cs IH] using node_induction;
    intros base Hn; try reflexivity;
    rewrite descendants_children; cbn [Walk.walk];
    eapply Step; eauto.
Qed.

(** X17: called in a loop, [getNextNode] goes through the elements of the
    document in document order, the order in which a search finds them:
    the element at a position is followed in the walk by the elements
    below it and then by the rest; [getNextNode] gives the position that
    comes next in the walk, with [ignoreSelfAndKids] the first position
    after the elements below, and [null] when the walk is over. *)
Theorem getNextNode_document_order :
  map (Walk.nodeAt doc) (Walk.walk doc []) = map Some (descendants doc)
  /\ forall p,
       In p (Walk.walk doc []) ->
       exists pre n rest,
         Walk.nodeAt doc p = Some n
         /\ Walk.walk doc [] = pre ++ p :: Walk.walk n p ++ rest
         /\ Walk.getNextNode doc p true = hd_error rest
         /\ Walk.getNextNode doc p false = hd_error (Walk.walk n p ++ rest).
Proof.
  split; [now apply walk_descendants|].
  intros p Hin.
  destruct (@walk_good doc [] eq_refl p Hin) as (pre & n & rest & H1 & H2 & H3 & H4).
  exists pre, n, rest.
  split; [exact H1|]. split; [exact H2|]. split.
  - rewrite H3. destruct rest; reflexivity.
  - rewrite H4. destruct (Walk.walk n p ++ rest); reflexivity.
Qed.
End WalkProperties.

(** ** Removing and renaming nodes *)

(** X18: entered at the root of a document, [removeComments] leaves no
    comment, directive or CDATA section below the root or below an element
    of type [tag], and it removes no element: the tags found below the
    root are the same as before. *)
Theorem removeComments_at_root (cs : list node) :
  Shapes.commentLeft (removeComments TheRoot (Root cs)) = false
  /\ map tagName (descendants (removeComments TheRoot (Root cs)))
     = map tagName (descendants (Root cs)).
Proof.
  unfold removeComments.
  assert (G : forall n,
            match n with
            | Comment _ | Directive _ | CDATA _ => True
            | _ =>
                Shapes.commentLeft (removeCommentsBelow n) = false
                /\ tagName (removeCommentsBelow n) = tagName n
                /\ map tagName (descendants (removeCommentsBelow n))
                   = map tagName (descendants n)
            end).
  { assert (Step : forall cs0,
              Forall (fun n =>
                        match n with
                        | Comment _ | Directive _ | CDATA _ => True
                        | _ =>
                            Shapes.commentLeft (removeCommentsBelow n) = false
                            /\ tagName (removeCommentsBelow n) = tagName n
                            /\ map tagName (descendants (removeCommentsBelow n))
                               = map tagName (descendants n)
                        end) cs0 ->
              let go :=
                fix go (l : list node) : list node :=
                  match l with
                  | [] => []
                  | c :: l' =>
                      match c with
                      | Comment _ | Directive _ | CDATA _ => go l'
                      | _ => removeCommentsBelow c :: go l'
                      end
                  end in
              existsb Shapes.commentLeft (go cs0) = false
              /\ map tagName (flat_map withDescendants (go cs0))
                 = map tagName (flat_map withDescendants cs0)).
    { intros cs0 IH. cbv zeta.
      induction IH as [|c l Hc _ IHl]; [split; reflexivity|].
      destruct IHl as [I1 I2].
      destruct c as [ty t a d ccs|data|data|data|ccs|ccs];
        try (split; [exact I1 | exact I2]).
      - destruct Hc as (H1 & H2 & H3).
        cbn [existsb flat_map]. rewrite H1, I1, !map_app, I2.
        split; [reflexivity|]. f_equal.
        destruct ty; cbn [removeCommentsBelow withDescendants map] in *;
          try reflexivity.
        f_equal. exact H3.
      - destruct Hc as (H1 & H2 & H3).
        cbn [existsb flat_map]. rewrite H1, I1.
        split; [reflexivity|].
        cbn [removeCommentsBelow withDescendants app]. exact I2. }
    induction n as [ty t a d cs0 IH| | | |cs0 IH|cs0 IH] using node_induction;
      try exact I; try (repeat split; reflexivity).
    - destruct ty; try (repeat split; reflexivity).
      cbn [removeCommentsBelow Shapes.commentLeft tagName].
      rewrite !descendants_children.
      destruct (Step cs0 IH) as [S1 S2]. cbv zeta in S1, S2.
      split; [exact S1|]. split; [reflexivity | exact S2].
    - cbn [removeCommentsBelow Shapes.commentLeft tagName].
      rewrite !descendants_children.
      destruct (Step cs0 IH) as [S1 S2]. cbv zeta in S1, S2.
      split; [exact S1|]. split; [reflexivity | exact S2]. }
  destruct (G (Root cs)) as (H1 & _ & H3). split; assumption.
Qed.

(** X19: [replaceNodeTags($el.find(from), to)] leaves no element with one
    of the tags [from] below [$el] when [to] is not one of them, and it
    changes neither the text nor the number of elements. *)
Theorem renameBelow_renames_all (from : list str) (to : str) (n : node) :
  mem to from = false ->
  find from (renameBelow from to n) = []
  /\ textContent (renameBelow from to n) = textContent n
  /\ List.length (descendants (renameBelow from to n))
     = List.length (descendants n).
Proof.
  intros Hto.
  assert (Step : forall cs,
            Forall (fun c => (filter (tagIn from)
                                (descendants (renameBelow from to c)) = []
                              /\ textContent (renameBelow from to c)
                                 = textContent c
                              /\ List.length
                                   (descendants (renameBelow from to c))
                                 = List.length (descendants c))) cs ->
            let rename := fun c =>
              match renameBelow from to c with
              | Element ty t a d cs0 =>
                  if tagIn from c then Element ty to a d cs0
                  else Element ty t a d cs0
              | c' => c'
              end in
            filter (tagIn from) (flat_map withDescendants (map rename cs)) = []
            /\ flat_map textContent (map rename cs) = flat_map textContent cs
            /\ List.length (flat_map withDescendants (map rename cs))
               = List.length (flat_map withDescendants cs)).
  { intros cs IH. cbv zeta.
    induction IH as [|c cs (H1 & H2 & H3) _ (I1 & I2 & I3)];
      [repeat split|].
    cbn [map flat_map]. rewrite filter_app, !length_app, I1, I2, I3.
    destruct c as [ty t a d ccs| | | | |];
      try (cbn [renameBelow withDescendants filter textContent app
                  List.length]; repeat split; reflexivity).
    2:{ cbn [renameBelow] in H2 |- *.
        cbn [withDescendants filter List.length app]. rewrite H2.
        repeat split; reflexivity. }
    cbn [renameBelow] in H1, H2, H3 |- *.
    cbn [textContent] in H2 |- *. cbn [descendants] in H1, H3.
    destruct (tagIn from (Element ty t a d ccs)) eqn:Et.
    - cbn [withDescendants filter textContent List.length].
      assert (E : tagIn from (Element ty to a d
                    (map (fun c => match renameBelow from to c with
                                   | Element ty0 t0 a0 d0 cs0 =>
                                       if tagIn from c
                                       then Element ty0 to a0 d0 cs0
                                       else Element ty0 t0 a0 d0 cs0
                                   | c' => c'
                                   end) ccs)) = false) by exact Hto.
      rewrite E. cbn [descendants]. rewrite H1, H2, H3.
      repeat split; reflexivity.
    - cbn [withDescendants filter textContent List.length].
      rewrite (tagIn_retag from ty t a d _ ty a d ccs), Et.
      cbn [descendants]. rewrite H1, H2, H3. repeat split; reflexivity. }
  unfold find.
  induction n as [ty t a d cs IH| | | |cs IH|cs IH] using node_induction;
    try (repeat split; reflexivity).
  - cbn [renameBelow textContent]. rewrite !descendants_children.
    exact (Step cs IH).
  - cbn [renameBelow textContent]. rewrite !descendants_children.
    exact (Step cs IH).
Qed.

Lemma renameBelow_renames_all_witness :
  find [lit "font"]
    (renameBelow [lit "font"] (lit "span")
       (Examples.el "div" []
          [Examples.el "font" [] [Examples.txt "a"; Examples.el "font" [] []]]))
  = []
  /\ textContent
       (renameBelow [lit "font"] (lit "span")
          (Examples.el "div" []
             [Examples.el "font" []
                [Examples.txt "a"; Examples.el "font" [] []]]))
     = textContent
         (Examples.el "div" []
            [Examples.el "font" [] [Examples.txt "a"; Examples.el "font" [] []]])
  /\ List.length
       (descendants
          (renameBelow [lit "font"] (lit "span")
             (Examples.el "div" []
                [Examples.el "font" []
                   [Examples.txt "a"; Examples.el "font" [] []]])))
     = List.length
         (descendants
            (Examples.el "div" []
               [Examples.el "font" []
                  [Examples.txt "a"; Examples.el "font" [] []]])).
Proof.
  apply renameBelow_renames_all. reflexivity.
Defined.

(** ** The unconditional cleaning passes *)

(** What [removeNodes] leaves of a collection fails the test, when the
    test looks at the node only. *)
Lemma removeNodesBelow_survivors sel (f : node -> bool) n :
  forall up,
  forallb (fun x => negb (sel x && f x))
    (descendants (removeNodesBelow sel (fun _ => f) up n)) = true.
Proof.
  assert (Step : forall up cs,
            Forall (fun c => forall up0,
                      forallb (fun x => negb (sel x && f x))
                        (descendants
                           (removeNodesBelow sel (fun _ => f) up0 c))
                      = true) cs ->
            forallb (fun x => negb (sel x && f x))
              (flat_map withDescendants
                 (prune (removeNodesBelow sel (fun _ => f) up)
                    (fun c => sel c && f c) cs)) = true).
  { intros up cs IH. induction IH as [|c cs Hc _ IHcs]; [reflexivity|].
    cbn [prune].
    destruct (sel (removeNodesBelow sel (fun _ => f) up c)
              && f (removeNodesBelow sel (fun _ => f) up c)) eqn:E;
      [exact IHcs|].
    cbn [flat_map]. rewrite forallb_app, IHcs, andb_true_r.
    specialize (Hc up).
    destruct (removeNodesBelow sel (fun _ => f) up c) eqn:Ec;
      try reflexivity.
    cbn [withDescendants forallb]. now rewrite E, Hc. }
  induction n as [ty t a d cs IH| | | |cs IH|cs IH] using node_induction;
    intros up; try reflexivity;
    cbn [removeNodesBelow]; rewrite descendants_children; now apply Step.
Qed.

Lemma forallb_filter_imp (A : Type) (p q : A -> bool) l :
  forallb (fun x => negb (p x) || q x) l = true ->
  forallb q (filter p l) = true.
Proof.
  induction l as [|x l IH]; [reflexivity|]. cbn [forallb filter].
  intros H. apply andb_true_iff in H. destruct H as [H1 H2].
  destruct (p x); cbn [forallb]; [|auto].
  cbn in H1. now rewrite H1, IH.
Qed.

Section CleanProperties.
Variable html : node -> option str.
Variable options : Options.
Variable flags : Z.

(** X20: after [clean($el, tag)] every element with the tag that is left
    below [$el] is an embed let through by [allowedVideoRegex]; for a tag
    other than [object], [embed] and [iframe] none is left at all. *)
Theorem clean_leaves_allowed_videos (ancestors : list node) (el : node)
  (tag : str) :
  forallb (isAllowedVideo html options)
    (find [tag] (Scoring.clean html options ancestors el tag)) = true
  /\ (mem tag (map lit ["object"; "embed"; "iframe"]%string) = false ->
      find [tag] (Scoring.clean html options ancestors el tag) = []).
Proof.
  unfold Scoring.clean, find.
  set (isEmbed := mem tag (map lit ["object"; "embed"; "iframe"]%string)).
  set (f := fun node => if isEmbed
                        then negb (isAllowedVideo html options node)
                        else true).
  pose proof (@removeNodesBelow_survivors (tagIs tag) f el ancestors) as S.
  fold f in S. split.
  - apply forallb_filter_imp.
    rewrite forallb_forall in S |- *. intros x Hx. specialize (S x Hx).
    unfold tagIn. cbn [existsb]. rewrite orb_false_r.
    destruct (tagIs tag x); [|reflexivity]. cbn [andb negb orb] in *.
    unfold f in S. destruct isEmbed; [|discriminate].
    now rewrite negb_involutive in S.
  - intros Hne.
    assert (Hf : forall x, f x = true) by (intros x; unfold f; now rewrite Hne).
    revert S.
    generalize (descendants
                  (removeNodesBelow (tagIs tag) (fun _ => f) ancestors el)).
    intros l S. induction l as [|x l IH]; [reflexivity|].
    cbn [forallb filter] in *. apply andb_true_iff in S.
    destruct S as [S1 S2]. unfold tagIn. cbn [existsb].
    rewrite Hf, andb_true_r in S1. apply negb_true_iff in S1.
    rewrite S1. cbn [orb]. now apply IH.
Qed.

(** X21: after [cleanHeaders($el)] no [h1] or [h2] with a negative class
    weight is left below [$el]. *)
Theorem cleanHeaders_leaves_no_negative_header (ancestors : list node)
  (el : node) :
  forallb (fun h => (0 <=? getClassWeight flags h)%Z)
    (find [lit "h1"; lit "h2"] (Scoring.cleanHeaders flags ancestors el))
  = true.
Proof.
  unfold Scoring.cleanHeaders, find. apply forallb_filter_imp.
  pose proof (@removeNodesBelow_survivors (tagIn [lit "h1"; lit "h2"])
                (fun node => (getClassWeight flags node <? 0)%Z)
                el ancestors) as S.
  rewrite forallb_forall in S |- *. intros x Hx. specialize (S x Hx).
  destruct (tagIn [lit "h1"; lit "h2"] x); [|reflexivity].
  cbn [andb negb orb] in *. apply negb_true_iff in S.
  apply Z.ltb_ge in S. now apply Z.leb_le.
Qed.
End CleanProperties.

(** ** cleanClasses *)

Lemma forallb_filter_same (A : Type) (p : A -> bool) l :
  forallb p (filter p l) = true.
Proof.
  induction l as [|x l IH]; [reflexivity|]. cbn [filter].
  destruct (p x) eqn:E; [cbn; now rewrite E|exact IH].
Qed.

(** X22: after [cleanClasses] every class attribute that is left, on the
    element or below it, is a non-empty list of classes of
    [classesToPreserve] joined by spaces; with an empty [classesToPreserve]
    no class attribute is left; the text stays as it is. *)
Theorem cleanClasses_keeps_preserved_only (classesToPreserve : list str)
  (n : node) :
  Forall (fun x =>
            match attr x (lit "class") with
            | Some c =>
                c <> []
                /\ exists classes,
                     c = join (lit " ") classes
                     /\ forallb (fun cls => mem cls classesToPreserve) classes
                        = true
            | None => True
            end)
    (withDescendants (PostProcess.cleanClasses classesToPreserve n))
  /\ (classesToPreserve = [] ->
      Forall (fun x => attr x (lit "class") = None)
        (withDescendants (PostProcess.cleanClasses classesToPreserve n)))
  /\ textContent (PostProcess.cleanClasses classesToPreserve n)
     = textContent n.
Proof.
  assert (G : Forall (fun x =>
                match attr x (lit "class") with
                | Some c =>
                    c <> []
                    /\ exists classes,
                         c = join (lit " ") classes
                         /\ forallb (fun cls => mem cls classesToPreserve)
                              classes = true
                | None => True
                end)
                (withDescendants (PostProcess.cleanClasses classesToPreserve n))
              /\ textContent (PostProcess.cleanClasses classesToPreserve n)
                 = textContent n).
  { induction n as [ty t a d cs IH| | | |cs IH|cs IH] using node_induction;
      try (split; [constructor | reflexivity]).
    cbn [PostProcess.cleanClasses withDescendants textContent].
    rewrite descendants_children.
    set (className := join (lit " ") (filter _ _)).
    split.
    - constructor.
      + unfold attr. cbn [attributes].
        destruct (truthy className) eqn:Et.
        * rewrite lookup_setAttr_same. split.
          -- destruct className; [discriminate | discriminate].
          -- eexists. split; [reflexivity|]. apply forallb_filter_same.
        * unfold removeAttr.
          now rewrite (lookup_filter_out
                         (fun k => negb (JsString.eqb k (lit "class")))).
      + apply Forall_flat_map, Forall_map.
        eapply Forall_impl; [|exact IH]. intros c [H _]. exact H.
    - induction IH as [|c cs [_ H] _ IHcs]; [reflexivity|].
      cbn [map flat_map]. now rewrite H, IHcs. }
  destruct G as [G1 G2]. split; [exact G1|]. split; [|exact G2].
  intros ->. eapply Forall_impl; [|exact G1]. intros x. cbv beta.
  destruct (attr x (lit "class")) as [c|]; [|reflexivity].
  intros (Hne & classes & -> & Hall). exfalso. apply Hne.
  destruct classes as [|cls rest]; [reflexivity|].
  cbn in Hall. discriminate.
Qed.

(** ** hasSingleTagInsideElement *)

(** X23: [hasSingleTagInsideElement] holds exactly when the element has
    one child of type [tag], which carries the tag asked for, and every
    text child is empty or ends in white space: text that ends in white
    space does not count as content, whatever stands before the end. *)
Theorem hasSingleTagInsideElement_shape (element : node) (tag : str) :
  PostProcess.hasSingleTagInsideElement element tag = true
  <-> (exists child,
          filter typeIsTag (childNodes element) = [child]
          /\ tagIs tag child = true)
      /\ Forall (fun n =>
                   match n with
                   | Text data =>
                       match rev data with
                       | c :: _ => is_space c = true
                       | [] => True
                       end
                   | _ => True
                   end) (childNodes element).
Proof.
  unfold PostProcess.hasSingleTagInsideElement.
  assert (T : forall l,
            existsb (fun n => match n with
                              | Text data => test Regexes.hasContent data
                              | _ => false
                              end) l = false
            <-> Forall (fun n =>
                          match n with
                          | Text data =>
                              match rev data with
                              | c :: _ => is_space c = true
                              | [] => True
                              end
                          | _ => True
                          end) l).
  { induction l as [|n l IH]; cbn [existsb].
    - split; [constructor | reflexivity].
    - rewrite orb_false_iff, IH. split.
      + intros [H1 H2]. constructor; [|exact H2].
        destruct n as [| data | | | |]; try exact I.
        rewrite hasContent_last in H1.
        destruct (rev data) as [|c r]; [exact I|].
        now apply negb_false_iff in H1.
      + intros H. inversion H as [|? ? H1 H2]; subst. split; [|exact H2].
        destruct n as [| data | | | |]; try reflexivity.
        rewrite hasContent_last.
        destruct (rev data) as [|c r]; [reflexivity|].
        now apply negb_false_iff. }
  destruct (filter typeIsTag (childNodes element)) as [|child [|c2 r]].
  - split; [discriminate|]. intros [(c & E & _) _]. discriminate.
  - rewrite andb_true_iff, negb_true_iff, T. split.
    + intros [H1 H2]. split; [exists child; split; [reflexivity|exact H1]|exact H2].
    + intros [(c & E & H1) H2]. injection E as <-. split; assumption.
  - split; [discriminate|]. intros [(c & E & _) _]. discriminate.
Qed.

(** ** Tables *)



(** X25: [markDataTables] gives every table below the element a verdict
    and changes nothing else: the tags, the attributes and the text below
    the element stay as they are. *)
Theorem markDataTables_marks_every_table (el : node) :
  forallb (fun x =>
             negb (tagIs (lit "table") x)
             || match x with
                | Element _ _ _ (Some _) _ => true
                | _ => false
                end)
    (descendants (markDataTables el)) = true
  /\ map (fun x => (tagName x, attributes x)) (descendants (markDataTables el))
     = map (fun x => (tagName x, attributes x)) (descendants el)
  /\ textContent (markDataTables el) = textContent el.
Proof.
  unfold markDataTables.
  set (ok := fun x : node =>
               negb (tagIs (lit "table") x)
               || match x with
                  | Element _ _ _ (Some _) _ => true
                  | _ => false
                  end).
  set (sig := fun x : node => (tagName x, attributes x)).
  assert (Step : forall cs,
            Forall (fun c => forallb ok (descendants (markBelow c)) = true
                             /\ map sig (descendants (markBelow c))
                                = map sig (descendants c)
                             /\ textContent (markBelow c) = textContent c) cs ->
            let mark := fun c =>
              match markBelow c with
              | Element ty t a d cs0 =>
                  if JsString.eqb t (lit "table")
                  then Element ty t a (Some (dataTableVerdict c)) cs0
                  else Element ty t a d cs0
              | c' => c'
              end in
            forallb ok (flat_map withDescendants (map mark cs)) = true
            /\ map sig (flat_map withDescendants (map mark cs))
               = map sig (flat_map withDescendants cs)
            /\ flat_map textContent (map mark cs) = flat_map textContent cs).
  { intros cs IH. cbv zeta.
    induction IH as [|c cs (H1 & H2 & H3) _ (I1 & I2 & I3)];
      [repeat split|].
    cbn [map flat_map]. rewrite forallb_app, !map_app, I1, I2, I3.
    destruct c as [ty t a d ccs| | | | |];
      try (cbn [markBelow withDescendants forallb textContent app map];
           repeat split; reflexivity).
    2:{ cbn [markBelow] in H3 |- *.
        cbn [withDescendants forallb map app]. rewrite H3.
        repeat split; reflexivity. }
    cbn [markBelow] in H1, H2, H3 |- *.
    cbn [textContent] in H3 |- *. cbn [descendants] in H1, H2.
    destruct (JsString.eqb t (lit "table")) eqn:Et;
      cbn [withDescendants forallb map textContent descendants];
      rewrite H1, H2, H3; unfold ok at 1; cbn [tagIs]; rewrite Et;
      repeat split; reflexivity. }
  induction el as [ty t a d cs IH| | | |cs IH|cs IH] using node_induction;
    try (repeat split; reflexivity).
  - cbn [markBelow textContent]. rewrite !descendants_children.
    exact (Step cs IH).
  - cbn [markBelow textContent]. rewrite !descendants_children.
    exact (Step cs IH).
Qed.

(** ** White space and similarity *)

(** X26: [isWhitespace] holds of a node exactly when its text is white
    space only (or empty), or the node is a [br] element. *)
Theorem isWhitespace_meaning (n : node) :
  Words.isWhitespace n
  = forallb is_space (textContent n) || tagIs (lit "br") n.
Proof.
  destruct (forallb is_space (textContent n) || tagIs (lit "br") n) eqn:F.
  - destruct (Words.isWhitespace n) eqn:E; [reflexivity|].
    apply isWhitespace_false in E. destruct E as [E1 E2].
    rewrite E1, E2 in F. discriminate.
  - apply orb_false_iff in F. now apply isWhitespace_false.
Qed.

Lemma tokens_without_words s :
  forallb (fun c => negb (is_word c)) (toLowerCase s) = true ->
  tokens s = [].
Proof.
  intros H. unfold tokens, split, Regexes.tokenize.
  destruct (toLowerCase s) as [|c r] eqn:E.
  - rewrite plus_class_here. reflexivity.
  - assert (P : Forall (fun t =>
                          forallb (fun c => negb (negb (is_word c))
                                            && negb (is_word c)) t = true)
                  (split_fuel (2 * List.length (c :: r) + 2)
                     (List.length (c :: r))
                     (plus (Chr (fun c => negb (is_word c)))) [] (c :: r))).
    { apply split_class_pieces; [simpl; lia | exact H | reflexivity]. }
    induction P as [|t l Ht _ IH]; [reflexivity|].
    cbn [filter]. destruct t as [|x t]; [exact IH|].
    cbn [forallb] in Ht. destruct (is_word x); discriminate.
Qed.

(** X27: [textSimilarity] is 0 as soon as one of the two texts has no
    letter of [a-z], digit or underscore once in lower case: for empty
    texts, and for texts in another script even when the two are equal. *)
Theorem textSimilarity_without_words (textA textB : str) :
  forallb (fun c => negb (is_word c)) (toLowerCase textA) = true
  \/ forallb (fun c => negb (is_word c)) (toLowerCase textB) = true ->
  textSimilarity textA textB = 0%float.
Proof.
  intros [H|H]; unfold textSimilarity; rewrite (tokens_without_words _ H);
    [reflexivity|].
  destruct (tokens textA); reflexivity.
Qed.

Lemma textSimilarity_without_words_witness :
  textSimilarity [0x4E2D; 0x6587]%N [0x4E2D; 0x6587]%N = 0%float.
Proof.
  apply textSimilarity_without_words. left. reflexivity.
Defined.

(** The cases of the repository's test of [simplifyDivs]. *)
Example simplifyDivs_test_cases :
  SimplifyDivs.simplifyDivs MoreExamples.mixedContent
  = Some (Examples.el "div" [("id", "content")]%string
            [Examples.el "p" []
               [Examples.txt "Some text";
                Examples.el "span" [] [Examples.txt "Inline text"];
                Examples.txt "More text"];
             Examples.el "div" [] [Examples.txt "Block content"];
             Examples.el "p" [] [Examples.txt "Even more text"]])
  /\ SimplifyDivs.simplifyDivs MoreExamples.inlineOnly
     = Some (Examples.el "div" [("id", "content")]%string
               [Examples.el "p" [] (childNodes MoreExamples.inlineOnly)])
  /\ SimplifyDivs.simplifyDivs (Examples.el "div" [("id", "content")]%string [])
     = Some (Examples.el "div" [("id", "content")]%string []).
Proof. repeat split; vm_compute; reflexivity. Qed.

(** ** Bylines *)

Lemma replace_normalize_length total fuel :
  forall s, (List.length s < fuel)%nat ->
  (List.length (replace_fuel fuel total Regexes.normalize
                  (fun _ => lit " ") s) <= List.length s)%nat.
Proof.
  induction fuel as [|fuel IH]; intros s Hlen; [lia|].
  cbn [replace_fuel]. rewrite normalize_here.
  destruct s as [|a [|b s']].
  - simpl. lia.
  - destruct fuel; [simpl in Hlen; lia|]. cbn [replace_fuel].
    rewrite normalize_here. simpl. lia.
  - destruct (is_space a && is_space b).
    + pose proof (dropWhile_length is_space s') as Hr.
      replace (List.length (a :: b :: s')
               - List.length (Shapes.dropWhile is_space s'))%nat
        with (S (S (List.length s')
                 - List.length (Shapes.dropWhile is_space s')))%nat
        by (cbn [List.length]; lia).
      cbn [firstn]. rewrite length_app.
      specialize (IH (Shapes.dropWhile is_space s')
                    ltac:(simpl in Hlen; lia)).
      change (List.length (lit " ")) with 1%nat.
      cbn [List.length]. lia.
    + specialize (IH (b :: s') ltac:(simpl in Hlen |- *; lia)).
      cbn [List.length] in IH |- *. lia.
Qed.

(** The normalized inner text of a node whose text is a valid byline is
    not empty and shorter than 100 code units. *)
Lemma valid_byline_text n :
  Words.isValidByline (textContent n) = true ->
  (0 < len (getInnerText n true) < 100)%Z.
Proof.
  unfold Words.isValidByline, getInnerText, replaceAll, len.
  set (s := trim (textContent n)).
  intros H. apply andb_true_iff in H. destruct H as [H1 H2].
  apply Z.ltb_lt in H1, H2.
  pose proof (@replace_normalize_length (List.length s) (S (List.length s)) s
                ltac:(lia)) as L.
  destruct (@replace_normalize (List.length s) (S (List.length s)) s
              ltac:(lia)) as (_ & E & _).
  destruct (replace_fuel _ _ _ _ s) as [|x out] eqn:Eo.
  - destruct E as [_ E]. rewrite (E eq_refl) in H1. simpl in H1. lia.
  - simpl in L |- *. lia.
Qed.

(** X28: a byline that [extractByline] or [checkByline] returns is the
    normalized text of the node, not empty and shorter than 100 code
    units; [checkByline] never replaces a byline found before, and leaves
    the field alone when it answers false. *)
Theorem byline_is_short_text (n : node) (matchString : str)
  (articleByline : option str) :
  (forall text,
      Byline.extractByline n matchString = Some text ->
      text = getInnerText n true /\ (0 < len text < 100)%Z)
  /\ (forall found,
        Byline.checkByline articleByline n matchString = (true, found) ->
        Metadata.someTruthy articleByline = false
        /\ found = Some (getInnerText n true)
        /\ (0 < len (getInnerText n true) < 100)%Z)
  /\ (forall after,
        Byline.checkByline articleByline n matchString = (false, after) ->
        after = articleByline).
Proof.
  split; [|split].
  - intros text. unfold Byline.extractByline.
    destruct (Words.isValidByline (textContent n)) eqn:V; cbn [negb];
      [|discriminate].
    pose proof (valid_byline_text n V) as B.
    destruct (Byline.isAuthor n); [intros E; injection E as <-; auto|].
    destruct (Byline.hasAuthorItemprop n); [intros E; injection E as <-; auto|].
    destruct (test Byline.MATCH_ID_AND_CLASS matchString);
      [intros E; injection E as <-; auto | discriminate].
  - intros found. unfold Byline.checkByline.
    destruct (Metadata.someTruthy articleByline); [discriminate|].
    destruct (Words.isValidByline (textContent n)) eqn:V.
    + destruct (Byline.isAuthor n || Byline.hasAuthorItemprop n
                || test Byline.byline matchString); cbn [andb];
        [|discriminate].
      intros E. injection E as <-. repeat split; try reflexivity;
        apply (valid_byline_text n V).
    + rewrite andb_false_r. discriminate.
  - intros after. unfold Byline.checkByline.
    destruct (Metadata.someTruthy articleByline);
      [intros E; now injection E|].
    destruct (_ && _); [discriminate | intros E; now injection E].
Qed.

(** ** Headers that repeat the title *)

(** X29: [headerDuplicatesTitle] is false for every element that is not an
    [h1] or an [h2], without a title, and whenever the title or the heading
    holds no letter of [a-z], digit or underscore once in lower case: a
    heading in another script is never taken for the title, even when it
    is the title. *)
Theorem headerDuplicatesTitle_needs_ascii_words (articleTitle : option str)
  (el : node) :
  (tagIn [lit "h1"; lit "h2"] el = false ->
   Headers.headerDuplicatesTitle articleTitle el = false)
  /\ Headers.headerDuplicatesTitle None el = false
  /\ (forall title,
        articleTitle = Some title ->
        forallb (fun c => negb (is_word c)) (toLowerCase title) = true
        \/ forallb (fun c => negb (is_word c))
             (toLowerCase (getInnerText el false)) = true ->
        Headers.headerDuplicatesTitle articleTitle el = false).
Proof.
  unfold Headers.headerDuplicatesTitle. split; [|split].
  - intros ->. reflexivity.
  - destruct (negb _); reflexivity.
  - intros title -> H. destruct (negb _); [reflexivity|].
    destruct (truthy title); [|reflexivity].
    assert (E : textSimilarity title (getInnerText el false) = 0%float).
    { destruct H as [H|H]; unfold textSimilarity;
        rewrite (tokens_without_words _ H); [reflexivity|].
      destruct (tokens title); reflexivity. }
    rewrite E. reflexivity.
Qed.

(** ** fixRelativeUris without a base URI *)

Lemma setAttr_same name value a :
  lookup name a = Some value -> setAttr name value a = a.
Proof.
  induction a as [|[k v] a IH]; cbn [lookup setAttr]; [discriminate|].
  destruct (JsString.eqb k name); intros E.
  - injection E as ->. reflexivity.
  - now rewrite IH.
Qed.

Section WithoutBaseURI.
Variable newURL : str -> str -> option str.
Variable parseHTML : str -> list node.
Variable rewriteSrcset : str -> str -> option str.
Variable options : Options.
Hypothesis noBase : baseURI options = None.

Let safe (x : node) : bool :=
  negb (tagIs (lit "a") x)
  || match attr x (lit "href") with
     | Some href => negb (includes href (lit "javascript:"))
     | None => true
     end.

Lemma fixLinksAt_unchanged n :
  forallb safe (withDescendants n) = true ->
  PostProcess.fixLinksAt newURL parseHTML None n = Some [n].
Proof.
  induction n as [ty t a d cs IH| | | |cs IH|cs IH] using node_induction;
    intros H; try reflexivity.
  cbn [withDescendants forallb] in H. apply andb_true_iff in H.
  destruct H as [Hself Hbelow].
  rewrite descendants_children, forallb_flat_map in Hbelow.
  assert (B : flatMapOpt (PostProcess.fixLinksAt newURL parseHTML None) cs
              = Some cs).
  { clear Hself. induction IH as [|c cs Hc _ IHcs]; [reflexivity|].
    cbn [forallb] in Hbelow. apply andb_true_iff in Hbelow.
    destruct Hbelow as [H1 H2]. cbn [flatMapOpt].
    rewrite IHcs by exact H2.
    destruct c as [cty ct ca cd ccs| | | | |]; try reflexivity.
    now rewrite (Hc H1). }
  cbn [PostProcess.fixLinksAt]. rewrite B. cbn [option_map].
  unfold safe in Hself. cbn [tagIs] in Hself.
  destruct (JsString.eqb t (lit "a")); [|reflexivity].
  cbn [negb orb] in Hself.
  unfold PostProcess.resolvedProp. unfold attr in *. cbn [attributes] in *.
  destruct (lookup (lit "href") a) as [href|] eqn:E; [|reflexivity].
  cbn [Metadata.someTruthy]. destruct (truthy href); cbn [negb];
    [|reflexivity].
  rewrite Hself. now rewrite (setAttr_same _ _ E).
Qed.

Lemma fixMediaAt_unchanged n :
  PostProcess.fixMediaAt newURL None rewriteSrcset options n = Some n.
Proof.
  induction n as [ty t a d cs IH| | | |cs IH|cs IH] using node_induction;
    try reflexivity.
  cbn [PostProcess.fixMediaAt].
  assert (B : mapOpt (PostProcess.fixMediaAt newURL None rewriteSrcset options)
                cs = Some cs).
  { induction IH as [|c cs Hc _ IHcs]; [reflexivity|].
    cbn [mapOpt]. now rewrite Hc, IHcs. }
  rewrite B.
  assert (M : PostProcess.fixMedia newURL None rewriteSrcset options
                (Element ty t a d cs) = Some a).
  { unfold PostProcess.fixMedia, PostProcess.resolvedProp. rewrite noBase.
    unfold attr. cbn [attributes].
    assert (S1 : (if tagIn PostProcess.SRC_RESOLVED (Element ty t a d cs)
                  then match lookup (lit "src") a with
                       | Some v => Some (Some v)
                       | None => Some None
                       end
                  else Some (lookup (lit "src") a))
                 = Some (lookup (lit "src") a)).
    { destruct (tagIn _ _); [|reflexivity].
      destruct (lookup (lit "src") a); reflexivity. }
    match goal with
    | |- match ?x with _ => _ end = _ =>
        replace x with (Some (lookup (lit "src") a))
    end.
    clear S1.
    assert (A1 : match lookup (lit "src") a with
                 | Some s => if truthy s then setAttr (lit "src") s a else a
                 | None => a
                 end = a).
    { destruct (lookup (lit "src") a) as [s|] eqn:E; [|reflexivity].
      destruct (truthy s); [|reflexivity]. now apply setAttr_same. }
    rewrite A1.
    destruct (lookup (lit "poster") a) as [p|] eqn:E; [|reflexivity].
    destruct (truthy p); [|reflexivity]. now rewrite (setAttr_same _ _ E). }
  destruct (tagIn PostProcess.MEDIA (Element ty t a d cs));
    [rewrite M|]; reflexivity.
Qed.

(** X30: without a base URI (neither in cheerio's options nor in the
    [baseURI] option) and without a link whose [href] holds [javascript:],
    [fixRelativeUris] leaves the article as it is: every [href], [src]
    and [poster] is written back unchanged and no [srcset] is touched. *)
Theorem fixRelativeUris_without_base (articleContent : node) :
  forallb safe (descendants articleContent) = true ->
  PostProcess.fixRelativeUris newURL parseHTML None rewriteSrcset options
    articleContent = Some articleContent.
Proof.
  intros H. unfold PostProcess.fixRelativeUris.
  destruct articleContent as [ty t a d cs| | | | |]; try reflexivity.
  rewrite descendants_children, forallb_flat_map in H.
  assert (B : flatMapOpt (PostProcess.fixLinksAt newURL parseHTML None) cs
              = Some cs).
  { induction cs as [|c cs IHcs]; [reflexivity|].
    cbn [forallb] in H. apply andb_true_iff in H. destruct H as [H1 H2].
    cbn [flatMapOpt]. rewrite IHcs by exact H2.
    destruct c as [cty ct ca cd ccs| | | | |]; try reflexivity.
    now rewrite (fixLinksAt_unchanged _ H1). }
  rewrite B.
  assert (M : mapOpt (PostProcess.fixMediaAt newURL None rewriteSrcset options)
                cs = Some cs).
  { clear H B. induction cs as [|c cs IHcs]; [reflexivity|].
    cbn [mapOpt]. now rewrite fixMediaAt_unchanged, IHcs. }
  rewrite M. reflexivity.
Qed.
End WithoutBaseURI.

(** [<div><a href="/x">y</a><img src="a.png"></div>] under the default
    options. *)
Lemma fixRelativeUris_without_base_witness :
  PostProcess.fixRelativeUris Examples.urlUnused Examples.parseUnused None
    Examples.urlUnused (DEFAULT_OPTIONS Examples.htmlUnused)
    (Examples.el "div" []
       [Examples.el "a" [("href", "/x")]%string [Examples.txt "y"];
        Examples.el "img" [("src", "a.png")]%string []])
  = Some (Examples.el "div" []
            [Examples.el "a" [("href", "/x")]%string [Examples.txt "y"];
             Examples.el "img" [("src", "a.png")]%string []]).
Proof.
  apply fixRelativeUris_without_base; reflexivity.
Defined.
